(** * Cache consistency and change propagation of the IPS / MTESS report service

    A shallow embedding of [sharepoint_manager.py] (class [SharePointManager])
    and of the monitor, presence and update handlers of [app.py].

    Conventions of the embedding:
    - every reading of the wall clock ([time.time()], [pd.Timestamp.now])
      and every answer of the remote service or of the file system is an
      input of the model, gathered in an environment record;
    - Python floats that hold timestamps are read as exact rationals ([Q]);
      the constants [5], [0.1] and [0.001] are the rationals of that name;
    - a Python [dict] with string keys is a [gmap string _]; the participant
      table, whose order is the order of insertion, is an association list;
    - an exception is a value of [Exc]; code under [try/except Exception]
      returns normally in the model, code outside one returns [Raise];
    - the requests of a worker thread and the emissions of a handler are
      returned as the list of what was done, in order.

    The first part holds the embedding, the notions the statements use and
    the data of the scenarios; the second part holds the results, one
    subsection per operation. Calls are sequential: a statement about two
    operations is about one running after the other. *)

From Stdlib Require Import QArith Lqa ZArith String DecimalString List.
From stdpp Require Import base option gmap strings list fin_maps.

Set Warnings "-register-all".
Open Scope string_scope.

(** ** Python values and exceptions *)

(** The scalars that reach the modelled code from JSON request bodies and
    from table cells. *)
Inductive PyVal : Type :=
| PStr (s : string)
| PInt (z : Z)
| PBool (b : bool)
| PNone.

(** [str(x)] *)
Definition py_str (v : PyVal) : string :=
  match v with
  | PStr s => s
  | PInt z => NilZero.string_of_int (Z.to_int z)
  | PBool true => "True"
  | PBool false => "False"
  | PNone => "None"
  end.

(** Truth value of [x] in [if x:] *)
Definition py_truthy (v : PyVal) : bool :=
  match v with
  | PStr s => negb (String.eqb s "")
  | PInt z => negb (Z.eqb z 0)
  | PBool b => b
  | PNone => false
  end.

Inductive Exc : Type :=
| KeyError
| TypeError
| AttributeError
| OtherError.

Inductive Result (A : Type) : Type :=
| Ok (a : A)
| Raise (e : Exc).
Arguments Ok {A} a.
Arguments Raise {A} e.

(** ** Rational comparisons as booleans *)

Definition Qlt_bool (a b : Q) : bool := negb (Qle_bool b a).

(** ** JSON documents and the file [version.json] *)

Inductive Json : Type :=
| JNull
| JBool (b : bool)
| JNum (q : Q)
| JStr (s : string)
| JArr (l : list Json)
| JObj (kv : list (string * Json)).

(** [json.load] of an object: a later duplicate of a key wins. *)
Definition json_load_obj (kv : list (string * Json)) : gmap string Json :=
  list_to_map (reverse kv).

(** The text of a file, as far as the modelled code can tell texts apart:
    the chunks that [json.dump] hands to [write] one after another for a
    dict, namely the opening brace, then each key and each value, then the
    closing brace. A value is kept as the JSON value it is the text of. *)
Inductive Chunk : Type :=
| OpenBrace
| Key (k : string)
| Value (j : Json)
| CloseBrace.

Fixpoint dump_pairs (kv : list (string * Json)) : list Chunk :=
  match kv with
  | [] => []
  | (k, v) :: rest => Key k :: Value v :: dump_pairs rest
  end.

(** The text of the object with the pairs [kv]. *)
Definition object_text (kv : list (string * Json)) : list Chunk :=
  (OpenBrace :: dump_pairs kv ++ [CloseBrace])%list.

(** [json.dump] of a dict whose keys are strings. The order of the pairs in
    the text plays no part in what [json.load] makes of it. *)
Definition json_dump (d : gmap string Json) : list Chunk :=
  object_text (map_to_list d).

Fixpoint load_pairs (text : list Chunk) : option (list (string * Json)) :=
  match text with
  | [CloseBrace] => Some []
  | Key k :: Value v :: rest => cons (k, v) <$> load_pairs rest
  | _ => None
  end.

(** [json.load]: the document a text holds; [None] when the text is not a
    JSON document, in which case [json.load] raises. *)
Definition json_load (text : list Chunk) : option Json :=
  match text with
  | [Value j] => Some j
  | OpenBrace :: rest => JObj <$> load_pairs rest
  | _ => None
  end.

(** What is on disk under the name [self.state_file]: no file, or a file
    and its text. *)
Inductive FileContent : Type :=
| Absent
| Text (text : list Chunk).

(** A file that holds the object with the pairs [kv]. *)
Definition document (kv : list (string * Json)) : FileContent :=
  Text (object_text kv).

(** How a call of [_save_state] goes: [open(.., 'w')] raises and the file is
    not touched; or [open] has truncated the file and an exception is raised
    when [n] chunks of the text have reached it; or the whole text is
    written and the file closed. *)
Inductive WriteOutcome : Type :=
| WriteOk
| OpenFails
| FailsAfter (n : nat).

Definition default_state : gmap string Json :=
  <["IPS" := JNum 0]> (<["MTESS" := JNum 0]> ∅).

(** [_save_state]: the exception of a failed write is caught and printed, so
    the call returns in every case; what changes is the file. *)
Definition _save_state (io : WriteOutcome) (times_dict : gmap string Json)
    (file : FileContent) : FileContent :=
  match io with
  | WriteOk => Text (json_dump times_dict)
  | OpenFails => file
  | FailsAfter n => Text (take n (json_dump times_dict))
  end.

(** ["version" in data]: a key of a dict, an element of a list, a substring of
    a string; [TypeError] for a number, a boolean and [None]. *)
Definition contains_version (data : Json) : Result bool :=
  match data with
  | JObj kv => Ok (bool_decide (is_Some (json_load_obj kv !! "version")))
  | JArr l =>
      Ok (existsb (fun x => match x with
                            | JStr s => String.eqb s "version"
                            | _ => false
                            end) l)
  | JStr s =>
      Ok (match String.index 0 "version" s with
          | Some _ => true
          | None => false
          end)
  | JNull | JBool _ | JNum _ => Raise TypeError
  end.

(** [{**default_state, **data}]: the keys of [data] win; [TypeError] when
    [data] is not a mapping. *)
Definition merge_defaults (data : Json) : Result (gmap string Json) :=
  match data with
  | JObj kv => Ok (json_load_obj kv ∪ default_state)
  | _ => Raise TypeError
  end.

(** [_read_state]: the defaults when there is no file, when [json.load]
    rejects it, when the document has the key of the old format, and when an
    exception is caught. *)
Definition _read_state (file : FileContent) : gmap string Json :=
  match file with
  | Absent => default_state
  | Text text =>
      match json_load text with
      | None => default_state
      | Some data =>
          match contains_version data with
          | Raise _ => default_state
          | Ok true => default_state
          | Ok false =>
              match merge_defaults data with
              | Ok merged => merged
              | Raise _ => default_state
              end
          end
      end
  end.

(** The value a file gives to a key, when the file holds a JSON object. *)
Definition file_key (file : FileContent) (k : string) : option Json :=
  match file with
  | Text text =>
      match json_load text with
      | Some (JObj kv) => json_load_obj kv !! k
      | _ => None
      end
  | Absent => None
  end.

(** ** Tables *)

(** One row of a cached table. The columns that the modelled code reads or
    writes by name are fields of their own; [other_columns] holds the rest
    (Empresa, Cedula, Nombre, RUC, ...). [Modified] is a timestamp in
    seconds, or [None] for [NaT]. *)
Record Row : Type := mkRow {
  index_col : nat;
  ID : PyVal;
  Modified : option Q;
  REVISADO : PyVal;
  ModificadoPor : PyVal;
  AUD_ENTRADA : PyVal;
  AUD_ESTADO : PyVal;
  AUD_SALIDA : PyVal;
  other_columns : list (string * PyVal)
}.

Definition set_index_col (n : nat) (r : Row) : Row :=
  mkRow n (ID r) (Modified r) (REVISADO r) (ModificadoPor r)
        (AUD_ENTRADA r) (AUD_ESTADO r) (AUD_SALIDA r) (other_columns r).

Definition set_REVISADO (v : PyVal) (r : Row) : Row :=
  mkRow (index_col r) (ID r) (Modified r) v (ModificadoPor r)
        (AUD_ENTRADA r) (AUD_ESTADO r) (AUD_SALIDA r) (other_columns r).

Definition set_Modified (t : option Q) (r : Row) : Row :=
  mkRow (index_col r) (ID r) t (REVISADO r) (ModificadoPor r)
        (AUD_ENTRADA r) (AUD_ESTADO r) (AUD_SALIDA r) (other_columns r).

Definition set_ModificadoPor (v : PyVal) (r : Row) : Row :=
  mkRow (index_col r) (ID r) (Modified r) (REVISADO r) v
        (AUD_ENTRADA r) (AUD_ESTADO r) (AUD_SALIDA r) (other_columns r).

(** A [pd.DataFrame]: the frame [pd.DataFrame()] without any column, or a
    frame that has every column of [Row]. *)
Inductive DataFrame : Type :=
| NoColumns
| Table (rows : list Row).

(** [df.empty] *)
Definition df_empty (d : DataFrame) : bool :=
  match d with
  | NoColumns => true
  | Table [] => true
  | Table (_ :: _) => false
  end.

Definition df_rows (d : DataFrame) : list Row :=
  match d with
  | NoColumns => []
  | Table rows => rows
  end.

(** [df.loc[mask, col] = v], with [f] the assignment of [v] to [col] in one
    row: the rows whose position is set in the mask are changed in place. *)
Fixpoint loc_set (mask : list bool) (f : Row -> Row) (rows : list Row) : list Row :=
  match mask, rows with
  | b :: mask', r :: rows' => (if b then f r else r) :: loc_set mask' f rows'
  | _, _ => rows
  end.

(** [df[mask]] *)
Fixpoint df_select (mask : list bool) (rows : list Row) : list Row :=
  match mask, rows with
  | b :: mask', r :: rows' =>
      if b then r :: df_select mask' rows' else df_select mask' rows'
  | _, _ => []
  end.

(** [new_df.insert(0, "#", range(1, len(new_df) + 1))] *)
Fixpoint number_rows (n : nat) (rows : list Row) : list Row :=
  match rows with
  | [] => []
  | r :: rows' => set_index_col n r :: number_rows (S n) rows'
  end.

(** ** The manager and the file it persists to *)

(** The attributes of a [SharePointManager] that the modelled methods use,
    and the content of the file named by [self.state_file]. [df] is the
    attribute [self.df]: [None] when the instance has no such attribute. *)
Record World : Type := mkWorld {
  access_token : string;
  site_id : option string;
  list_ids : gmap string string;
  dfs : gmap string DataFrame;
  last_change_times : gmap string Json;
  last_local_update_times : gmap string Q;
  df : option DataFrame;
  version_json : FileContent
}.

Definition set_access_token (t : string) (w : World) : World :=
  mkWorld t (site_id w) (list_ids w) (dfs w) (last_change_times w)
          (last_local_update_times w) (df w) (version_json w).

Definition set_site_id (s : option string) (w : World) : World :=
  mkWorld (access_token w) s (list_ids w) (dfs w) (last_change_times w)
          (last_local_update_times w) (df w) (version_json w).

Definition set_list_ids (l : gmap string string) (w : World) : World :=
  mkWorld (access_token w) (site_id w) l (dfs w) (last_change_times w)
          (last_local_update_times w) (df w) (version_json w).

Definition set_dfs (d : gmap string DataFrame) (w : World) : World :=
  mkWorld (access_token w) (site_id w) (list_ids w) d (last_change_times w)
          (last_local_update_times w) (df w) (version_json w).

Definition set_last_change_times (t : gmap string Json) (w : World) : World :=
  mkWorld (access_token w) (site_id w) (list_ids w) (dfs w) t
          (last_local_update_times w) (df w) (version_json w).

Definition set_last_local_update_times (t : gmap string Q) (w : World) : World :=
  mkWorld (access_token w) (site_id w) (list_ids w) (dfs w) (last_change_times w)
          t (df w) (version_json w).

Definition set_version_json (f : FileContent) (w : World) : World :=
  mkWorld (access_token w) (site_id w) (list_ids w) (dfs w) (last_change_times w)
          (last_local_update_times w) (df w) f.

(** Truth values of a string and of a value that may be [None]. *)
Definition str_truthy (s : string) : bool := negb (String.eqb s "").

Definition opt_truthy (o : option string) : bool :=
  match o with
  | Some s => str_truthy s
  | None => false
  end.

Definition list_name_ips : string := "Auditoria_General".
Definition list_name_mtess : string := "Auditoria_MTESS_IPS".
Definition list_name_whitelist : string := "whitelist_ips_mtess".

(** [_authenticate]: [answer] is the token when the identity provider grants
    one; otherwise (a refusal or an exception, both printed) the attribute
    keeps its value. *)
Definition _authenticate (answer : option string) (w : World) : World :=
  match answer with
  | Some token => set_access_token token w
  | None => w
  end.

(** [_get_site_id]: [answer] is the id when the request returns 200. *)
Definition _get_site_id (answer : option string) (w : World) : World :=
  if negb (str_truthy (access_token w)) then w
  else match answer with
       | Some i => set_site_id (Some i) w
       | None => w
       end.

(** The loop of [_get_list_ids] over the lists of the site, each a pair of
    its display name and its id. *)
Fixpoint scan_lists (lists : list (string * string)) (acc : gmap string string)
    : gmap string string :=
  match lists with
  | [] => acc
  | (displayName, i) :: rest =>
      scan_lists rest
        (if String.eqb displayName list_name_ips then <["IPS" := i]> acc
         else if String.eqb displayName list_name_mtess then <["MTESS" := i]> acc
         else if String.eqb displayName list_name_whitelist then <["WHITELIST" := i]> acc
         else acc)
  end.

(** [_get_list_ids]: [answer] is the list of lists when the request returns
    200. A key of [self.list_ids] whose value is [None] is an absent key of
    the map. *)
Definition _get_list_ids (answer : option (list (string * string))) (w : World) : World :=
  if negb (str_truthy (access_token w)) || negb (opt_truthy (site_id w)) then w
  else match answer with
       | Some lists => set_list_ids (scan_lists lists ∅) w
       | None => w
       end.

(** ** Computations that change the manager and may raise *)

Definition M (A : Type) : Type := World -> World * Result A.

Definition ret {A : Type} (a : A) : M A := fun w => (w, Ok a).

Definition raise {A : Type} (e : Exc) : M A := fun w => (w, Raise e).

Definition bind {A B : Type} (m : M A) (k : A -> M B) : M B :=
  fun w =>
    match m w with
    | (w', Ok a) => k a w'
    | (w', Raise e) => (w', Raise e)
    end.

Notation "'let*' x ':=' m 'in' k" := (bind m (fun x => k))
  (at level 10, x name, m at level 100, k at level 200).

Definition get_world : M World := fun w => (w, Ok w).

Definition modify (f : World -> World) : M unit := fun w => (f w, Ok tt).

(** [d[k]]: a lookup that raises [KeyError] *)
Definition subscript {A : Type} (d : gmap string A) (k : string) : M A :=
  match d !! k with
  | Some a => ret a
  | None => raise KeyError
  end.

(** The number a JSON value stands for in a comparison or a sum with a
    float: a number, or a boolean, which Python counts as 0 or 1. *)
Definition num_of (j : Json) : option Q :=
  match j with
  | JNum q => Some q
  | JBool true => Some 1%Q
  | JBool false => Some 0%Q
  | _ => None
  end.

(** The use of a value as a number; [TypeError] for [None], strings, lists
    and dicts. *)
Definition as_number {A : Type} (j : Json) (k : Q -> M A) : M A :=
  match num_of j with
  | Some q => k q
  | None => raise TypeError
  end.

(** ** [update_status_by_ids] *)

(** The clock readings and the outcome of the file write of one call. *)
Record EditEnv : Type := mkEditEnv {
  edit_stamp : Q;          (* pd.Timestamp.now(tz='UTC') *)
  edit_time : Q;           (* time.time() *)
  edit_io : WriteOutcome
}.

(** [df["ID"].astype(str).isin(str_ids)] *)
Definition isin (str_ids : list string) (r : Row) : bool :=
  bool_decide (py_str (ID r) ∈ str_ids).

(** The whole body runs under [try/except Exception], so the method returns
    in every case and has no result. On the frame without columns,
    [df["ID"]] raises [KeyError], which is caught before anything is
    changed. *)
Definition update_status_by_ids (env : EditEnv) (ids : list PyVal)
    (status : PyVal) (modifier : PyVal) (source : string) (w : World) : World :=
  match dfs w !! source with
  | None => w
  | Some NoColumns => w
  | Some (Table rows) =>
      let str_ids := map py_str ids in
      let mask := map (isin str_ids) rows in
      if negb (existsb id mask) then w
      else
        let rows1 := loc_set mask (set_REVISADO status) rows in
        let rows2 := loc_set mask (set_Modified (Some (edit_stamp env))) rows1 in
        let rows3 := if py_truthy modifier
                     then loc_set mask (set_ModificadoPor modifier) rows2
                     else rows2 in
        let w1 := set_dfs (<[source := Table rows3]> (dfs w)) w in
        let w2 := set_last_change_times
                    (<[source := JNum (edit_time env)]> (last_change_times w1)) w1 in
        let w3 := set_last_local_update_times
                    (<[source := edit_time env]> (last_local_update_times w2)) w2 in
        set_version_json
          (_save_state (edit_io env) (last_change_times w3) (version_json w3)) w3
  end.

(** ** [fetch_data] *)

(** The answers of the remote service, the clock readings and the outcome of
    the file write of one call. [items_answer] is [clean_data], the rows
    built from the pages that were read, with [Modified] already converted;
    it is [None] when a request or the decoding of an answer raises. *)
Record FetchEnv : Type := mkFetchEnv {
  auth_answer : option string;
  site_answer : option string;
  lists_answer : option (list (string * string));
  rescan_answer : option (list (string * string));
  items_answer : option (list Row);
  guard_time : Q;          (* time.time() of the race guard *)
  store_time : Q;          (* time.time() stored as last change *)
  fetch_io : WriteOutcome
}.

(** The part of [fetch_data] under [try]; an exception in it is caught and
    the method returns [pd.DataFrame()]. *)
Definition fetch_data_try (env : FetchEnv) (source : string) : M DataFrame :=
  match items_answer env with
  | None => raise OtherError
  | Some clean_data =>
      let* w := get_world in
      let* last_local := subscript (last_local_update_times w) source in
      if Qlt_bool (guard_time env - last_local) 5
      then subscript (dfs w) source
      else
        let new_df := Table (number_rows 1 clean_data) in
        let* _ := modify (fun w => set_dfs (<[source := new_df]> (dfs w)) w) in
        let* _ := modify (fun w =>
                    set_last_change_times
                      (<[source := JNum (store_time env)]> (last_change_times w)) w) in
        let* _ := modify (fun w =>
                    set_version_json
                      (_save_state (fetch_io env) (last_change_times w) (version_json w)) w) in
        let* w := get_world in
        subscript (dfs w) source
  end.

(** [try: ... except Exception: return pd.DataFrame()] *)
Definition except_empty_frame (m : M DataFrame) : M DataFrame :=
  fun w =>
    match m w with
    | (w', Ok d) => (w', Ok d)
    | (w', Raise _) => (w', Ok NoColumns)
    end.

Definition fetch_data (env : FetchEnv) (source : string) : M DataFrame :=
  let* w := get_world in
  let* _ :=
    (if negb (str_truthy (access_token w)) || negb (opt_truthy (site_id w))
     then modify (fun w => _get_list_ids (lists_answer env)
                             (_get_site_id (site_answer env)
                                (_authenticate (auth_answer env) w)))
     else ret tt) in
  let* w := get_world in
  if opt_truthy (list_ids w !! source)
  then except_empty_frame (fetch_data_try env source)
  else
    let* _ := modify (_get_list_ids (rescan_answer env)) in
    let* w := get_world in
    if opt_truthy (list_ids w !! source)
    then except_empty_frame (fetch_data_try env source)
    else subscript (dfs w) source.

(** ** [check_version] *)

(** What one iteration of the loop over the sources reads from outside. *)
Record SourceEnv : Type := mkSourceEnv {
  grace_time : Q;          (* time.time() of the grace-period test *)
  fetch_env : FetchEnv
}.

Definition check_source (env : SourceEnv) (file_versions : gmap string Json)
    (source : string) (updated_sources : list string) : M (list string) :=
  let* w := get_world in
  let* last_local := subscript (last_local_update_times w) source in
  if Qlt_bool (grace_time env - last_local) 5 then ret updated_sources
  else
    let* file_version := subscript file_versions source in
    let* memory := subscript (last_change_times w) source in
    as_number memory (fun m =>
    as_number file_version (fun f =>
      if Qlt_bool (m + 0.1) f
      then
        let* _ := fetch_data (fetch_env env) source in
        ret (updated_sources ++ [source])%list
      else ret updated_sources)).

Definition check_version (env : string -> SourceEnv)
    : M (gmap string Json * list string) :=
  let* w := get_world in
  let file_versions := _read_state (version_json w) in
  let* updated1 := check_source (env "IPS") file_versions "IPS" [] in
  let* updated2 := check_source (env "MTESS") file_versions "MTESS" updated1 in
  let* w := get_world in
  ret (last_change_times w, updated2).

(** ** [get_inconsistencies] and [get_verified] *)

Definition is_str (s : string) (v : PyVal) : bool :=
  match v with
  | PStr t => String.eqb s t
  | _ => false
  end.

Definition upper_ascii (c : Ascii.ascii) : Ascii.ascii :=
  let n := Ascii.nat_of_ascii c in
  if (97 <=? n)%nat && (n <=? 122)%nat then Ascii.ascii_of_nat (n - 32) else c.

(** [str.upper], on the letters of ASCII *)
Fixpoint upper (s : string) : string :=
  match s with
  | EmptyString => EmptyString
  | String c s' => String (upper_ascii c) (upper s')
  end.

(** [self.df]: the attribute is read from the instance; when the instance has
    none the read raises [AttributeError]. *)
Definition self_df : M DataFrame :=
  fun w =>
    match df w with
    | Some d => (w, Ok d)
    | None => (w, Raise AttributeError)
    end.

(** [frame[col]]: [KeyError] on a frame without that column *)
Definition frame_rows (d : DataFrame) : M (list Row) :=
  match d with
  | Table rows => ret rows
  | NoColumns => raise KeyError
  end.

Definition get_inconsistencies (source : string) : M DataFrame :=
  let* w := get_world in
  let d := default NoColumns (dfs w !! source) in
  if df_empty d then ret d
  else
    let* d1 := self_df in
    let* entrada := frame_rows d1 in
    let* d2 := self_df in
    let* estado := frame_rows d2 in
    let* d3 := self_df in
    let* salida := frame_rows d3 in
    let mask :=
      zip_with orb
        (zip_with orb
           (map (fun r => negb (is_str "COINCIDE" (AUD_ENTRADA r))) entrada)
           (map (fun r => negb (is_str "COINCIDE" (AUD_ESTADO r))) estado))
        (map (fun r => negb (is_str "COINCIDE" (AUD_SALIDA r))) salida) in
    let* d4 := self_df in
    let* rows := frame_rows d4 in
    ret (Table (df_select mask rows)).

Definition get_verified (source : string) : M DataFrame :=
  let* w := get_world in
  let d := default NoColumns (dfs w !! source) in
  if df_empty d then ret d
  else
    let* d1 := self_df in
    let* revisado := frame_rows d1 in
    let mask :=
      map (fun r => String.eqb (upper (py_str (REVISADO r))) "REVISADO") revisado in
    let* d2 := self_df in
    let* rows := frame_rows d2 in
    ret (Table (df_select mask rows)).

(** ** [__init__] *)

Record InitEnv : Type := mkInitEnv {
  init_auth : option string;
  init_site : option string;
  init_lists : option (list (string * string));
  init_file : FileContent
}.

(** The constructor. No statement of it, nor of any method, assigns
    [self.df]. When the first authentication gives no token,
    [self.access_token] is not assigned either and the constructor raises at
    [if self.access_token:]: there is no manager then. *)
Definition __init__ (env : InitEnv) : option World :=
  match init_auth env with
  | None => None
  | Some token =>
      let w0 :=
        mkWorld token None ∅
                (<["IPS" := NoColumns]> (<["MTESS" := NoColumns]> ∅))
                ∅ ∅ None (init_file env) in
      let w1 := if str_truthy (access_token w0)
                then _get_list_ids (init_lists env) (_get_site_id (init_site env) w0)
                else w0 in
      let w2 := set_last_change_times (_read_state (version_json w1)) w1 in
      Some (set_last_local_update_times
              (<["IPS" := 0%Q]> (<["MTESS" := 0%Q]> ∅)) w2)
  end.

(** ** [_patch_worker] *)

(** The answer to one [requests.patch]: a response with a status code, or an
    exception raised by the call. *)
Inductive HttpAnswer : Type :=
| Responds (status_code : Z)
| Throws.

(** [status_answer i] and [modifier_answer i] answer the first and the second
    request made for the item at position [i] of the batch. *)
Record PatchEnv : Type := mkPatchEnv {
  patch_auth : option string;
  status_answer : nat -> HttpAnswer;
  modifier_answer : nat -> HttpAnswer
}.

Inductive LogLine : Type :=
| CannotPatch
| StartingPatch (n : nat)
| StatusUpdated (item : string)
| ModificadoPorUpdated (item : string)
| ModificadoPorFailed (item : string)
| ModificadoPorException
| UpdateFailed (item : string) (status_code : Z)
| UpdateResponse
| UpdateException (item : string)
| PatchFinished.

(** What the worker does, in order: a [PATCH] of one field of one item, or a
    line printed. *)
Inductive WorkerStep : Type :=
| PatchField (item : string) (field : string) (value : PyVal)
| Printed (line : LogLine).

(** What follows the status patch of the item at position [i], by its
    answer. A 200 is printed twice: the test on it is written twice. *)
Definition after_status_patch (env : PatchEnv) (modifier_name : PyVal)
    (i : nat) (item : string) : list WorkerStep :=
  match status_answer env i with
  | Throws => [Printed (UpdateException item)]
  | Responds code =>
      if (code =? 200)%Z
      then
        Printed (StatusUpdated item) :: Printed (StatusUpdated item) ::
        (if py_truthy modifier_name
         then
           PatchField item "ModificadoPor" modifier_name ::
           match modifier_answer env i with
           | Throws => [Printed ModificadoPorException]
           | Responds code_mod =>
               if (code_mod =? 200)%Z
               then [Printed (ModificadoPorUpdated item)]
               else [Printed (ModificadoPorFailed item)]
           end
         else [])
      else [Printed (UpdateFailed item code); Printed UpdateResponse]
  end.

(** The body of the loop for the item at position [i]. *)
Definition patch_item (env : PatchEnv) (status modifier_name : PyVal)
    (i : nat) (item_id : PyVal) : list WorkerStep :=
  PatchField (py_str item_id) "REVISADO" status ::
  after_status_patch env modifier_name i (py_str item_id).

Arguments patch_item : simpl never.

Fixpoint patch_items (env : PatchEnv) (status modifier_name : PyVal)
    (i : nat) (item_ids : list PyVal) : list WorkerStep :=
  match item_ids with
  | [] => []
  | item_id :: rest =>
      (patch_item env status modifier_name i item_id ++
       patch_items env status modifier_name (S i) rest)%list
  end.

(** The worker can proceed when it has a token, a site id and the id of the
    list of the source. *)
Definition connection_details (source : string) (w : World) : bool :=
  str_truthy (access_token w) && opt_truthy (site_id w)
  && opt_truthy (list_ids w !! source).

Definition _patch_worker (env : PatchEnv) (item_ids : list PyVal)
    (status modifier_name : PyVal) (source : string) (w : World)
    : World * list WorkerStep :=
  let w1 := _authenticate (patch_auth env) w in
  if negb (connection_details source w1)
  then (w1, [Printed CannotPatch])
  else
    (w1,
     (Printed (StartingPatch (length item_ids)) ::
      patch_items env status modifier_name 0 item_ids ++ [Printed PatchFinished])%list).

(** ** [background_monitor] (app.py) *)

(** The payload of one [socketio.emit('server_update', ...)]. *)
Record ServerUpdate : Type := mkServerUpdate {
  update_source : string;
  update_version : Json;
  update_last_updated : string
}.

(** The locals of the monitor that live across iterations, and what it has
    emitted so far. *)
Record Monitor : Type := mkMonitor {
  last_emitted_versions : gmap string Json;
  emitted : list ServerUpdate
}.

(** The locals of the monitor when it starts. *)
Definition monitor_start : Monitor :=
  mkMonitor (<["IPS" := JNum 0]> (<["MTESS" := JNum 0]> ∅)) [].

(** The body of the loop [for source in ["IPS", "MTESS"]] of the monitor.
    [current_times] is the dict that [check_version] returned. The result is
    the exception that leaves the loop, if any. [get_formatted_date] renders
    the newest [Modified] of a frame as a date in words; on [None] in place
    of a frame it raises [AttributeError]. *)
Definition emit_source (get_formatted_date : DataFrame -> string) (w : World)
    (current_times : gmap string Json) (source : string) (mon : Monitor)
    : Monitor * option Exc :=
  match current_times !! source with
  | None => (mon, Some KeyError)
  | Some current =>
      match last_emitted_versions mon !! source with
      | None => (mon, Some KeyError)
      | Some last =>
          match num_of last, num_of current with
          | Some l, Some c =>
              if Qlt_bool (l + 0.001) c
              then
                match dfs w !! source with
                | None => (mon, Some AttributeError)
                | Some df_current =>
                    let new_date_str := get_formatted_date df_current in
                    (mkMonitor
                       (<[source := current]> (last_emitted_versions mon))
                       (emitted mon ++ [mkServerUpdate source current new_date_str])%list,
                     None)
                end
              else (mon, None)
          | _, _ => (mon, Some TypeError)
          end
      end
  end.

(** One iteration of [while True], from the return of [monitor_event.wait].
    The last component tells whether the iteration ended in the handler of
    [except], which prints and sleeps 5 seconds. *)
Definition monitor_tick (get_formatted_date : DataFrame -> string)
    (env : string -> SourceEnv) (w : World) (mon : Monitor)
    : World * Monitor * bool :=
  match check_version env w with
  | (w', Raise _) => (w', mon, true)
  | (w', Ok (current_times, _)) =>
      match emit_source get_formatted_date w' current_times "IPS" mon with
      | (mon1, Some _) => (w', mon1, true)
      | (mon1, None) =>
          match emit_source get_formatted_date w' current_times "MTESS" mon1 with
          | (mon2, Some _) => (w', mon2, true)
          | (mon2, None) => (w', mon2, false)
          end
      end
  end.

(** The number of [server_update] events for a source in a list of them. *)
Definition count_updates (source : string) (l : list ServerUpdate) : nat :=
  length (List.filter (fun u => String.eqb (update_source u) source) l).

(** ** [update_status] (app.py, [POST /api/update]) *)

Record Claims : Type := mkClaims {
  claim_name : option string;
  preferred_username : option string
}.

Record Session : Type := mkSession {
  session_user : option Claims;
  session_photo : option string
}.

(** The JSON body of the request; [None] is an absent key. *)
Record UpdateBody : Type := mkUpdateBody {
  body_ids : option (list PyVal);
  body_status : option PyVal;
  body_source : option string
}.

Inductive Response : Type :=
| Unauthorized401
| NoIds400
| Success200 (count : nat) (last_updated : string)
| ServerError500.

(** The arguments of a [patch_sharepoint_background] thread. *)
Record PatchJob : Type := mkPatchJob {
  job_item_ids : list PyVal;
  job_status : PyVal;
  job_modifier_name : PyVal;
  job_source : string
}.

Record Handled : Type := mkHandled {
  response : Response;
  spawned : option PatchJob;
  monitor_event_set : bool
}.

Definition update_status (get_formatted_date : DataFrame -> string)
    (session : Session) (data : UpdateBody) (env : EditEnv) (w : World)
    : World * Handled :=
  match session_user session with
  | None => (w, mkHandled Unauthorized401 None false)
  | Some claims =>
      let ids := default [] (body_ids data) in
      let status := default (PStr "REVISADO") (body_status data) in
      let source := default "IPS" (body_source data) in
      match ids with
      | [] => (w, mkHandled NoIds400 None false)
      | _ :: _ =>
          let modifier_name := PStr (default "Usuario" (claim_name claims)) in
          let w1 := update_status_by_ids env ids status modifier_name source w in
          let job := mkPatchJob ids status modifier_name source in
          match dfs w1 !! source with
          | None => (w1, mkHandled ServerError500 (Some job) false)
          | Some d =>
              (w1, mkHandled (Success200 (length ids) (get_formatted_date d))
                             (Some job) true)
          end
      end
  end.

(** ** Presence: [handle_connect] and [handle_disconnect] (app.py) *)

Record UserInfo : Type := mkUserInfo {
  name : option string;
  email : option string;
  photo : option string
}.

Inductive Payload : Type :=
| OneUser (u : UserInfo)
| UserList (l : list UserInfo).

(** One call of [emit]; [broadcast] is false and [include_self] true unless
    the call says otherwise. *)
Record Emit : Type := mkEmit {
  event : string;
  payload : Payload;
  broadcast : bool;
  include_self : bool
}.

(** [connected_users], a dict from connection id to user: the pairs in the
    order of insertion. *)
Definition Connected : Type := list (string * UserInfo).

(** [d[k] = v]: the value of a key that is present is replaced in place, a new
    key goes to the end. *)
Fixpoint dict_set (k : string) (v : UserInfo) (d : Connected) : Connected :=
  match d with
  | [] => [(k, v)]
  | (k', v') :: d' =>
      if String.eqb k k' then (k, v) :: d' else (k', v') :: dict_set k v d'
  end.

Fixpoint dict_get (k : string) (d : Connected) : option UserInfo :=
  match d with
  | [] => None
  | (k', v') :: d' => if String.eqb k k' then Some v' else dict_get k d'
  end.

Fixpoint dict_del (k : string) (d : Connected) : Connected :=
  match d with
  | [] => []
  | (k', v') :: d' => if String.eqb k k' then d' else (k', v') :: dict_del k d'
  end.

Definition dict_values (d : Connected) : list UserInfo := map snd d.

(** The loops that look for a connection with a given email. *)
Definition same_email (u v : UserInfo) : bool := bool_decide (email u = email v).

Definition email_connected (u : UserInfo) (d : Connected) : bool :=
  existsb (fun v => same_email v u) (dict_values d).

(** [handle_connect]: the first component is [false] when the connection is
    rejected. *)
Definition handle_connect (session : Session) (sid : string)
    (connected_users : Connected) : bool * Connected * list Emit :=
  match session_user session with
  | None => (false, connected_users, [])
  | Some claims =>
      let user_info :=
        mkUserInfo (claim_name claims) (preferred_username claims)
                   (session_photo session) in
      let is_new_person := negb (email_connected user_info connected_users) in
      let connected_users' := dict_set sid user_info connected_users in
      let joined :=
        if is_new_person
        then [mkEmit "user_joined" (OneUser user_info) true false]
        else [] in
      let all_users := dict_values connected_users' in
      (true, connected_users',
       (joined ++ [mkEmit "presence_list" (UserList all_users) false true])%list)
  end.

Definition handle_disconnect (sid : string) (connected_users : Connected)
    : Connected * list Emit :=
  match dict_get sid connected_users with
  | None => (connected_users, [])
  | Some user =>
      let connected_users' := dict_del sid connected_users in
      let is_still_here := email_connected user connected_users' in
      let left :=
        if negb is_still_here
        then [mkEmit "user_left" (OneUser user) true true]
        else [] in
      let all_users := dict_values connected_users' in
      (connected_users',
       (left ++ [mkEmit "presence_update" (UserList all_users) true true])%list)
  end.

(** ** Notions used in the statements *)

(** What an edit does to one row that its mask selects. *)
Definition edit_row (env : EditEnv) (status modifier : PyVal) (r : Row) : Row :=
  let r2 := set_Modified (Some (edit_stamp env)) (set_REVISADO status r) in
  if py_truthy modifier then set_ModificadoPor modifier r2 else r2.

(** What an edit with the ids [ids] does to the rows of a table: the rows
    whose identifier, as a string, is the string of one of the ids are
    edited, the others are left as they are, and the order is kept. *)
Definition edit_rows (env : EditEnv) (ids : list PyVal) (status modifier : PyVal)
    (rows : list Row) : list Row :=
  map (fun r => if isin (map py_str ids) r then edit_row env status modifier r else r)
      rows.

(** The cache of the datasets, as opposed to the connection details: the
    tables, both kinds of timestamps and the persisted file. *)
Definition same_cache (w w' : World) : Prop :=
  dfs w' = dfs w /\
  last_change_times w' = last_change_times w /\
  last_local_update_times w' = last_local_update_times w /\
  version_json w' = version_json w.

(** The parts of the world that [fetch_data] for one source leaves alone:
    the times of the local edits, the attribute [df], and the table and the
    last-change time of every other key. No key of [dfs] is lost. *)
Definition refresh_frame (source : string) (w w' : World) : Prop :=
  last_local_update_times w' = last_local_update_times w /\
  df w' = df w /\
  (forall k, k <> source ->
             dfs w' !! k = dfs w !! k /\
             last_change_times w' !! k = last_change_times w !! k) /\
  (forall k, is_Some (dfs w !! k) -> is_Some (dfs w' !! k)).

(** The test of [check_version] for one source: [t] is the clock reading,
    [last_local] the time of the last local edit, [memory] the cached
    last-change time and [file] the persisted one. *)
Definition refresh_due (t last_local memory file : Q) : bool :=
  negb (Qlt_bool (t - last_local) 5) && Qlt_bool (memory + 0.1) file.

(** The state of one source when its timestamps are numbers. *)
Definition source_state (w : World) (source : string) (last_local memory file : Q)
    : Prop :=
  is_Some (dfs w !! source) /\
  last_local_update_times w !! source = Some last_local /\
  (last_change_times w !! source) ≫= num_of = Some memory /\
  (_read_state (version_json w) !! source) ≫= num_of = Some file.

(** What one pass of the monitor over a source [k] can do to its locals:
    nothing, or one emission, made because the current version exceeds the
    last emitted one by more than 0.001, after which that version is
    recorded. *)
Definition emits_for (current_times : gmap string Json) (mon mon' : Monitor)
    (k : string) : Prop :=
  mon' = mon \/
  exists (current : Json) (l c : Q) (date : string),
    current_times !! k = Some current /\
    (last_emitted_versions mon !! k) ≫= num_of = Some l /\
    num_of current = Some c /\
    (l + 0.001 < c)%Q /\
    mon' = mkMonitor (<[k := current]> (last_emitted_versions mon))
                     (emitted mon ++ [mkServerUpdate k current date])%list.

(** An event was emitted for the right reason and then recorded. *)
Definition justified (current_times : gmap string Json) (mon mon' : Monitor)
    (u : ServerUpdate) : Prop :=
  exists l c : Q,
    (last_emitted_versions mon !! update_source u) ≫= num_of = Some l /\
    num_of (update_version u) = Some c /\
    (l + 0.001 < c)%Q /\
    current_times !! update_source u = Some (update_version u) /\
    last_emitted_versions mon' !! update_source u = Some (update_version u).

(** The [PATCH] requests among the steps of a worker, per field. *)
Definition is_patch_of (field : string) (s : WorkerStep) : bool :=
  match s with
  | PatchField _ f _ => String.eqb f field
  | Printed _ => false
  end.

Definition count_patches (field : string) (steps : list WorkerStep) : nat :=
  length (List.filter (is_patch_of field) steps).

(** The positions of a batch whose status patch is answered with 200. *)
Fixpoint count_status_ok (env : PatchEnv) (i n : nat) : nat :=
  match n with
  | O => O
  | S n' =>
      ((match status_answer env i with
        | Responds code => if (code =? 200)%Z then 1 else 0
        | Throws => 0
        end) + count_status_ok env (S i) n')%nat
  end.

(** The attribution patch of the item at position [i] is made exactly when
    the status patch is answered with 200 and there is a modifier name. *)
Definition attribution_due (env : PatchEnv) (modifier_name : PyVal) (i : nat) : bool :=
  match status_answer env i with
  | Responds code => (code =? 200)%Z && py_truthy modifier_name
  | Throws => false
  end.

(** The discipline of the steps [row] made for the item at position [i]: the
    status patch first and only once; the attribution patch exactly when the
    status patch is answered with 200 and there is a name, once; no other
    request, so none that sets the status back or repeats a failed one; a
    failure of either request followed by a line of log and by nothing
    else. *)
Definition two_step_row (env : PatchEnv) (status modifier_name : PyVal)
    (i : nat) (item_id : PyVal) (row : list WorkerStep) : Prop :=
  (exists rest, row = PatchField (py_str item_id) "REVISADO" status :: rest /\
                count_patches "REVISADO" rest = O) /\
  (attribution_due env modifier_name i = true <->
   (status_answer env i = Responds 200 /\ py_truthy modifier_name = true)) /\
  (count_patches "ModificadoPor" row =
   if attribution_due env modifier_name i then 1%nat else O) /\
  (forall item field value,
      PatchField item field value ∈ row ->
      item = py_str item_id /\
      ((field = "REVISADO" /\ value = status) \/
       (field = "ModificadoPor" /\ value = modifier_name /\
        attribution_due env modifier_name i = true))) /\
  (attribution_due env modifier_name i = true ->
   modifier_answer env i <> Responds 200 ->
   Printed (ModificadoPorFailed (py_str item_id)) ∈ row \/
   Printed ModificadoPorException ∈ row) /\
  (status_answer env i <> Responds 200 ->
   exists line,
     row = [PatchField (py_str item_id) "REVISADO" status; Printed line] \/
     row = [PatchField (py_str item_id) "REVISADO" status; Printed line;
            Printed UpdateResponse]).

(** The number of emissions of one event in a list of them. *)
Definition count_events (name : string) (l : list Emit) : nat :=
  length (List.filter (fun e => String.eqb (event e) name) l).

(** The user a session stands for. *)
Definition user_of (session : Session) (claims : Claims) : UserInfo :=
  mkUserInfo (claim_name claims) (preferred_username claims) (session_photo session).

(** A computation that leaves the attribute [df] as it finds it. *)
Definition preserves_df {A : Type} (m : M A) : Prop :=
  forall w, df (fst (m w)) = df w.

(** The worlds a running service can be in: built by the constructor, then
    changed by the methods of the manager, in any order and with any answers
    from outside, and by other processes that rewrite [version.json]. *)
Inductive reachable : World -> Prop :=
| reach_init env w :
    __init__ env = Some w -> reachable w
| reach_authenticate answer w :
    reachable w -> reachable (_authenticate answer w)
| reach_get_site_id answer w :
    reachable w -> reachable (_get_site_id answer w)
| reach_get_list_ids answer w :
    reachable w -> reachable (_get_list_ids answer w)
| reach_fetch_data env source w :
    reachable w -> reachable (fst (fetch_data env source w))
| reach_update_status_by_ids env ids status modifier source w :
    reachable w -> reachable (update_status_by_ids env ids status modifier source w)
| reach_check_version env w :
    reachable w -> reachable (fst (check_version env w))
| reach_patch_worker env item_ids status modifier_name source w :
    reachable w ->
    reachable (fst (_patch_worker env item_ids status modifier_name source w))
| reach_file_rewritten file w :
    reachable w -> reachable (set_version_json file w).

(** ** Sample data for the scenarios *)

Module Sample.

Definition row (i : string) (revisado : string) : Row :=
  mkRow 1 (PStr i) (Some 1716400000%Q) (PStr revisado) (PStr "")
        (PStr "COINCIDE") (PStr "NO_COINCIDE") (PStr "COINCIDE")
        [("Empresa", PStr "ACME"); ("RUC", PStr "80000001-1")].

(** A manager that is connected, caches one row of IPS with id "55" and
    nothing of MTESS, and whose timestamps agree with the file. *)
Definition world : World :=
  mkWorld "token" (Some "site")
          (<["IPS" := "list-ips"]> (<["MTESS" := "list-mtess"]> ∅))
          (<["IPS" := Table [row "55" "PENDIENTE"]]> (<["MTESS" := NoColumns]> ∅))
          (<["IPS" := JNum 50]> (<["MTESS" := JNum 50]> ∅))
          (<["IPS" := 0%Q]> (<["MTESS" := 0%Q]> ∅))
          None
          (document [("IPS", JNum 50); ("MTESS", JNum 50)]).

(** The sample world with the persisted time of IPS moved ahead by another
    process, and a tick at time [t]. *)
Definition world_behind : World :=
  set_version_json (document [("IPS", JNum 200); ("MTESS", JNum 50)]) world.

(** An edit at time 100 whose write succeeds. *)
Definition edit : EditEnv := mkEditEnv 100 100 WriteOk.

(** A refresh that brings the stale row and whose guard reads time
    [guard]. *)
Definition fetch (guard : Q) : FetchEnv :=
  mkFetchEnv None None None None (Some [row "55" "PENDIENTE"])
             guard guard WriteOk.

Definition tick (t : Q) : string -> SourceEnv :=
  fun _ => mkSourceEnv t (fetch t).

Definition date (d : DataFrame) : string := "Desconocido".

Definition session : Session :=
  mkSession (Some (mkClaims (Some "Ana") (Some "ana@prodato.com.py"))) None.

(** A second session of the same person, from another device. *)
Definition session_2 : Session :=
  mkSession (Some (mkClaims (Some "Ana B.") (Some "ana@prodato.com.py")))
            (Some "data:image/jpeg;base64,AAAA").

(** A connected manager and answers of the remote service in which the
    status patch of the second item fails and the attribution patch of the
    third raises. *)
Definition patch_env : PatchEnv :=
  mkPatchEnv (Some "token")
             (fun i => if (i =? 1)%nat then Responds 500 else Responds 200)
             (fun i => if (i =? 2)%nat then Throws else Responds 200).

(** A service that starts with no [version.json] and finds its three
    lists, and the manager it builds. *)
Definition init : InitEnv :=
  mkInitEnv (Some "token") (Some "site")
            (Some [("Auditoria_General", "list-ips");
                   ("Auditoria_MTESS_IPS", "list-mtess");
                   ("whitelist_ips_mtess", "list-white")])
            Absent.

Definition started : World := default world (__init__ init).

End Sample.

(** * More notions for the properties of the operations *)

(** ** The shape of the state *)

(** The names of the two datasets. *)
Definition dataset_key (k : string) : Prop := k = "IPS" \/ k = "MTESS".

(** The keys of the dicts of a manager: the tables and the times of the
    local edits are kept for the two datasets and for nothing else; the
    last-change times are kept for the two datasets at least, and never under
    the key of the old file format. *)
Definition well_keyed (w : World) : Prop :=
  (forall k, is_Some (dfs w !! k) <-> dataset_key k) /\
  (forall k, is_Some (last_local_update_times w !! k) <-> dataset_key k) /\
  (forall k, dataset_key k -> is_Some (last_change_times w !! k)) /\
  last_change_times w !! "version" = None.

(** The file says what the manager has in memory. *)
Definition synced (w : World) : Prop :=
  _read_state (version_json w) = last_change_times w.

(** A computation that keeps a property of the world. *)
Definition keeps (P : World -> Prop) {A : Type} (m : M A) : Prop :=
  forall w, P w -> P (fst (m w)).

(** ** The lists of the site *)

(** The id of the last list of [lists] whose display name is [name]. *)
Fixpoint last_id (name : string) (lists : list (string * string)) : option string :=
  match lists with
  | [] => None
  | (displayName, i) :: rest =>
      match last_id name rest with
      | Some j => Some j
      | None => if String.eqb displayName name then Some i else None
      end
  end.

(** ** Runs of the presence handlers *)

(** What happens on the socket: a client connects under a session and a
    connection id, or the connection with an id closes. *)
Inductive PresenceEvent : Type :=
| Connects (session : Session) (sid : string)
| Disconnects (sid : string).

Definition presence_step (e : PresenceEvent) (connected_users : Connected) : Connected :=
  match e with
  | Connects session sid => snd (fst (handle_connect session sid connected_users))
  | Disconnects sid => fst (handle_disconnect sid connected_users)
  end.

(** The table after the events of [events], first to last. *)
Definition presence_run (events : list PresenceEvent) (connected_users : Connected)
    : Connected :=
  fold_left (fun d e => presence_step e d) events connected_users.

(** The connection ids of a table, in its order. *)
Definition dict_keys (d : Connected) : list string := map fst d.

(** * The date shown with the data: [get_formatted_date] (app.py) *)

(** [Series.dropna] on the column [Modified], where [NaT] is [None] *)
Definition dropna (col : list (option Q)) : list Q := omap id col.

(** [Series.max] of a column with first value [x] *)
Definition series_max (x : Q) (col : list Q) : Q :=
  fold_left (fun m y => if Qlt_bool m y then y else m) col x.

(** [render] is the text made of the latest time: the Spanish long date in
    the time of Asuncion, or [str(max_date)] when making it raises. A frame
    with a row has the column [Modified], since every row built by
    [fetch_data] has it. *)
Definition get_formatted_date (render : Q -> string) (df : DataFrame) : string :=
  if negb (df_empty df) then
    match dropna (map Modified (df_rows df)) with
    | [] => "Desconocido"
    | x :: valid_dates => render (series_max x valid_dates)
    end
  else "Desconocido".

(** * The report of a company: [export_pdf] (app.py) and its badges
      (pdf_generator.py) *)

Definition bad_states : list string :=
  ["NO_COINCIDE"; "SIN_REGISTRO_IPS"; "SIN_REGISTRO_MTESS"].

(** [v in bad_states]: a value that is no string equals none of them. *)
Definition in_bad_states (v : PyVal) : bool :=
  match v with
  | PStr s => bool_decide (s ∈ bad_states)
  | _ => false
  end.

(** [is_inconsistent] of [export_pdf], which selects the rows of the section
    of inconsistencies *)
Definition is_inconsistent (row : Row) : bool :=
  in_bad_states (AUD_ENTRADA row) ||
  in_bad_states (AUD_ESTADO row) ||
  in_bad_states (AUD_SALIDA row).

(** [sub in s] on strings *)
Fixpoint contains (sub s : string) : bool :=
  String.prefix sub s ||
  match s with
  | EmptyString => false
  | String _ s' => contains sub s'
  end.

(** The pairs of colours of a badge; a cell without badge has none. *)
Inductive BadgeColor : Type :=
| badge_success
| badge_danger
| badge_info.

(** [format_badge_text]: the text of the cell and the colours of its
    badge *)
Definition format_badge_text (val : PyVal) : string * option BadgeColor :=
  let val_upper := upper (py_str val) in
  if String.eqb val_upper "COINCIDE" then ("Coincide", Some badge_success)
  else if String.eqb val_upper "NO_COINCIDE" then ("No Coincide", Some badge_danger)
  else if contains "SIN_REGISTRO" val_upper then (py_str val, Some badge_danger)
  else if String.eqb val_upper "VIGENTE" then ("Vigente", Some badge_info)
  else (if py_truthy val then py_str val else "-", None).

(** The three badges of a row of a table of the report, in the order in
    which the loop over the rows computes them. *)
Definition audit_badges (row : Row) : list (string * option BadgeColor) :=
  [format_badge_text (AUD_ESTADO row);
   format_badge_text (AUD_ENTRADA row);
   format_badge_text (AUD_SALIDA row)].

(** * The access list: [get_whitelist] and [add_to_whitelist]
      (sharepoint_manager.py), and the handlers that use them (app.py) *)

Definition string_rev (s : string) : string :=
  string_of_list_ascii (rev (list_ascii_of_string s)).

(** [s.endswith(suffix)] *)
Definition endswith (s suffix : string) : bool :=
  String.prefix (string_rev suffix) (string_rev s).

(** An item of the list of users as the service returns it: its ["id"] and
    the field ["correo"] of its ["fields"]; [None] is an absent key. *)
Record WhitelistItem : Type := mkWhitelistItem {
  wl_id : option string;
  wl_correo : option PyVal
}.

(** An element of the result of [get_whitelist] *)
Record WhitelistEntry : Type := mkWhitelistEntry {
  entry_id : string;
  entry_email : string
}.

(** The answers of the remote service to one call of [get_whitelist].
    [wl_items] is the ["value"] of the answer when the request returns 200;
    it is [None] when it returns another status or raises. *)
Record WhitelistEnv : Type := mkWhitelistEnv {
  wl_auth : option string;
  wl_site : option string;
  wl_lists : option (list (string * string));
  wl_rescan : option (list (string * string));
  wl_items : option (list WhitelistItem)
}.

(** The request that adds an item to the list of users, with the fields of
    its body. *)
Inductive ListRequest : Type :=
| PostItem (list_id : string) (correo : string) (title : string).

(** The answer to the request of [add_to_whitelist]; [lw_text] is [res.text]
    of a response and [str(e)] of an exception. *)
Record ListWriteEnv : Type := mkListWriteEnv {
  lw_auth : option string;
  lw_answer : HttpAnswer;
  lw_text : string
}.

(** The pair that the method returns, with the request it made, if any. *)
Record ListWrite : Type := mkListWrite {
  lw_success : bool;
  lw_msg : string;
  lw_request : option ListRequest
}.

Definition add_to_whitelist (env : ListWriteEnv) (email : string) (w : World)
    : World * ListWrite :=
  let w1 :=
    if negb (str_truthy (access_token w)) || negb (opt_truthy (site_id w))
    then _authenticate (lw_auth env) w else w in
  match list_ids w1 !! "WHITELIST" with
  | Some target_list_id =>
      if str_truthy target_list_id then
        let request := Some (PostItem target_list_id email email) in
        match lw_answer env with
        | Responds code =>
            if (code =? 201)%Z
            then (w1, mkListWrite true "Agregado correctamente" request)
            else (w1, mkListWrite false ("Error SharePoint: " ++ lw_text env) request)
        | Throws => (w1, mkListWrite false (lw_text env) request)
        end
      else (w1, mkListWrite false "Lista no encontrada" None)
  | None => (w1, mkListWrite false "Lista no encontrada" None)
  end.

Definition ADMIN_EMAILS : list string :=
  ["jonathan.arce@prodato.com.py";
   "valeria.penayo@prodato.com.py";
   "andrea.ruiz@prodato.com.py"].

(** What [authorized] reads of the request: whether its state is the one of
    the session, whether it carries an error, whether it carries a code, and
    the claims of the identity token that the code buys, [None] when the
    result of the purchase has an error. *)
Record AuthRequest : Type := mkAuthRequest {
  state_matches : bool;
  has_error : bool;
  has_code : bool;
  token_claims : option Claims
}.

(** The answer of [authorized], with what it has made of the session: the
    redirection to the index, with the user and the admin flag when the
    request has set them; the page of login with an error of the identity
    provider; the page of login after the session was cleared because the
    address is not allowed. The photo that the handler then puts in the
    session has no part in the answer. *)
Inductive AuthOutcome : Type :=
| RedirectIndex (signed_in : option (Claims * bool))
| LoginError
| AccessDenied.

Inductive AdminResponse : Type :=
| Forbidden403
| AdminSuccess (message : string)
| AdminError (status_code : Z) (message : string)
| AdminException.               (* 500 with the text of the exception *)

Section AccessList.

(** [str.lower] and [str.strip] are methods of the strings of Python that
    know the letters and the blanks of all of Unicode: [lower] turns ["Ñ"]
    into ["ñ"], [strip] removes a no-break space. They are not rebuilt here:
    the methods and handlers that call them take them as they are, as
    parameters. *)
Variable lower : string -> string.
Variable strip : string -> string.

(** The loop of [get_whitelist] over the items, with the list [emails] built
    so far. An item without address is skipped; [item["id"]] on an item
    without id and [email.lower()] on an address that is no string raise. *)
Fixpoint whitelist_emails (items : list WhitelistItem) (emails : list WhitelistEntry)
    : Result (list WhitelistEntry) :=
  match items with
  | [] => Ok emails
  | item :: rest =>
      let correo := default (PStr "") (wl_correo item) in
      if py_truthy correo then
        match wl_id item with
        | None => Raise KeyError
        | Some i =>
            match correo with
            | PStr s =>
                whitelist_emails rest (emails ++ [mkWhitelistEntry i (lower s)])%list
            | _ => Raise AttributeError
            end
        end
      else whitelist_emails rest emails
  end.

Definition get_whitelist (env : WhitelistEnv) (w : World)
    : World * list WhitelistEntry :=
  let w1 :=
    if negb (str_truthy (access_token w)) || negb (opt_truthy (site_id w))
    then _get_list_ids (wl_lists env)
           (_get_site_id (wl_site env) (_authenticate (wl_auth env) w))
    else w in
  let w2 :=
    if opt_truthy (list_ids w1 !! "WHITELIST") then w1
    else _get_list_ids (wl_rescan env) w1 in
  if opt_truthy (list_ids w2 !! "WHITELIST") then
    match wl_items env with
    | Some items =>
        match whitelist_emails items [] with
        | Ok emails => (w2, emails)
        | Raise _ => (w2, [])
        end
    | None => (w2, [])
    end
  else (w2, []).

(** Signing in: the access check of [authorized] *)
Definition authorized (req : AuthRequest) (env : WhitelistEnv) (w : World)
    : World * AuthOutcome :=
  if negb (state_matches req) then (w, RedirectIndex None)
  else if has_error req then (w, LoginError)
  else if has_code req then
    match token_claims req with
    | None => (w, LoginError)
    | Some claims =>
        let email := lower (default "" (preferred_username claims)) in
        let is_admin := bool_decide (email ∈ ADMIN_EMAILS) in
        let '(w', whitelist_items) := get_whitelist env w in
        let allowed_users := map entry_email whitelist_items in
        if negb is_admin && negb (bool_decide (email ∈ allowed_users))
        then (w', AccessDenied)
        else (w', RedirectIndex (Some (claims, is_admin)))
    end
  else (w, RedirectIndex None).

(** [add_user]; [is_admin] is the flag of the session and [body_email] the
    value of ["email"] in the body, [None] when the body has no such key. The
    handler returns its answer and the request it has made to the list. *)
Definition add_user (session : Session) (is_admin : bool) (body_email : option PyVal)
    (wenv : WhitelistEnv) (lenv : ListWriteEnv) (w : World)
    : World * (AdminResponse * option ListRequest) :=
  match session_user session with
  | None => (w, (Forbidden403, None))
  | Some _ =>
      if negb is_admin then (w, (Forbidden403, None))
      else
        match default (PStr "") body_email with
        | PStr raw =>
            let email := lower (strip raw) in
            if negb (str_truthy email)
            then (w, (AdminError 400 "Email requerido", None))
            else if negb (endswith email "@prodato.com.py")
            then (w, (AdminError 400 "Solo se permiten correos @prodato.com.py", None))
            else
              let '(w1, current) := get_whitelist wenv w in
              if existsb (fun u => String.eqb (entry_email u) email) current
              then (w1, (AdminError 400 "El usuario ya existe", None))
              else
                let '(w2, r) := add_to_whitelist lenv email w1 in
                if lw_success r
                then (w2, (AdminSuccess (lw_msg r), lw_request r))
                else (w2, (AdminError 500 (lw_msg r), lw_request r))
        | _ => (w, (AdminException, None))
        end
  end.

(** Notions used in the statements about the access list. The entry [e]
    stands for an item of [items] that has an address. *)
Definition listed (items : list WhitelistItem) (e : WhitelistEntry) : Prop :=
  exists item s,
    item ∈ items /\ wl_id item = Some (entry_id e) /\
    wl_correo item = Some (PStr s) /\ s <> "" /\ entry_email e = lower s.

(** The address that [authorized] compares *)
Definition login_email (claims : Claims) : string :=
  lower (default "" (preferred_username claims)).

(** Some item of [items] carries an address whose lower case is [email]. *)
Definition grants (items : list WhitelistItem) (email : string) : Prop :=
  exists item s,
    item ∈ items /\ wl_correo item = Some (PStr s) /\ s <> "" /\ lower s = email.

End AccessList.

(** An item that the loop of [get_whitelist] gets through: it has no address,
    or it has an id and an address that is a string. *)
Definition well_formed_item (item : WhitelistItem) : bool :=
  if py_truthy (default (PStr "") (wl_correo item)) then
    match wl_id item, wl_correo item with
    | Some _, Some (PStr _) => true
    | _, _ => false
    end
  else true.

(** A request that reaches the access check with the claims of a token. *)
Definition with_token (claims : Claims) : AuthRequest :=
  mkAuthRequest true false true (Some claims).

(** What the two methods do on text written in ASCII, for the runs of the
    examples: there [str.lower] changes the capital letters A to Z and
    [str.strip] removes, at both ends, the characters 9 to 13 and 28 to
    32. *)
Module AsciiText.

Definition lower_char (c : Ascii.ascii) : Ascii.ascii :=
  let n := Ascii.nat_of_ascii c in
  if (65 <=? n)%nat && (n <=? 90)%nat then Ascii.ascii_of_nat (n + 32) else c.

Fixpoint lower (s : string) : string :=
  match s with
  | EmptyString => EmptyString
  | String c s' => String (lower_char c) (lower s')
  end.

Definition isspace (c : Ascii.ascii) : bool :=
  let n := Ascii.nat_of_ascii c in
  ((9 <=? n)%nat && (n <=? 13)%nat) || ((28 <=? n)%nat && (n <=? 32)%nat).

Fixpoint lstrip (s : string) : string :=
  match s with
  | EmptyString => EmptyString
  | String c s' => if isspace c then lstrip s' else s
  end.

Definition strip (s : string) : string :=
  string_rev (lstrip (string_rev (lstrip s))).

End AsciiText.

(** * Serving the data: [get_data] (app.py) *)

(** What one request reads from outside: the clocks and the answers for the
    check of the versions, and those for the refresh. *)
Record DataEnv : Type := mkDataEnv {
  version_env : string -> SourceEnv;
  refresh_env : FetchEnv
}.

(** The answer: 401, or the frame whose records the answer lists (with the
    times as text and the missing values as empty strings) and the date
    shown with them. *)
Inductive DataResponse : Type :=
| DataUnauthorized401
| DataOk (data : DataFrame) (last_updated : string).

(** [source_arg] and [refresh_arg] are the arguments [source] and [refresh]
    of the query, [None] when absent. The handler catches nothing: an
    exception of [check_version] leaves it. *)
Definition get_data (render : Q -> string) (session : Session)
    (source_arg refresh_arg : option string) (env : DataEnv) : M DataResponse :=
  match session_user session with
  | None => ret DataUnauthorized401
  | Some _ =>
      let source := default "IPS" source_arg in
      let* _ := check_version (version_env env) in
      let* w := get_world in
      let df := default NoColumns (dfs w !! source) in
      let refresh := default "false" refresh_arg in
      let* df :=
        (if String.eqb refresh "true" || df_empty df
         then fetch_data (refresh_env env) source
         else ret df) in
      ret (DataOk df (get_formatted_date render df))
  end.

(** The last-change times of the two datasets are numbers. *)
Definition numeric_times (w : World) : Prop :=
  forall k, dataset_key k ->
    exists c, (last_change_times w !! k) ≫= num_of = Some c.

(** * The monitor after a change *)

(** The versions that the monitor has emitted last are numbers. *)
Definition numeric_emitted (mon : Monitor) : Prop :=
  forall k, dataset_key k ->
    exists l, (last_emitted_versions mon !! k) ≫= num_of = Some l.
(** * Results *)

(** ** Rational comparisons *)

Lemma Qlt_bool_true (a b : Q) : Qlt_bool a b = true <-> (a < b)%Q.
Proof.
  unfold Qlt_bool. rewrite negb_true_iff.
  destruct (Qle_bool b a) eqn:E.
  - apply Qle_bool_iff in E. split; [discriminate | intros H; exfalso; lra].
  - split; [intros _ | reflexivity].
    destruct (Qlt_le_dec a b) as [H | H]; [exact H |].
    apply Qle_bool_iff in H. congruence.
Qed.

Lemma Qlt_bool_false (a b : Q) : Qlt_bool a b = false <-> (b <= a)%Q.
Proof.
  destruct (Qlt_bool a b) eqn:E.
  - apply Qlt_bool_true in E. split; [discriminate | intros H; exfalso; lra].
  - split; [intros _ | reflexivity].
    destruct (Qlt_le_dec a b) as [H | H]; [| exact H].
    apply Qlt_bool_true in H. congruence.
Qed.

(** ** Results on the durable state *)

Lemma json_load_obj_to_list (d : gmap string Json) :
  json_load_obj (map_to_list d) = d.
Proof.
  unfold json_load_obj.
  rewrite <- (list_to_map_to_list d) at 2.
  apply list_to_map_proper.
  - rewrite reverse_Permutation. apply NoDup_fst_map_to_list.
  - apply reverse_Permutation.
Qed.

Lemma load_pairs_dump (kv : list (string * Json)) :
  load_pairs (dump_pairs kv ++ [CloseBrace]) = Some kv.
Proof.
  induction kv as [| [k v] kv IH]; [reflexivity |].
  cbn [dump_pairs app load_pairs]. rewrite IH. reflexivity.
Qed.

(** Loading the text of an object gives the object back. *)
Lemma json_load_object_text (kv : list (string * Json)) :
  json_load (object_text kv) = Some (JObj kv).
Proof. unfold object_text, json_load. rewrite load_pairs_dump. reflexivity. Qed.

Lemma load_pairs_prefix (kv : list (string * Json)) (n : nat) :
  (n < length (dump_pairs kv ++ [CloseBrace]))%nat ->
  load_pairs (take n (dump_pairs kv ++ [CloseBrace])) = None.
Proof.
  revert n. induction kv as [| [k v] kv IH]; intros n Hn.
  - destruct n as [| n]; [reflexivity | simpl in Hn; lia].
  - destruct n as [| [| n]]; [reflexivity | reflexivity |].
    cbn [dump_pairs app take load_pairs]. rewrite IH; [reflexivity |].
    simpl in Hn. lia.
Qed.

(** No strict prefix of the text of an object is a JSON document. *)
Lemma json_load_prefix (kv : list (string * Json)) (n : nat) :
  (n < length (object_text kv))%nat ->
  json_load (take n (object_text kv)) = None.
Proof.
  unfold object_text. intros Hn. destruct n as [| n]; [reflexivity |].
  cbn [take json_load]. rewrite load_pairs_prefix; [reflexivity |].
  simpl in Hn. lia.
Qed.

Lemma read_state_after_save (d : gmap string Json) (file : FileContent) :
  d !! "version" = None ->
  _read_state (_save_state WriteOk d file) = d ∪ default_state.
Proof.
  intros Hv. unfold _save_state, json_dump, _read_state.
  rewrite json_load_object_text. unfold contains_version, merge_defaults.
  rewrite json_load_obj_to_list, Hv.
  rewrite bool_decide_eq_false_2 by (intros [x Hx]; discriminate). reflexivity.
Qed.

Lemma default_state_lookup (k : string) :
  k = "IPS" \/ k = "MTESS" -> default_state !! k = Some (JNum 0).
Proof. intros [-> | ->]; reflexivity. Qed.

Lemma read_state_lookup (file : FileContent) (k : string) :
  k = "IPS" \/ k = "MTESS" ->
  _read_state file !! k = Some (JNum 0) \/
  (_read_state file !! k = file_key file k /\ is_Some (file_key file k)).
Proof.
  intros Hk. pose proof (default_state_lookup k Hk) as Hd.
  destruct file as [| text]; simpl; auto.
  destruct (json_load text) as [j |]; auto.
  destruct j; simpl; auto; try (destruct (existsb _ _); simpl; auto; fail);
    try (destruct (String.index 0 "version" s); simpl; auto; fail).
  destruct (bool_decide (is_Some (json_load_obj kv !! "version"))); auto.
  destruct (json_load_obj kv !! k) as [v |] eqn:E.
  - right. split; [| eauto]. apply lookup_union_Some_l. exact E.
  - left. rewrite lookup_union_r; auto.
Qed.

(** C6. Saving [{"IPS": 100.0, "MTESS": 50.0}] and reading it back gives the
    same mapping; a file that holds only [{"version": 7}] reads as the
    all-default mapping; and whatever the file is, a dataset key that the file
    does not give reads as [0]: the reader is a total function and has no
    error result. *)
Theorem durable_state_round_trip :
  (forall file : FileContent,
      let m : gmap string Json :=
        <["IPS" := JNum 100]> (<["MTESS" := JNum 50]> ∅) in
      _read_state (_save_state WriteOk m file) = m) /\
  _read_state (document [("version", JNum 7)]) = default_state /\
  default_state = <["IPS" := JNum 0]> (<["MTESS" := JNum 0]> ∅) /\
  (forall (file : FileContent) (k : string),
      k = "IPS" \/ k = "MTESS" ->
      file_key file k = None ->
      _read_state file !! k = Some (JNum 0)).
Proof.
  split; [| split; [| split]].
  - intros file m. rewrite read_state_after_save by reflexivity.
    apply map_eq. intros k. unfold m, default_state.
    destruct (decide (k = "IPS")) as [-> | H1]; [reflexivity |].
    destruct (decide (k = "MTESS")) as [-> | H2]; [reflexivity |].
    rewrite lookup_union_l; [reflexivity |].
    rewrite !lookup_insert_ne by congruence. apply lookup_empty.
  - reflexivity.
  - reflexivity.
  - intros file k Hk Hnone.
    destruct (read_state_lookup file k Hk) as [H | [_ [v Hv]]]; [exact H | congruence].
Qed.

Lemma durable_state_round_trip_witness :
  _read_state (document [("IPS", JNum 3)]) !! "MTESS" = Some (JNum 0).
Proof.
  apply (proj2 (proj2 (proj2 durable_state_round_trip))); [right | ]; reflexivity.
Defined.

(** C7, as the claim states it, fails: the file is opened with mode ['w'],
    which truncates it, before anything is written. With
    [{"IPS": 100, "MTESS": 50}] on disk, a write that fails right after the
    open, or after three chunks of the new text, leaves a file that is not
    the prior one and holds no JSON document, and the reader then gives [0]
    where [100] had been persisted. *)
Lemma save_state_not_atomic :
  let old := document [("IPS", JNum 100); ("MTESS", JNum 50)] in
  let new : gmap string Json := <["IPS" := JNum 200]> (<["MTESS" := JNum 50]> ∅) in
  _read_state old !! "IPS" = Some (JNum 100) /\
  _save_state (FailsAfter 0) new old = Text [] /\
  _save_state (FailsAfter 0) new old <> old /\
  _save_state (FailsAfter 3) new old <> old /\
  json_load (take 3 (json_dump new)) = None /\
  _read_state (_save_state (FailsAfter 0) new old) !! "IPS" = Some (JNum 0) /\
  _read_state (_save_state (FailsAfter 3) new old) !! "IPS" = Some (JNum 0).
Proof. vm_compute. repeat split; discriminate. Qed.

(** C7, amended. The writer has no result and no exception: a failure is
    caught inside it. A write that fails at [open] leaves the file as it was.
    A write that fails after [open], before the whole text has reached the
    file, leaves a strict prefix of the new text, which is no JSON document;
    the reader neither fails on it nor returns part of it: it returns the
    defaults. A write that gets the whole text out leaves the new document.
    So the file after a call is the prior file, or the complete new document,
    or a file that reads as [default_state]. *)
Theorem save_state_failure_modes (d : gmap string Json) (file : FileContent) :
  _save_state OpenFails d file = file /\
  (forall n, (n < length (json_dump d))%nat ->
             _save_state (FailsAfter n) d file = Text (take n (json_dump d)) /\
             json_load (take n (json_dump d)) = None /\
             _read_state (_save_state (FailsAfter n) d file) = default_state) /\
  (forall n, (length (json_dump d) <= n)%nat ->
             _save_state (FailsAfter n) d file = _save_state WriteOk d file) /\
  (_save_state WriteOk d file = Text (json_dump d) /\
   json_load (json_dump d) = Some (JObj (map_to_list d))) /\
  (forall io : WriteOutcome,
      _save_state io d file = file \/
      _save_state io d file = Text (json_dump d) \/
      _read_state (_save_state io d file) = default_state).
Proof.
  assert (forall n, (n < length (json_dump d))%nat ->
                    _read_state (_save_state (FailsAfter n) d file) = default_state)
    as Hpartial.
  { intros n Hn. unfold _save_state, _read_state, json_dump.
    rewrite json_load_prefix by exact Hn. reflexivity. }
  split; [reflexivity |]. split; [| split; [| split; [split |]]].
  - intros n Hn. split; [reflexivity |]. split; [| apply Hpartial; exact Hn].
    apply json_load_prefix. exact Hn.
  - intros n Hn. unfold _save_state. rewrite take_ge by exact Hn. reflexivity.
  - reflexivity.
  - apply json_load_object_text.
  - intros [| | n]; simpl; auto.
    destruct (Nat.lt_ge_cases n (length (json_dump d))) as [Hlt | Hge].
    + right. right. apply (Hpartial n Hlt).
    + right. left. rewrite take_ge by exact Hge. reflexivity.
Qed.

Lemma save_state_failure_modes_witness :
  _read_state (_save_state (FailsAfter 2) default_state Absent) = default_state.
Proof.
  refine (proj2 (proj2 (proj1 (proj2 (save_state_failure_modes default_state Absent))
                         2%nat _))).
  vm_compute. lia.
Defined.

(** ** Local edits: [update_status_by_ids] *)

Lemma loc_set_map (p : Row -> bool) (f h : Row -> Row) (rows : list Row) :
  loc_set (map p rows) f (map h rows) =
  map (fun r => if p r then f (h r) else h r) rows.
Proof.
  induction rows as [| r rows IH]; simpl; [reflexivity |].
  rewrite IH. reflexivity.
Qed.

Lemma loc_set_map_id (p : Row -> bool) (f : Row -> Row) (rows : list Row) :
  loc_set (map p rows) f rows = map (fun r => if p r then f r else r) rows.
Proof.
  rewrite <- (map_id rows) at 2. rewrite loc_set_map. reflexivity.
Qed.

Lemma existsb_mask (p : Row -> bool) (rows : list Row) :
  existsb id (map p rows) = existsb p rows.
Proof. induction rows as [| r rows IH]; simpl; [| rewrite IH]; reflexivity. Qed.

(** The three assignments through [.loc] amount to one pass that edits the
    selected rows. *)
Lemma edited_rows (env : EditEnv) (status modifier : PyVal) (p : Row -> bool)
    (rows : list Row) :
  let mask := map p rows in
  let rows1 := loc_set mask (set_REVISADO status) rows in
  let rows2 := loc_set mask (set_Modified (Some (edit_stamp env))) rows1 in
  (if py_truthy modifier
   then loc_set mask (set_ModificadoPor modifier) rows2
   else rows2) =
  map (fun r => if p r then edit_row env status modifier r else r) rows.
Proof.
  simpl. rewrite loc_set_map_id, loc_set_map. unfold edit_row.
  destruct (py_truthy modifier).
  - rewrite loc_set_map. apply map_ext. intros r. destruct (p r); reflexivity.
  - apply map_ext. intros r. destruct (p r); reflexivity.
Qed.

(** The edit when a row matches: the table, both timestamps and the file. *)
Lemma update_status_by_ids_match (env : EditEnv) (ids : list PyVal)
    (status modifier : PyVal) (source : string) (w : World) (rows : list Row) :
  dfs w !! source = Some (Table rows) ->
  existsb (isin (map py_str ids)) rows = true ->
  let w' := update_status_by_ids env ids status modifier source w in
  dfs w' =
    <[source := Table (map (fun r => if isin (map py_str ids) r
                                    then edit_row env status modifier r else r) rows)]>
      (dfs w) /\
  last_change_times w' = <[source := JNum (edit_time env)]> (last_change_times w) /\
  last_local_update_times w' = <[source := edit_time env]> (last_local_update_times w) /\
  version_json w' =
    _save_state (edit_io env) (<[source := JNum (edit_time env)]> (last_change_times w))
                (version_json w).
Proof.
  intros Hd Hm. unfold update_status_by_ids. rewrite Hd.
  rewrite existsb_mask, Hm. simpl negb. cbv iota.
  rewrite edited_rows. simpl. repeat split; reflexivity.
Qed.

(** The edit when no row matches, when the frame has no column, or when
    there is no such dataset: nothing changes. *)
Lemma update_status_by_ids_no_match (env : EditEnv) (ids : list PyVal)
    (status modifier : PyVal) (source : string) (w : World) :
  (forall rows, dfs w !! source = Some (Table rows) ->
                existsb (isin (map py_str ids)) rows = false) ->
  update_status_by_ids env ids status modifier source w = w.
Proof.
  intros H. unfold update_status_by_ids.
  destruct (dfs w !! source) as [[| rows] |] eqn:Hd; try reflexivity.
  rewrite existsb_mask, (H rows eq_refl). reflexivity.
Qed.

Lemma edit_rows_no_match (env : EditEnv) (ids : list PyVal) (status modifier : PyVal)
    (rows : list Row) :
  existsb (isin (map py_str ids)) rows = false ->
  edit_rows env ids status modifier rows = rows.
Proof.
  unfold edit_rows. induction rows as [| r rows IH]; [reflexivity |].
  cbn [existsb map]. intros H. apply orb_false_iff in H as [Hr Hrows].
  rewrite Hr, IH by exact Hrows. reflexivity.
Qed.

(** The table of the dataset after an edit, whether a row matched or not. *)
Lemma update_status_by_ids_table (env : EditEnv) (ids : list PyVal)
    (status modifier : PyVal) (source : string) (w : World) (rows : list Row) :
  dfs w !! source = Some (Table rows) ->
  dfs (update_status_by_ids env ids status modifier source w) !! source
  = Some (Table (edit_rows env ids status modifier rows)).
Proof.
  intros Hd. destruct (existsb (isin (map py_str ids)) rows) eqn:Hm.
  - destruct (update_status_by_ids_match env ids status modifier source w rows Hd Hm)
      as (E & _).
    rewrite E. apply lookup_insert_eq.
  - rewrite update_status_by_ids_no_match.
    + rewrite edit_rows_no_match by exact Hm. exact Hd.
    + intros rows' Hd'. assert (rows' = rows) as -> by congruence. exact Hm.
Qed.

Lemma ID_edit_row (env : EditEnv) (status modifier : PyVal) (r : Row) :
  ID (edit_row env status modifier r) = ID r.
Proof. unfold edit_row. destruct (py_truthy modifier); reflexivity. Qed.

(** A row of the table is, after the edit, at the same place: edited when
    the ids select it, as it was otherwise. *)
Lemma edit_rows_lookup (env : EditEnv) (ids : list PyVal) (status modifier : PyVal)
    (rows : list Row) (i : nat) (r : Row) :
  rows !! i = Some r ->
  edit_rows env ids status modifier rows !! i
  = Some (if isin (map py_str ids) r then edit_row env status modifier r else r).
Proof.
  intros H. unfold edit_rows.
  change (map ?f rows) with (f <$> rows). rewrite list_lookup_fmap, H. reflexivity.
Qed.

Lemma isin_edit_row (env : EditEnv) (status modifier : PyVal) (sids : list string)
    (r : Row) :
  isin sids (edit_row env status modifier r) = isin sids r.
Proof. unfold edit_row. destruct (py_truthy modifier); reflexivity. Qed.

Lemma REVISADO_edit_row (env : EditEnv) (status modifier : PyVal) (r : Row) :
  REVISADO (edit_row env status modifier r) = status.
Proof. unfold edit_row. destruct (py_truthy modifier); reflexivity. Qed.

(** After an edit, every row of the dataset that the ids select carries the
    new status. *)
Lemma update_status_by_ids_reflects (env : EditEnv) (ids : list PyVal)
    (status modifier : PyVal) (source : string) (w : World) (d : DataFrame) (r : Row) :
  dfs (update_status_by_ids env ids status modifier source w) !! source = Some d ->
  r ∈ df_rows d ->
  isin (map py_str ids) r = true ->
  REVISADO r = status.
Proof.
  intros Hd Hr Hin.
  destruct (dfs w !! source) as [[| rows] |] eqn:Hw.
  - rewrite update_status_by_ids_no_match in Hd by (intros; congruence).
    rewrite Hw in Hd. inversion Hd; subst. simpl in Hr. inversion Hr.
  - destruct (existsb (isin (map py_str ids)) rows) eqn:Hm.
    + destruct (update_status_by_ids_match env ids status modifier source w rows Hw Hm)
        as (Hdfs & _).
      rewrite Hdfs, lookup_insert_eq in Hd. inversion Hd; subst. simpl in Hr.
      apply list_elem_of_fmap in Hr as (r0 & -> & Hr0).
      destruct (isin (map py_str ids) r0) eqn:E.
      * apply REVISADO_edit_row.
      * congruence.
    + rewrite update_status_by_ids_no_match in Hd
        by (intros rows' Hrows'; rewrite Hw in Hrows'; inversion Hrows'; subst; exact Hm).
      rewrite Hw in Hd. inversion Hd; subst. simpl in Hr.
      apply list_elem_of_In in Hr.
      assert (existsb (isin (map py_str ids)) rows = true) as Ht
        by (apply existsb_exists; exists r; auto).
      congruence.
  - rewrite update_status_by_ids_no_match in Hd by (intros; congruence).
    congruence.
Qed.

(** ** Remote refresh: [fetch_data] *)

Ltac unfold_monad :=
  unfold subscript, except_empty_frame, bind, get_world, modify, ret, raise in *.

Lemma same_cache_refl (w : World) : same_cache w w.
Proof. repeat split. Qed.

Lemma same_cache_trans (w1 w2 w3 : World) :
  same_cache w1 w2 -> same_cache w2 w3 -> same_cache w1 w3.
Proof.
  intros (A1 & A2 & A3 & A4) (B1 & B2 & B3 & B4).
  repeat split; congruence.
Qed.

Lemma same_cache_authenticate (answer : option string) (w : World) :
  same_cache w (_authenticate answer w).
Proof. destruct answer; repeat split. Qed.

Lemma same_cache_get_site_id (answer : option string) (w : World) :
  same_cache w (_get_site_id answer w).
Proof.
  unfold _get_site_id.
  destruct (negb (str_truthy (access_token w))), answer; repeat split.
Qed.

Lemma same_cache_get_list_ids (answer : option (list (string * string))) (w : World) :
  same_cache w (_get_list_ids answer w).
Proof.
  unfold _get_list_ids.
  destruct (negb (str_truthy (access_token w)) || negb (opt_truthy (site_id w))), answer;
    repeat split.
Qed.

(** The world in which [fetch_data] reaches its [try] block or gives up. *)
Lemma same_cache_connect (env : FetchEnv) (w : World) :
  same_cache w
    (_get_list_ids (lists_answer env)
       (_get_site_id (site_answer env) (_authenticate (auth_answer env) w))).
Proof.
  eapply same_cache_trans; [apply same_cache_authenticate |].
  eapply same_cache_trans; [apply same_cache_get_site_id |].
  apply same_cache_get_list_ids.
Qed.

(** Inside the window of 5 seconds the [try] block changes nothing; it
    returns the cached table when it gets as far as the guard. *)
Lemma fetch_data_try_guarded (env : FetchEnv) (source : string) (w : World) (t0 : Q) :
  last_local_update_times w !! source = Some t0 ->
  (guard_time env - t0 < 5)%Q ->
  fetch_data_try env source w =
    (w, match items_answer env with
        | None => Raise OtherError
        | Some _ => match dfs w !! source with
                    | Some d => Ok d
                    | None => Raise KeyError
                    end
        end).
Proof.
  intros Ht Hlt. apply Qlt_bool_true in Hlt.
  unfold fetch_data_try. destruct (items_answer env); [| reflexivity].
  unfold_monad. rewrite Ht. cbn beta iota. rewrite Hlt.
  destruct (dfs w !! source); reflexivity.
Qed.

Lemma fetch_data_guarded_from (env : FetchEnv) (source : string) (w w0 : World) (t0 : Q) :
  same_cache w0 w ->
  last_local_update_times w0 !! source = Some t0 ->
  (guard_time env - t0 < 5)%Q ->
  same_cache w0 (fst (except_empty_frame (fetch_data_try env source) w)) /\
  (forall d, dfs w0 !! source = Some d -> is_Some (items_answer env) ->
             snd (except_empty_frame (fetch_data_try env source) w) = Ok d).
Proof.
  intros Hs Ht Hlt. pose proof Hs as (H1 & H2 & H3 & H4).
  unfold except_empty_frame.
  rewrite (fetch_data_try_guarded env source w t0) by (try rewrite H3; assumption).
  split.
  - destruct (items_answer env); [destruct (dfs w !! source) |]; exact Hs.
  - intros d Hd [rows Hrows]. rewrite Hrows, H1, Hd. reflexivity.
Qed.

(** [fetch_data] without the monad: the world [w1] after the connection is
    set up again if need be, the world [w2] after the lists are scanned
    again, and the [try] block run in the one where the list id is known. *)
Lemma fetch_data_unfold (env : FetchEnv) (source : string) (w : World) :
  fetch_data env source w =
    let w1 := if negb (str_truthy (access_token w)) || negb (opt_truthy (site_id w))
              then _get_list_ids (lists_answer env)
                     (_get_site_id (site_answer env) (_authenticate (auth_answer env) w))
              else w in
    if opt_truthy (list_ids w1 !! source)
    then except_empty_frame (fetch_data_try env source) w1
    else
      let w2 := _get_list_ids (rescan_answer env) w1 in
      if opt_truthy (list_ids w2 !! source)
      then except_empty_frame (fetch_data_try env source) w2
      else (w2, match dfs w2 !! source with
                | Some d => Ok d
                | None => Raise KeyError
                end).
Proof.
  unfold fetch_data. unfold subscript, bind, get_world, modify, ret, raise.
  destruct (negb (str_truthy (access_token w)) || negb (opt_truthy (site_id w)));
    cbn beta iota zeta;
    (match goal with
     | |- context [opt_truthy (list_ids ?w1 !! source)] =>
         destruct (opt_truthy (list_ids w1 !! source)); [reflexivity |]
     end);
    (match goal with
     | |- context [opt_truthy (list_ids ?w2 !! source)] =>
         destruct (opt_truthy (list_ids w2 !! source)); [reflexivity |]
     end);
    (match goal with
     | |- context [dfs ?w2 !! source] => destruct (dfs w2 !! source); reflexivity
     end).
Qed.

(** The guard of [fetch_data]: a call whose guard reads the clock less than 5
    seconds after the last local edit of the dataset leaves the cache as it
    is, and returns the cached table unless a request raised. *)
Lemma fetch_data_guarded (env : FetchEnv) (source : string) (w : World) (t0 : Q) :
  last_local_update_times w !! source = Some t0 ->
  (guard_time env - t0 < 5)%Q ->
  same_cache w (fst (fetch_data env source w)) /\
  (forall d, dfs w !! source = Some d -> is_Some (items_answer env) ->
             snd (fetch_data env source w) = Ok d).
Proof.
  intros Ht Hlt. rewrite fetch_data_unfold.
  set (w1 := if negb (str_truthy (access_token w)) || negb (opt_truthy (site_id w))
             then _get_list_ids (lists_answer env)
                    (_get_site_id (site_answer env) (_authenticate (auth_answer env) w))
             else w).
  assert (same_cache w w1) as Hs1.
  { unfold w1. destruct (_ || _); [apply same_cache_connect | apply same_cache_refl]. }
  cbn zeta.
  destruct (opt_truthy (list_ids w1 !! source)).
  - apply (fetch_data_guarded_from env source w1 w t0); assumption.
  - set (w2 := _get_list_ids (rescan_answer env) w1).
    assert (same_cache w w2) as Hs2.
    { eapply same_cache_trans; [exact Hs1 | apply same_cache_get_list_ids]. }
    destruct (opt_truthy (list_ids w2 !! source)).
    + apply (fetch_data_guarded_from env source w2 w t0); assumption.
    + pose proof Hs2 as (H1 & _). simpl. split; [exact Hs2 |].
      intros d Hd _. rewrite H1, Hd. reflexivity.
Qed.

(** C1. After [update_status_by_ids] returns, the table of the dataset is
    the table it was with every row that the ids select edited, at its
    place, and every other row as it was: each selected row carries the new
    status. An edit that matched a row stamps the dataset with its clock
    reading; and a [fetch_data] whose guard reads the clock less than 5
    seconds after that stamp changes neither the tables, nor the timestamps,
    nor the file, returns the cached table when it got as far as the guard,
    and so leaves the status of the edited rows as the edit set it. The same
    holds of the [try] block alone, which is what is left to run of a refresh
    that had started before the edit. *)
Theorem no_lost_edit (env : EditEnv) (ids : list PyVal) (status modifier : PyVal)
    (source : string) (w : World) (fenv : FetchEnv) (t0 : Q) :
  let w1 := update_status_by_ids env ids status modifier source w in
  let w2 := fst (fetch_data fenv source w1) in
  last_local_update_times w1 !! source = Some t0 ->
  (guard_time fenv - t0 < 5)%Q ->
  (forall rows, dfs w !! source = Some (Table rows) ->
     let edited := edit_rows env ids status modifier rows in
     dfs w1 !! source = Some (Table edited) /\
     dfs w2 !! source = Some (Table edited) /\
     (is_Some (items_answer fenv) ->
      snd (fetch_data fenv source w1) = Ok (Table edited)) /\
     length edited = length rows /\
     (forall i r, rows !! i = Some r ->
        (isin (map py_str ids) r = true ->
         exists r', edited !! i = Some r' /\ REVISADO r' = status /\ ID r' = ID r) /\
        (isin (map py_str ids) r = false -> edited !! i = Some r))) /\
  (forall d r, dfs w1 !! source = Some d -> r ∈ df_rows d ->
               isin (map py_str ids) r = true -> REVISADO r = status) /\
  (forall rows, dfs w !! source = Some (Table rows) ->
                existsb (isin (map py_str ids)) rows = true ->
                t0 = edit_time env) /\
  same_cache w1 w2 /\
  (forall d, dfs w1 !! source = Some d -> is_Some (items_answer fenv) ->
             snd (fetch_data fenv source w1) = Ok d) /\
  (forall d r, dfs w2 !! source = Some d -> r ∈ df_rows d ->
               isin (map py_str ids) r = true -> REVISADO r = status) /\
  fst (fetch_data_try fenv source w1) = w1.
Proof.
  intros w1 w2 Ht Hlt.
  assert (fst (fetch_data_try fenv source w1) = w1) as Htry
    by (rewrite (fetch_data_try_guarded fenv source w1 t0 Ht Hlt); reflexivity).
  destruct (fetch_data_guarded fenv source w1 t0 Ht Hlt) as [Hsame Hres].
  assert (forall d r, dfs w1 !! source = Some d -> r ∈ df_rows d ->
                      isin (map py_str ids) r = true -> REVISADO r = status) as Hrows.
  { intros d r. apply update_status_by_ids_reflects. }
  split.
  { intros rows Hd edited.
    pose proof (update_status_by_ids_table env ids status modifier source w rows Hd)
      as Htable.
    fold w1 in Htable. fold edited in Htable.
    split; [exact Htable |]. split.
    { destruct Hsame as (H1 & _). fold w2 in H1. rewrite H1. exact Htable. }
    split; [intros Hi; apply Hres; [exact Htable | exact Hi] |].
    split; [unfold edited, edit_rows; apply length_map |].
    intros i r Hi.
    pose proof (edit_rows_lookup env ids status modifier rows i r Hi) as Hl.
    fold edited in Hl. split; intros Hsel; rewrite Hsel in Hl.
    - exists (edit_row env status modifier r).
      split; [exact Hl |]. split; [apply REVISADO_edit_row | apply ID_edit_row].
    - exact Hl. }
  repeat split; try apply Hsame; try assumption.
  - intros rows Hd Hm.
    destruct (update_status_by_ids_match env ids status modifier source w rows Hd Hm)
      as (_ & _ & Hl & _).
    fold w1 in Hl. rewrite Hl, lookup_insert_eq in Ht. congruence.
  - intros d r Hd. apply Hrows. destruct Hsame as (H1 & _).
    fold w2 in H1. rewrite <- H1. exact Hd.
Qed.

Lemma no_lost_edit_witness :
  let w1 := update_status_by_ids Sample.edit [PStr "55"] (PStr "REVISADO")
              (PStr "Ana") "IPS" Sample.world in
  let w2 := fst (fetch_data (Sample.fetch 102) "IPS" w1) in
  dfs w2 !! "IPS"
  = Some (Table [edit_row Sample.edit (PStr "REVISADO") (PStr "Ana")
                   (Sample.row "55" "PENDIENTE")]) /\
  same_cache w1 w2.
Proof.
  intros w1 w2.
  pose proof (no_lost_edit Sample.edit [PStr "55"] (PStr "REVISADO") (PStr "Ana")
                "IPS" Sample.world (Sample.fetch 102) 100) as H.
  cbv zeta in H.
  assert (last_local_update_times w1 !! "IPS" = Some 100%Q) as Ht
    by (vm_compute; reflexivity).
  assert (guard_time (Sample.fetch 102) - 100 < 5)%Q as Hg
    by (vm_compute; reflexivity).
  destruct (H Ht Hg) as (Hrows & _ & _ & Hsame & _).
  split; [| exact Hsame].
  exact (proj1 (proj2 (Hrows [Sample.row "55" "PENDIENTE"] eq_refl))).
Defined.

(** The scenario of the specification: row "55" is marked by Ana at time 100;
    a refresh that lands at 102 with the stale row is discarded, one that
    lands at 106 replaces the table. *)
Example stale_refresh_discarded :
  let w1 := update_status_by_ids Sample.edit [PStr "55"] (PStr "REVISADO")
              (PStr "Ana") "IPS" Sample.world in
  REVISADO <$> df_rows (default NoColumns (dfs w1 !! "IPS")) = [PStr "REVISADO"] /\
  REVISADO <$> df_rows (default NoColumns
                          (dfs (fst (fetch_data (Sample.fetch 102) "IPS" w1)) !! "IPS"))
    = [PStr "REVISADO"] /\
  REVISADO <$> df_rows (default NoColumns
                          (dfs (fst (fetch_data (Sample.fetch 106) "IPS" w1)) !! "IPS"))
    = [PStr "PENDIENTE"].
Proof. vm_compute. repeat split. Qed.

(** ** Edits that match no row *)

Lemma update_status_unfold (get_formatted_date : DataFrame -> string)
    (session : Session) (data : UpdateBody) (env : EditEnv) (w : World)
    (claims : Claims) (ids : list PyVal) (source : string) :
  session_user session = Some claims ->
  body_ids data = Some ids ->
  body_source data = Some source ->
  ids <> [] ->
  let status := default (PStr "REVISADO") (body_status data) in
  let modifier_name := PStr (default "Usuario" (claim_name claims)) in
  let w1 := update_status_by_ids env ids status modifier_name source w in
  let job := mkPatchJob ids status modifier_name source in
  update_status get_formatted_date session data env w =
    (w1, match dfs w1 !! source with
         | None => mkHandled ServerError500 (Some job) false
         | Some d => mkHandled (Success200 (length ids) (get_formatted_date d))
                               (Some job) true
         end).
Proof.
  intros Hu Hi Hs Hne. unfold update_status. rewrite Hu, Hi, Hs. simpl.
  destruct ids as [| x ids]; [congruence |].
  destruct (dfs _ !! source); reflexivity.
Qed.

(** C4, as the claim states it, fails in its last part: the handler of
    [POST /api/update] answers with [len(ids)], the number of ids it was
    sent, not with the number of rows that matched. With one id that matches
    no row the count is 1. *)
Lemma zero_match_count_is_not_zero :
  let data := mkUpdateBody (Some [PStr "doesnotexist"]) None None in
  existsb (isin (map py_str [PStr "doesnotexist"]))
          (df_rows (default NoColumns (dfs Sample.world !! "IPS"))) = false /\
  response (snd (update_status Sample.date Sample.session data Sample.edit Sample.world))
    = Success200 1 "Desconocido" /\
  ~ (exists s, response (snd (update_status Sample.date Sample.session data
                                Sample.edit Sample.world)) = Success200 0 s).
Proof.
  vm_compute. repeat split. intros [s H]. discriminate.
Qed.

(** C4, amended. An edit whose ids match no row of the cached table (or whose
    dataset has a frame without columns, or does not exist) returns without
    an exception and leaves the whole world as it was: the table, the
    last-change and last-local-edit timestamps and the file [version.json].
    The handler of [POST /api/update] leaves it so too; called by a signed-in
    user with at least one id, for a dataset that is cached, it answers with
    success, and its count is the number of ids in the request, which is not
    zero; whenever it answers with success, the count is that number. *)
Theorem zero_match_edit_is_noop (get_formatted_date : DataFrame -> string)
    (env : EditEnv) (ids : list PyVal) (status modifier : PyVal)
    (source : string) (w : World) :
  (forall rows, dfs w !! source = Some (Table rows) ->
                existsb (isin (map py_str ids)) rows = false) ->
  update_status_by_ids env ids status modifier source w = w /\
  (forall (session : Session) (data : UpdateBody),
      body_ids data = Some ids ->
      body_source data = Some source ->
      fst (update_status get_formatted_date session data env w) = w /\
      (forall claims d,
          session_user session = Some claims -> ids <> [] ->
          dfs w !! source = Some d ->
          response (snd (update_status get_formatted_date session data env w))
            = Success200 (length ids) (get_formatted_date d) /\
          (0 < length ids)%nat) /\
      (forall n s,
          response (snd (update_status get_formatted_date session data env w))
            = Success200 n s ->
          n = length ids /\ (0 < n)%nat)).
Proof.
  intros Hno. split; [apply update_status_by_ids_no_match; exact Hno |].
  intros session data Hi Hs.
  destruct (session_user session) as [claims |] eqn:Hu.
  2: { unfold update_status. rewrite Hu. simpl. split; [reflexivity |].
       split; [intros claims d H; discriminate | intros n s H; discriminate]. }
  destruct ids as [| x ids'] eqn:Hids.
  { unfold update_status. rewrite Hu, Hi. simpl. split; [reflexivity |].
    split; [intros claims' d _ H; congruence | intros n s H; discriminate]. }
  rewrite (update_status_unfold get_formatted_date session data env w claims
             (x :: ids') source Hu Hi Hs) by discriminate.
  rewrite update_status_by_ids_no_match by exact Hno.
  simpl fst. split; [reflexivity |]. split.
  - intros claims' d _ _ Hd. simpl snd. rewrite Hd. simpl.
    split; [reflexivity | lia].
  - intros n s. simpl snd. destruct (dfs w !! source); simpl; intros H; inversion H.
    split; [reflexivity | simpl; lia].
Qed.

Lemma zero_match_edit_is_noop_witness :
  update_status_by_ids Sample.edit [PStr "doesnotexist"] (PStr "REVISADO")
    (PStr "Ana") "IPS" Sample.world = Sample.world /\
  response (snd (update_status Sample.date Sample.session
                   (mkUpdateBody (Some [PStr "doesnotexist"]) None (Some "IPS"))
                   Sample.edit Sample.world))
  = Success200 1 "Desconocido".
Proof.
  assert (forall rows, dfs Sample.world !! "IPS" = Some (Table rows) ->
            existsb (isin (map py_str [PStr "doesnotexist"])) rows = false) as Hno.
  { intros rows H. vm_compute in H. inversion H. reflexivity. }
  pose proof (zero_match_edit_is_noop Sample.date Sample.edit
                [PStr "doesnotexist"] (PStr "REVISADO") (PStr "Ana") "IPS"
                Sample.world Hno) as [Hsame Hhandler].
  split; [exact Hsame |].
  destruct (Hhandler Sample.session
              (mkUpdateBody (Some [PStr "doesnotexist"]) None (Some "IPS"))
              eq_refl eq_refl) as (_ & Hok & _).
  refine (proj1 (Hok (mkClaims (Some "Ana") (Some "ana@prodato.com.py"))
                   (Table [Sample.row "55" "PENDIENTE"]) eq_refl _ _)).
  - discriminate.
  - vm_compute. reflexivity.
Defined.

(** ** Ids as strings *)

(** An edit depends on its ids only through their [str]. *)
Lemma update_status_by_ids_str (env : EditEnv) (ids ids' : list PyVal)
    (status modifier : PyVal) (source : string) (w : World) :
  map py_str ids = map py_str ids' ->
  update_status_by_ids env ids status modifier source w =
  update_status_by_ids env ids' status modifier source w.
Proof. intros H. unfold update_status_by_ids. rewrite H. reflexivity. Qed.

Lemma isin_123 (r : Row) :
  isin ["123"] r = String.eqb (py_str (ID r)) "123".
Proof.
  unfold isin. destruct (String.eqb_spec (py_str (ID r)) "123") as [E | N].
  - apply bool_decide_eq_true_2. rewrite E. left.
  - apply bool_decide_eq_false_2. intros H.
    apply list_elem_of_singleton in H. contradiction.
Qed.

(** C5. An edit with the integer id [123] and an edit with the string id
    ["123"] leave the same world, whatever the cached table is: each of them
    edits exactly the rows whose identifier, as a string, is ["123"], and
    leaves every other row as it was. A row whose identifier is the string
    ["123"] is therefore selected and given the new status by both. More
    generally the ids are compared through [str]. *)
Theorem string_numeric_id_equivalence (env : EditEnv) (status modifier : PyVal)
    (source : string) (w : World) :
  update_status_by_ids env [PInt 123] status modifier source w =
  update_status_by_ids env [PStr "123"] status modifier source w /\
  (forall (ids : list PyVal) (rows : list Row),
      ids = [PInt 123] \/ ids = [PStr "123"] ->
      dfs w !! source = Some (Table rows) ->
      dfs (update_status_by_ids env ids status modifier source w) !! source
      = Some (Table (map (fun r => if String.eqb (py_str (ID r)) "123"
                                   then edit_row env status modifier r else r)
                         rows)) /\
      (forall i r, rows !! i = Some r -> ID r = PStr "123" ->
         exists d r',
           dfs (update_status_by_ids env ids status modifier source w) !! source
             = Some d /\
           df_rows d !! i = Some r' /\
           r' = edit_row env status modifier r /\
           REVISADO r' = status /\ ID r' = PStr "123")) /\
  (forall rows : list Row,
      map (isin (map py_str [PInt 123])) rows =
      map (isin (map py_str [PStr "123"])) rows) /\
  (forall r : Row,
      ID r = PStr "123" ->
      isin (map py_str [PInt 123]) r = true /\
      isin (map py_str [PStr "123"]) r = true) /\
  (forall ids ids' : list PyVal,
      map py_str ids = map py_str ids' ->
      update_status_by_ids env ids status modifier source w =
      update_status_by_ids env ids' status modifier source w).
Proof.
  split; [apply update_status_by_ids_str; reflexivity |].
  split.
  { intros ids rows Hids Hd.
    assert (map py_str ids = ["123"]) as Hstr by (destruct Hids as [-> | ->]; reflexivity).
    pose proof (update_status_by_ids_table env ids status modifier source w rows Hd)
      as Htable.
    assert (edit_rows env ids status modifier rows =
            map (fun r => if String.eqb (py_str (ID r)) "123"
                          then edit_row env status modifier r else r) rows) as Heq.
    { unfold edit_rows. rewrite Hstr. apply map_ext. intros r.
      rewrite isin_123. reflexivity. }
    split; [rewrite Htable, Heq; reflexivity |].
    intros i r Hi Hr.
    exists (Table (edit_rows env ids status modifier rows)),
           (edit_row env status modifier r).
    split; [exact Htable |]. cbn [df_rows].
    rewrite (edit_rows_lookup env ids status modifier rows i r Hi), Hstr, isin_123, Hr.
    cbn [py_str]. rewrite String.eqb_refl.
    split; [reflexivity |]. split; [reflexivity |].
    split; [apply REVISADO_edit_row | rewrite ID_edit_row; exact Hr]. }
  split; [reflexivity |].
  split; [| intros ids ids'; apply update_status_by_ids_str].
  intros r Hr. unfold isin. rewrite Hr. split; reflexivity.
Qed.

Lemma string_numeric_id_equivalence_witness :
  let w := set_dfs (<["IPS" := Table [Sample.row "123" "PENDIENTE";
                                      Sample.row "55" "PENDIENTE"]]>
                      (dfs Sample.world)) Sample.world in
  dfs (update_status_by_ids Sample.edit [PInt 123] (PStr "REVISADO") (PStr "Ana")
         "IPS" w) !! "IPS"
  = Some (Table [edit_row Sample.edit (PStr "REVISADO") (PStr "Ana")
                   (Sample.row "123" "PENDIENTE");
                 Sample.row "55" "PENDIENTE"]) /\
  isin (map py_str [PInt 123]) (Sample.row "123" "PENDIENTE") = true /\
  isin (map py_str [PStr "123"]) (Sample.row "123" "PENDIENTE") = true.
Proof.
  intros w.
  pose proof (string_numeric_id_equivalence Sample.edit (PStr "REVISADO") (PStr "Ana")
                "IPS" w) as (_ & Hedit & _ & Hsel & _).
  split.
  - exact (proj1 (Hedit [PInt 123%Z]
                    [Sample.row "123" "PENDIENTE"; Sample.row "55" "PENDIENTE"]
                    (or_introl eq_refl) eq_refl)).
  - apply Hsel. reflexivity.
Defined.

(** ** What a refresh can change *)

(** The [try] block either leaves the world as it is, or replaces the table
    of the source, stamps its last change and writes the file. *)
Lemma fetch_data_try_world (env : FetchEnv) (source : string) (w : World) :
  fst (fetch_data_try env source w) = w \/
  exists clean_data,
    items_answer env = Some clean_data /\
    fst (fetch_data_try env source w) =
      let w1 := set_dfs (<[source := Table (number_rows 1 clean_data)]> (dfs w)) w in
      let w2 := set_last_change_times
                  (<[source := JNum (store_time env)]> (last_change_times w1)) w1 in
      set_version_json
        (_save_state (fetch_io env) (last_change_times w2) (version_json w2)) w2.
Proof.
  unfold fetch_data_try. destruct (items_answer env) as [clean |]; [| left; reflexivity].
  unfold_monad.
  destruct (last_local_update_times w !! source) as [t |]; [| left; reflexivity].
  cbn beta iota.
  destruct (Qlt_bool (guard_time env - t) 5).
  - left. destruct (dfs w !! source); reflexivity.
  - right. exists clean. split; [reflexivity |].
    cbn beta iota zeta.
    match goal with |- context [match ?x with Some _ => _ | None => _ end] =>
      destruct x end; reflexivity.
Qed.

Lemma refresh_frame_same_cache (source : string) (w w' : World) :
  same_cache w w' -> df w' = df w -> refresh_frame source w w'.
Proof.
  intros (H1 & H2 & H3 & H4) H5. unfold refresh_frame.
  rewrite H1, H2, H3, H5. repeat split; auto.
Qed.

Lemma refresh_frame_trans (source : string) (w1 w2 w3 : World) :
  refresh_frame source w1 w2 -> refresh_frame source w2 w3 ->
  refresh_frame source w1 w3.
Proof.
  intros (A1 & A2 & A3 & A4) (B1 & B2 & B3 & B4).
  split; [congruence |]. split; [congruence |]. split.
  - intros k H. destruct (A3 k H) as [E E'], (B3 k H) as [F F'].
    split; congruence.
  - auto.
Qed.

Lemma df_authenticate (answer : option string) (w : World) :
  df (_authenticate answer w) = df w.
Proof. destruct answer; reflexivity. Qed.

Lemma df_get_site_id (answer : option string) (w : World) :
  df (_get_site_id answer w) = df w.
Proof.
  unfold _get_site_id. destruct (negb (str_truthy (access_token w))), answer; reflexivity.
Qed.

Lemma df_get_list_ids (answer : option (list (string * string))) (w : World) :
  df (_get_list_ids answer w) = df w.
Proof.
  unfold _get_list_ids.
  destruct (negb (str_truthy (access_token w)) || negb (opt_truthy (site_id w))), answer;
    reflexivity.
Qed.

Lemma refresh_frame_try (env : FetchEnv) (source : string) (w : World) :
  refresh_frame source w (fst (except_empty_frame (fetch_data_try env source) w)).
Proof.
  assert (fst (except_empty_frame (fetch_data_try env source) w)
          = fst (fetch_data_try env source w)) as ->.
  { unfold except_empty_frame. destruct (fetch_data_try env source w) as [w' [d | e]];
      reflexivity. }
  destruct (fetch_data_try_world env source w) as [-> | (clean & _ & ->)].
  - apply refresh_frame_same_cache; [apply same_cache_refl | reflexivity].
  - cbn zeta. unfold refresh_frame. simpl.
    split; [reflexivity |]. split; [reflexivity |]. split.
    + intros k Hk. split; apply lookup_insert_ne; congruence.
    + intros k Hk. destruct (decide (source = k)) as [-> | Hne].
      * rewrite lookup_insert_eq. eauto.
      * rewrite lookup_insert_ne by exact Hne. exact Hk.
Qed.

Lemma refresh_frame_fetch_data (env : FetchEnv) (source : string) (w : World) :
  refresh_frame source w (fst (fetch_data env source w)).
Proof.
  rewrite fetch_data_unfold.
  set (w1 := if negb (str_truthy (access_token w)) || negb (opt_truthy (site_id w))
             then _get_list_ids (lists_answer env)
                    (_get_site_id (site_answer env) (_authenticate (auth_answer env) w))
             else w).
  assert (refresh_frame source w w1) as H1.
  { unfold w1. destruct (_ || _).
    - apply refresh_frame_same_cache; [apply same_cache_connect |].
      rewrite df_get_list_ids, df_get_site_id, df_authenticate. reflexivity.
    - apply refresh_frame_same_cache; [apply same_cache_refl | reflexivity]. }
  cbn zeta. destruct (opt_truthy (list_ids w1 !! source)).
  - eapply refresh_frame_trans; [exact H1 | apply refresh_frame_try].
  - set (w2 := _get_list_ids (rescan_answer env) w1).
    assert (refresh_frame source w w2) as H2.
    { eapply refresh_frame_trans; [exact H1 |].
      apply refresh_frame_same_cache; [apply same_cache_get_list_ids | apply df_get_list_ids]. }
    destruct (opt_truthy (list_ids w2 !! source)).
    + eapply refresh_frame_trans; [exact H2 | apply refresh_frame_try].
    + exact H2.
Qed.

(** For a dataset that [dfs] has, [fetch_data] returns a frame. *)
Lemma fetch_data_returns (env : FetchEnv) (source : string) (w : World) :
  is_Some (dfs w !! source) ->
  exists d, snd (fetch_data env source w) = Ok d.
Proof.
  intros Hd. rewrite fetch_data_unfold.
  set (w1 := if negb (str_truthy (access_token w)) || negb (opt_truthy (site_id w))
             then _get_list_ids (lists_answer env)
                    (_get_site_id (site_answer env) (_authenticate (auth_answer env) w))
             else w).
  assert (dfs w1 = dfs w) as H1.
  { unfold w1. destruct (_ || _); [apply same_cache_connect | reflexivity]. }
  assert (forall w', exists d, snd (except_empty_frame (fetch_data_try env source) w') = Ok d)
    as Htry.
  { intros w'. unfold except_empty_frame.
    destruct (fetch_data_try env source w') as [w'' [d | e]]; eauto. }
  cbn zeta. destruct (opt_truthy (list_ids w1 !! source)); [apply Htry |].
  destruct (opt_truthy (list_ids (_get_list_ids (rescan_answer env) w1) !! source));
    [apply Htry |].
  simpl. destruct (same_cache_get_list_ids (rescan_answer env) w1) as (H2 & _).
  rewrite H2, H1. destruct Hd as [d ->]. eauto.
Qed.

(** ** The refresh condition of [check_version] *)

Lemma as_number_num_of (A : Type) (j : Json) (k : Q -> M A) (q : Q) :
  num_of j = Some q -> as_number j k = k q.
Proof.
  intros H. unfold as_number. rewrite H. reflexivity.
Qed.

Lemma refresh_due_spec (t last_local memory file : Q) :
  refresh_due t last_local memory file = true <->
  (5 <= t - last_local)%Q /\ (memory + 0.1 < file)%Q.
Proof.
  unfold refresh_due. rewrite andb_true_iff, negb_true_iff.
  rewrite Qlt_bool_false, Qlt_bool_true. reflexivity.
Qed.

(** One iteration of the loop, for a source whose timestamps are numbers. *)
Lemma check_source_numeric (env : SourceEnv) (file_versions : gmap string Json)
    (source : string) (updated : list string) (w : World) (tl c f : Q) :
  is_Some (dfs w !! source) ->
  last_local_update_times w !! source = Some tl ->
  (last_change_times w !! source) ≫= num_of = Some c ->
  (file_versions !! source) ≫= num_of = Some f ->
  check_source env file_versions source updated w =
    if refresh_due (grace_time env) tl c f
    then (fst (fetch_data (fetch_env env) source w), Ok (updated ++ [source])%list)
    else (w, Ok updated).
Proof.
  intros Hd Hl Hc Hf. unfold check_source, refresh_due.
  unfold bind at 1 2, get_world at 1, subscript at 1. rewrite Hl.
  unfold ret at 1. cbn beta iota.
  destruct (Qlt_bool (grace_time env - tl) 5); [reflexivity |].
  unfold bind at 1 2, subscript.
  destruct (file_versions !! source) as [jf |]; [| discriminate].
  destruct (last_change_times w !! source) as [jc |]; [| discriminate].
  simpl in Hc, Hf. unfold ret at 1 2. cbn beta iota.
  rewrite (as_number_num_of _ jc _ c Hc), (as_number_num_of _ jf _ f Hf).
  simpl negb. rewrite andb_true_l.
  destruct (Qlt_bool (c + 0.1) f); [| reflexivity].
  unfold bind. destruct (fetch_data_returns (fetch_env env) source w Hd) as [d Hr].
  destruct (fetch_data (fetch_env env) source w) as [w' r]. simpl in Hr. subst r.
  reflexivity.
Qed.

(** C2, as the claim states it, fails: a dataset that was edited locally less
    than 5 seconds before the tick is skipped before the two timestamps are
    compared. Here the persisted value 200 exceeds the cached value 100 by
    far, the tick comes 2 seconds after the edit, and no refresh is made. *)
Lemma refresh_skipped_in_grace_period :
  let w := set_version_json (document [("IPS", JNum 200); ("MTESS", JNum 50)])
             (update_status_by_ids Sample.edit [PStr "55"] (PStr "REVISADO")
                (PStr "Ana") "IPS" Sample.world) in
  let env := fun _ : string => mkSourceEnv 102 (Sample.fetch 102) in
  _read_state (version_json w) !! "IPS" = Some (JNum 200) /\
  last_change_times w !! "IPS" = Some (JNum 100) /\
  (100 + 0.1 < 200)%Q /\
  check_version env w = (w, Ok (last_change_times w, [])).
Proof.
  vm_compute. repeat split.
Qed.

(** C2, amended. On a tick, for each dataset in turn, [check_version] calls
    [fetch_data] exactly when at least 5 seconds have passed since the last
    local edit of the dataset and the persisted timestamp exceeds the cached
    one by more than 0.1; otherwise it leaves the dataset alone. The sources
    it returns as updated are those it fetched. The timestamps are taken to
    be numbers. *)
Theorem check_version_refresh_condition (env : string -> SourceEnv) (w : World)
    (lI cI fI lM cM fM : Q) :
  source_state w "IPS" lI cI fI ->
  source_state w "MTESS" lM cM fM ->
  let dueI := refresh_due (grace_time (env "IPS")) lI cI fI in
  let dueM := refresh_due (grace_time (env "MTESS")) lM cM fM in
  let w1 := if dueI then fst (fetch_data (fetch_env (env "IPS")) "IPS" w) else w in
  let w2 := if dueM then fst (fetch_data (fetch_env (env "MTESS")) "MTESS" w1) else w1 in
  check_version env w =
    (w2, Ok (last_change_times w2,
             ((if dueI then ["IPS"] else []) ++ (if dueM then ["MTESS"] else []))%list)) /\
  (dueI = true <->
   (5 <= grace_time (env "IPS") - lI)%Q /\ (cI + 0.1 < fI)%Q) /\
  (dueM = true <->
   (5 <= grace_time (env "MTESS") - lM)%Q /\ (cM + 0.1 < fM)%Q).
Proof.
  intros (HdI & HlI & HcI & HfI) (HdM & HlM & HcM & HfM) dueI dueM w1 w2.
  split; [| split; apply refresh_due_spec].
  assert (refresh_frame "IPS" w w1) as Hfr.
  { unfold w1. destruct dueI.
    - apply refresh_frame_fetch_data.
    - apply refresh_frame_same_cache; [apply same_cache_refl | reflexivity]. }
  destruct Hfr as (Hl1 & _ & Hother & Hkeys).
  destruct (Hother "MTESS") as [_ Hc1]; [discriminate |].
  unfold check_version. unfold bind at 1 2, get_world at 1.
  rewrite (check_source_numeric (env "IPS") _ "IPS" [] w lI cI fI HdI HlI HcI HfI).
  fold dueI.
  assert ((if dueI
           then (fst (fetch_data (fetch_env (env "IPS")) "IPS" w), Ok ([] ++ ["IPS"])%list)
           else (w, Ok []))
          = (w1, Ok (if dueI then ["IPS"] else []))) as ->.
  { unfold w1. destruct dueI; reflexivity. }
  unfold bind at 1.
  rewrite (check_source_numeric (env "MTESS") _ "MTESS" _ w1 lM cM fM);
    [| apply Hkeys; exact HdM | rewrite Hl1; exact HlM | rewrite Hc1; exact HcM | exact HfM].
  fold dueM. unfold w2. destruct dueM; unfold_monad; rewrite ?app_nil_r; reflexivity.
Qed.

Lemma check_version_refresh_condition_witness :
  exists w2, check_version (Sample.tick 1000) Sample.world_behind
             = (w2, Ok (last_change_times w2, ["IPS"])).
Proof.
  assert (source_state Sample.world_behind "IPS" 0 50 200) as H1.
  { repeat split; try (vm_compute; reflexivity). eexists. vm_compute. reflexivity. }
  assert (source_state Sample.world_behind "MTESS" 0 50 50) as H2.
  { repeat split; try (vm_compute; reflexivity). eexists. vm_compute. reflexivity. }
  destruct (check_version_refresh_condition (Sample.tick 1000) Sample.world_behind
              0 50 200 0 50 50 H1 H2) as [H _].
  eexists. exact H.
Defined.

(** ** The monitor *)

Lemma check_version_times (env : string -> SourceEnv) (w w' : World)
    (current_times : gmap string Json) (updated : list string) :
  check_version env w = (w', Ok (current_times, updated)) ->
  current_times = last_change_times w'.
Proof.
  unfold check_version. unfold bind at 1 2, get_world at 1.
  destruct (check_source (env "IPS") _ "IPS" [] w) as [w1 [u1 | e1]]; [| discriminate].
  unfold bind at 1.
  destruct (check_source (env "MTESS") _ "MTESS" u1 w1) as [w2 [u2 | e2]]; [| discriminate].
  unfold_monad. intros H. inversion H. reflexivity.
Qed.

Lemma count_updates_nil (s : string) : count_updates s [] = O.
Proof. reflexivity. Qed.

Lemma count_updates_cons (s : string) (u : ServerUpdate) (l : list ServerUpdate) :
  count_updates s (u :: l) =
  ((if String.eqb (update_source u) s then 1 else 0) + count_updates s l)%nat.
Proof.
  unfold count_updates. cbn [List.filter].
  destruct (String.eqb (update_source u) s); reflexivity.
Qed.

Ltac count_updates_simpl :=
  repeat (rewrite count_updates_cons || rewrite count_updates_nil);
  cbn [update_source].

Section Monitor.

(** The rendering of the newest [Modified] of a frame as a date in words,
    [get_formatted_date] of app.py: any function will do. *)
Variable get_formatted_date : DataFrame -> string.

Lemma emit_source_emits (w : World)
    (current_times : gmap string Json) (k : string) (mon : Monitor) :
  emits_for current_times mon
            (fst (emit_source get_formatted_date w current_times k mon)) k.
Proof.
  unfold emit_source.
  destruct (current_times !! k) as [current |] eqn:Hc; [| left; reflexivity].
  destruct (last_emitted_versions mon !! k) as [last |] eqn:Hl; [| left; reflexivity].
  destruct (num_of last) as [l |] eqn:Hnl; [| left; reflexivity].
  destruct (num_of current) as [c |] eqn:Hnc; [| left; reflexivity].
  destruct (Qlt_bool (l + 0.001) c) eqn:Hlt; [| left; reflexivity].
  destruct (dfs w !! k) as [d |]; [| left; reflexivity].
  right. exists current, l, c, (get_formatted_date d).
  rewrite Hl. simpl. apply Qlt_bool_true in Hlt. auto.
Qed.

(** One iteration of the monitor is a pass over IPS followed by a pass over
    MTESS, each against the last-change times the manager has after
    [check_version]; an iteration cut short by an exception makes the passes
    it skips idle. *)
Lemma monitor_tick_emits
    (env : string -> SourceEnv) (w : World) (mon : Monitor) :
  let r := monitor_tick get_formatted_date env w mon in
  exists mon1,
    emits_for (last_change_times (fst (fst r))) mon mon1 "IPS" /\
    emits_for (last_change_times (fst (fst r))) mon1 (snd (fst r)) "MTESS".
Proof.
  unfold monitor_tick.
  destruct (check_version env w) as [w' [[ct u] | e]] eqn:Hcv.
  2: { simpl. exists mon. split; left; reflexivity. }
  apply check_version_times in Hcv. subst ct.
  pose proof (emit_source_emits w' (last_change_times w') "IPS" mon) as HI.
  destruct (emit_source get_formatted_date w' (last_change_times w') "IPS" mon)
    as [mon1 [e1 |]].
  { simpl in *. exists mon1. split; [exact HI | left; reflexivity]. }
  pose proof (emit_source_emits w' (last_change_times w') "MTESS" mon1)
    as HM.
  destruct (emit_source get_formatted_date w' (last_change_times w') "MTESS" mon1)
    as [mon2 [e2 |]]; simpl in *; exists mon1; split; assumption.
Qed.

Lemma not_exceeding_itself (j : Json) (l c : Q) :
  num_of j = Some l -> num_of j = Some c -> ~ (l + 0.001 < c)%Q.
Proof. intros H1 H2 H. rewrite H1 in H2. inversion H2; subst. lra. Qed.

(** What the two passes of an iteration add up to. *)
Lemma emits_summary (ct : gmap string Json) (mon mon1 mon' : Monitor) :
  emits_for ct mon mon1 "IPS" ->
  emits_for ct mon1 mon' "MTESS" ->
  exists ev : list ServerUpdate,
    emitted mon' = (emitted mon ++ ev)%list /\
    (forall s, count_updates s ev <= 1)%nat /\
    (forall s, last_emitted_versions mon !! s = ct !! s -> count_updates s ev = O) /\
    (forall s, count_updates s ev <> O -> last_emitted_versions mon' !! s = ct !! s) /\
    (forall u, u ∈ ev -> justified ct mon mon' u).
Proof.
  intros [-> | (cI & lI & nI & dI & HcI & HlI & HnI & HltI & ->)]
         [-> | (cM & lM & nM & dM & HcM & HlM & HnM & HltM & ->)].
  - exists []. rewrite app_nil_r. split; [reflexivity |].
    split; [intros s; count_updates_simpl; lia |]. split; [reflexivity |].
    split; [intros s H; contradiction | intros u Hu; inversion Hu].
  - exists [mkServerUpdate "MTESS" cM dM]. split; [reflexivity |].
    split; [| split; [| split]]; [intros s; count_updates_simpl .. |].
    + destruct (String.eqb "MTESS" s); simpl; lia.
    + intros Hs. destruct (String.eqb_spec "MTESS" s) as [<- | Hne]; [| reflexivity].
      exfalso. rewrite Hs, HcM in HlM. simpl in HlM.
      exact (not_exceeding_itself cM lM nM HlM HnM HltM).
    + destruct (String.eqb_spec "MTESS" s) as [<- | Hne]; [| intros H0; exfalso; apply H0; reflexivity].
      intros _. simpl. rewrite lookup_insert_eq. auto.
    + intros u Hu. apply list_elem_of_singleton in Hu as ->.
      exists lM, nM. simpl. rewrite lookup_insert_eq. auto.
  - exists [mkServerUpdate "IPS" cI dI]. split; [reflexivity |].
    split; [| split; [| split]]; [intros s; count_updates_simpl .. |].
    + destruct (String.eqb "IPS" s); simpl; lia.
    + intros Hs. destruct (String.eqb_spec "IPS" s) as [<- | Hne]; [| reflexivity].
      exfalso. rewrite Hs, HcI in HlI. simpl in HlI.
      exact (not_exceeding_itself cI lI nI HlI HnI HltI).
    + destruct (String.eqb_spec "IPS" s) as [<- | Hne]; [| intros H0; exfalso; apply H0; reflexivity].
      intros _. simpl. rewrite lookup_insert_eq. auto.
    + intros u Hu. apply list_elem_of_singleton in Hu as ->.
      exists lI, nI. simpl. rewrite lookup_insert_eq. auto.
  - simpl in HlM. rewrite lookup_insert_ne in HlM by discriminate.
    exists [mkServerUpdate "IPS" cI dI; mkServerUpdate "MTESS" cM dM].
    split; [simpl; rewrite <- app_assoc; reflexivity |].
    split; [| split; [| split]]; [intros s; count_updates_simpl .. |].
    + destruct (String.eqb_spec "IPS" s) as [<- | H1]; [simpl; lia |].
      destruct (String.eqb "MTESS" s); simpl; lia.
    + intros Hs. destruct (String.eqb_spec "IPS" s) as [<- | H1].
      { exfalso. rewrite Hs, HcI in HlI. simpl in HlI.
        exact (not_exceeding_itself cI lI nI HlI HnI HltI). }
      destruct (String.eqb_spec "MTESS" s) as [<- | H2]; [| reflexivity].
      exfalso. rewrite Hs, HcM in HlM. simpl in HlM.
      exact (not_exceeding_itself cM lM nM HlM HnM HltM).
    + destruct (String.eqb_spec "IPS" s) as [<- | H1].
      { intros _. simpl. rewrite lookup_insert_ne by discriminate.
        rewrite lookup_insert_eq. auto. }
      destruct (String.eqb_spec "MTESS" s) as [<- | H2]; [| intros H0; exfalso; apply H0; reflexivity].
      intros _. simpl. rewrite lookup_insert_eq. auto.
    + intros u Hu. apply elem_of_cons in Hu as [-> | Hu].
      * exists lI, nI. simpl. rewrite lookup_insert_ne by discriminate.
        rewrite lookup_insert_eq. auto.
      * apply list_elem_of_singleton in Hu as ->.
        exists lM, nM. simpl. rewrite lookup_insert_eq. auto.
Qed.

(** C3. An iteration of the monitor emits [server_update] for a dataset only
    when the current version of the dataset exceeds the version last emitted
    for it by more than 0.001, once at most, and records the emitted version.
    Hence two iterations in a row emit at most one event for a dataset whose
    version is the same in the second as in the first. *)
Theorem idempotent_broadcast
    (env1 env2 : string -> SourceEnv) (w : World) (mon : Monitor) :
  let r1 := monitor_tick get_formatted_date env1 w mon in
  let w1 := fst (fst r1) in
  let mon1 := snd (fst r1) in
  let r2 := monitor_tick get_formatted_date env2 w1 mon1 in
  let w2 := fst (fst r2) in
  let mon2 := snd (fst r2) in
  exists ev1 ev2 : list ServerUpdate,
    emitted mon1 = (emitted mon ++ ev1)%list /\
    emitted mon2 = (emitted mon1 ++ ev2)%list /\
    (forall u, u ∈ ev1 -> justified (last_change_times w1) mon mon1 u) /\
    (forall u, u ∈ ev2 -> justified (last_change_times w2) mon1 mon2 u) /\
    (forall source, count_updates source ev1 <= 1 /\ count_updates source ev2 <= 1)%nat /\
    (forall source,
        last_change_times w2 !! source = last_change_times w1 !! source ->
        (count_updates source (ev1 ++ ev2) <= 1)%nat).
Proof.
  intros r1 w1 mon1 r2 w2 mon2.
  destruct (monitor_tick_emits env1 w mon) as (m1 & A1 & A2).
  destruct (monitor_tick_emits env2 w1 mon1) as (m2 & B1 & B2).
  fold r1 in A1, A2. fold w1 in A1, A2. fold mon1 in A2.
  fold r2 in B1, B2. fold w2 in B1, B2. fold mon2 in B2.
  destruct (emits_summary _ _ _ _ A1 A2) as (ev1 & E1 & C1 & Q1 & R1 & J1).
  destruct (emits_summary _ _ _ _ B1 B2) as (ev2 & E2 & C2 & Q2 & R2 & J2).
  exists ev1, ev2. repeat split; auto.
  intros source Hsame.
  assert (count_updates source (ev1 ++ ev2)
          = (count_updates source ev1 + count_updates source ev2)%nat) as ->.
  { unfold count_updates. rewrite List.filter_app, length_app. reflexivity. }
  destruct (Nat.eq_dec (count_updates source ev1) 0) as [Hz | Hnz].
  - rewrite Hz. apply C2.
  - rewrite (Q2 source); [specialize (C1 source); lia |].
    rewrite (R1 source Hnz). symmetry. exact Hsame.
Qed.

End Monitor.

Lemma idempotent_broadcast_witness :
  let w := update_status_by_ids Sample.edit [PStr "55"] (PStr "REVISADO")
             (PStr "Ana") "IPS" Sample.world in
  let r1 := monitor_tick Sample.date (Sample.tick 101) w monitor_start in
  let r2 := monitor_tick Sample.date (Sample.tick 102) (fst (fst r1)) (snd (fst r1)) in
  (count_updates "IPS" (emitted (snd (fst r2))) <= 1)%nat.
Proof.
  intros w r1 r2.
  destruct (idempotent_broadcast Sample.date (Sample.tick 101) (Sample.tick 102)
              w monitor_start) as (ev1 & ev2 & H1 & H2 & _ & _ & _ & H).
  fold r1 in H1, H2, H. fold r2 in H2, H.
  rewrite H2, H1. apply H. vm_compute. reflexivity.
Defined.

(** The same two iterations, run: the first emits once for each dataset, the
    second emits nothing. *)
Example two_ticks_after_an_edit :
  let w := update_status_by_ids Sample.edit [PStr "55"] (PStr "REVISADO")
             (PStr "Ana") "IPS" Sample.world in
  let r1 := monitor_tick Sample.date (Sample.tick 101) w monitor_start in
  let r2 := monitor_tick Sample.date (Sample.tick 102) (fst (fst r1)) (snd (fst r1)) in
  emitted (snd (fst r1)) =
    [mkServerUpdate "IPS" (JNum 100) "Desconocido";
     mkServerUpdate "MTESS" (JNum 50) "Desconocido"] /\
  emitted (snd (fst r2)) = emitted (snd (fst r1)).
Proof. vm_compute. split; reflexivity. Qed.

(** ** The patch worker *)

Lemma patch_items_concat (env : PatchEnv) (status modifier_name : PyVal)
    (item_ids : list PyVal) (i : nat) :
  patch_items env status modifier_name i item_ids =
  concat (imap (fun j => patch_item env status modifier_name (i + j)) item_ids).
Proof.
  revert i. induction item_ids as [| x ids IH]; intros i;
    cbn [patch_items imap concat]; [reflexivity |].
  rewrite Nat.add_0_r, IH. do 2 f_equal.
  apply imap_ext. intros j y _. cbn. f_equal. lia.
Qed.

Lemma count_patches_app (field : string) (l1 l2 : list WorkerStep) :
  count_patches field (l1 ++ l2) = (count_patches field l1 + count_patches field l2)%nat.
Proof. unfold count_patches. rewrite List.filter_app, length_app. reflexivity. Qed.

Lemma count_status_patches_item (env : PatchEnv) (status modifier_name : PyVal)
    (i : nat) (item_id : PyVal) :
  count_patches "REVISADO" (patch_item env status modifier_name i item_id) = 1%nat.
Proof.
  unfold patch_item, after_status_patch.
  destruct (status_answer env i) as [code |]; [| reflexivity].
  destruct (code =? 200)%Z; [| reflexivity].
  destruct (py_truthy modifier_name); [| reflexivity].
  destruct (modifier_answer env i) as [code_mod |]; [| reflexivity].
  destruct (code_mod =? 200)%Z; reflexivity.
Qed.

Lemma count_attribution_patches_item (env : PatchEnv) (status modifier_name : PyVal)
    (i : nat) (item_id : PyVal) :
  count_patches "ModificadoPor" (patch_item env status modifier_name i item_id) =
  if attribution_due env modifier_name i then 1%nat else 0%nat.
Proof.
  unfold patch_item, after_status_patch, attribution_due.
  destruct (status_answer env i) as [code |]; [| reflexivity].
  destruct (code =? 200)%Z; [| reflexivity].
  destruct (py_truthy modifier_name); [| reflexivity].
  destruct (modifier_answer env i) as [code_mod |]; [| reflexivity].
  destruct (code_mod =? 200)%Z; reflexivity.
Qed.

(** Every item of the batch gets its status patch, whatever the answers. *)
Lemma count_status_patches (env : PatchEnv) (status modifier_name : PyVal)
    (item_ids : list PyVal) (i : nat) :
  count_patches "REVISADO" (patch_items env status modifier_name i item_ids)
  = length item_ids.
Proof.
  revert i. induction item_ids as [| x ids IH]; intros i;
    cbn [patch_items length]; [reflexivity |].
  rewrite count_patches_app, count_status_patches_item, IH. reflexivity.
Qed.

Lemma count_attribution_patches (env : PatchEnv) (status modifier_name : PyVal)
    (item_ids : list PyVal) (i : nat) :
  count_patches "ModificadoPor" (patch_items env status modifier_name i item_ids)
  = if py_truthy modifier_name then count_status_ok env i (length item_ids) else O.
Proof.
  revert i. induction item_ids as [| x ids IH]; intros i;
    cbn [patch_items length count_status_ok].
  - destruct (py_truthy modifier_name); reflexivity.
  - rewrite count_patches_app, count_attribution_patches_item, IH.
    unfold attribution_due.
    destruct (py_truthy modifier_name); destruct (status_answer env i) as [code |];
      try destruct (code =? 200)%Z; reflexivity.
Qed.

(** The steps for one item obey the discipline of the two steps. *)
Lemma patch_item_steps (env : PatchEnv) (status modifier_name : PyVal)
    (i : nat) (item_id : PyVal) :
  two_step_row env status modifier_name i item_id
               (patch_item env status modifier_name i item_id).
Proof.
  set (row := patch_item env status modifier_name i item_id).
  split; [| split; [| split; [apply count_attribution_patches_item | split; [| split]]]].
  - exists (after_status_patch env modifier_name i (py_str item_id)).
    split; [reflexivity |]. unfold after_status_patch.
    destruct (status_answer env i) as [code |]; [| reflexivity].
    destruct (code =? 200)%Z; [| reflexivity].
    destruct (py_truthy modifier_name); [| reflexivity].
    destruct (modifier_answer env i) as [code_mod |]; [| reflexivity].
    destruct (code_mod =? 200)%Z; reflexivity.
  - unfold attribution_due. destruct (status_answer env i) as [code |].
    + rewrite andb_true_iff, Z.eqb_eq. split.
      * intros [-> H]. auto.
      * intros [H1 H2]. inversion H1. auto.
    + split; [discriminate | intros [H _]; discriminate].
  - intros item field value. unfold row, patch_item, after_status_patch, attribution_due.
    destruct (status_answer env i) as [code |];
      [destruct (code =? 200)%Z;
       [destruct (py_truthy modifier_name);
        [destruct (modifier_answer env i) as [code_mod |];
         [destruct (code_mod =? 200)%Z |] |] |] |];
      intros H; repeat (apply elem_of_cons in H as [H | H]);
      try (inversion H; subst; auto; fail);
      try (exfalso; apply elem_of_nil in H; exact H).
    all: inversion H; subst; split; [reflexivity | right; auto].
  - unfold row, patch_item, after_status_patch, attribution_due.
    destruct (status_answer env i) as [code |]; [| discriminate].
    destruct (code =? 200)%Z; [| discriminate].
    destruct (py_truthy modifier_name); [| discriminate].
    intros _ Hne.
    destruct (modifier_answer env i) as [code_mod |].
    + destruct (Z.eqb_spec code_mod 200) as [-> | Hc]; [congruence |].
      left. repeat constructor.
    + right. repeat constructor.
  - unfold row, patch_item, after_status_patch. intros Hne.
    destruct (status_answer env i) as [code |].
    + destruct (Z.eqb_spec code 200) as [-> | Hc]; [congruence |].
      eexists. right. reflexivity.
    + eexists. left. reflexivity.
Qed.

(** C8. For a worker that has its connection details, the steps are those of
    the items one after another, in the order of the batch. For each item
    the status patch is made first and once; the attribution patch is made
    only when the status patch is answered with 200, and once; a failure of
    either is printed and followed by no further request for that item, so a
    failed attribution neither undoes the status patch nor is repeated. The
    steps of an item depend on the answers to its own requests only, and
    every item of the batch gets its status patch whatever the answers to the
    others: the number of status patches is the size of the batch. *)
Theorem patch_worker_partial_success (env : PatchEnv) (item_ids : list PyVal)
    (status modifier_name : PyVal) (source : string) (w : World) :
  connection_details source (_authenticate (patch_auth env) w) = true ->
  let steps := snd (_patch_worker env item_ids status modifier_name source w) in
  steps = (Printed (StartingPatch (length item_ids)) ::
           concat (imap (patch_item env status modifier_name) item_ids) ++
           [Printed PatchFinished])%list /\
  (forall i item_id,
      item_ids !! i = Some item_id ->
      two_step_row env status modifier_name i item_id
                   (patch_item env status modifier_name i item_id)) /\
  (forall env' i item_id,
      status_answer env' i = status_answer env i ->
      modifier_answer env' i = modifier_answer env i ->
      patch_item env' status modifier_name i item_id =
      patch_item env status modifier_name i item_id) /\
  count_patches "REVISADO" steps = length item_ids /\
  count_patches "ModificadoPor" steps =
    (if py_truthy modifier_name then count_status_ok env 0 (length item_ids) else O).
Proof.
  intros Hconn steps.
  assert (steps = (Printed (StartingPatch (length item_ids)) ::
                   patch_items env status modifier_name 0 item_ids ++
                   [Printed PatchFinished])%list) as Hsteps.
  { unfold steps, _patch_worker. rewrite Hconn. reflexivity. }
  split; [| split; [| split; [| split]]].
  - rewrite Hsteps, patch_items_concat. reflexivity.
  - intros i item_id _. apply patch_item_steps.
  - intros env' i item_id H1 H2. unfold patch_item, after_status_patch.
    rewrite H1, H2. reflexivity.
  - rewrite Hsteps.
    change (count_patches "REVISADO"
              ([Printed (StartingPatch (length item_ids))] ++
               patch_items env status modifier_name 0 item_ids ++
               [Printed PatchFinished]) = length item_ids).
    rewrite !count_patches_app, count_status_patches. cbn. lia.
  - rewrite Hsteps.
    change (count_patches "ModificadoPor"
              ([Printed (StartingPatch (length item_ids))] ++
               patch_items env status modifier_name 0 item_ids ++
               [Printed PatchFinished]) =
            (if py_truthy modifier_name
             then count_status_ok env 0 (length item_ids) else O)).
    rewrite !count_patches_app, count_attribution_patches. cbn. lia.
Qed.

Lemma patch_worker_partial_success_witness :
  count_patches "REVISADO"
    (snd (_patch_worker Sample.patch_env [PStr "1"; PInt 2; PStr "3"]
            (PStr "REVISADO") (PStr "Ana") "IPS" Sample.world)) = 3%nat.
Proof.
  refine (proj1 (proj2 (proj2 (proj2
            (patch_worker_partial_success Sample.patch_env
               [PStr "1"; PInt 2; PStr "3"] (PStr "REVISADO") (PStr "Ana")
               "IPS" Sample.world _))))).
  vm_compute. reflexivity.
Defined.

(** The batch of the witness, run: the second item fails at its status patch
    and the third at its attribution patch; the three are attempted. *)
Example partial_success_run :
  snd (_patch_worker Sample.patch_env [PStr "1"; PInt 2; PStr "3"]
         (PStr "REVISADO") (PStr "Ana") "IPS" Sample.world) =
  [Printed (StartingPatch 3);
   PatchField "1" "REVISADO" (PStr "REVISADO");
   Printed (StatusUpdated "1"); Printed (StatusUpdated "1");
   PatchField "1" "ModificadoPor" (PStr "Ana");
   Printed (ModificadoPorUpdated "1");
   PatchField "2" "REVISADO" (PStr "REVISADO");
   Printed (UpdateFailed "2" 500); Printed UpdateResponse;
   PatchField "3" "REVISADO" (PStr "REVISADO");
   Printed (StatusUpdated "3"); Printed (StatusUpdated "3");
   PatchField "3" "ModificadoPor" (PStr "Ana");
   Printed ModificadoPorException;
   Printed PatchFinished].
Proof. vm_compute. reflexivity. Qed.

(** ** Presence *)

Lemma dict_set_fresh (k : string) (v : UserInfo) (d : Connected) :
  dict_get k d = None -> dict_set k v d = (d ++ [(k, v)])%list.
Proof.
  induction d as [| [k' v'] d IH]; simpl; [reflexivity |].
  destruct (String.eqb k k'); [discriminate |].
  intros H. rewrite IH by exact H. reflexivity.
Qed.




(** The emissions of an accepted connection. *)
Lemma handle_connect_accepted (session : Session) (claims : Claims) (sid : string)
    (connected_users : Connected) :
  session_user session = Some claims ->
  let user_info := user_of session claims in
  let connected' := dict_set sid user_info connected_users in
  handle_connect session sid connected_users =
    (true, connected',
     ((if email_connected user_info connected_users then []
       else [mkEmit "user_joined" (OneUser user_info) true false]) ++
      [mkEmit "presence_list" (UserList (dict_values connected')) false true])%list).
Proof.
  intros Hu. unfold handle_connect. rewrite Hu. fold (user_of session claims).
  destruct (email_connected (user_of session claims) connected_users); reflexivity.
Qed.

(** The emissions of the disconnection of a participant. *)
Lemma handle_disconnect_participant (sid : string) (user : UserInfo)
    (connected_users : Connected) :
  dict_get sid connected_users = Some user ->
  let connected' := dict_del sid connected_users in
  handle_disconnect sid connected_users =
    (connected',
     ((if email_connected user connected' then []
       else [mkEmit "user_left" (OneUser user) true true]) ++
      [mkEmit "presence_update" (UserList (dict_values connected')) true true])%list).
Proof.
  intros Hg. unfold handle_disconnect. rewrite Hg.
  destruct (email_connected user (dict_del sid connected_users)); reflexivity.
Qed.



(** Two tabs of one person, then one of them closes: one [user_joined], a
    list with two entries, and no [user_left] while the other tab stays. *)
Example two_tabs :
  let r1 := handle_connect Sample.session "sid-1" [] in
  let r2 := handle_connect Sample.session_2 "sid-2" (snd (fst r1)) in
  let r3 := handle_disconnect "sid-1" (snd (fst r2)) in
  event <$> snd r1 = ["user_joined"; "presence_list"] /\
  event <$> snd r2 = ["presence_list"] /\
  length (dict_values (snd (fst r2))) = 2%nat /\
  event <$> snd r3 = ["presence_update"] /\
  event <$> snd (handle_disconnect "sid-2" (fst r3)) = ["user_left"; "presence_update"].
Proof. vm_compute. repeat split. Qed.

(** ** The attribute [df] is never bound *)

Lemma preserves_df_ret (A : Type) (a : A) : preserves_df (ret a).
Proof. intros w. reflexivity. Qed.

Lemma preserves_df_raise (A : Type) (e : Exc) : preserves_df (@raise A e).
Proof. intros w. reflexivity. Qed.

Lemma preserves_df_get_world : preserves_df get_world.
Proof. intros w. reflexivity. Qed.

Lemma preserves_df_bind (A B : Type) (m : M A) (k : A -> M B) :
  preserves_df m -> (forall a, preserves_df (k a)) -> preserves_df (bind m k).
Proof.
  intros Hm Hk w. unfold bind. specialize (Hm w).
  destruct (m w) as [w' [a | e]]; simpl in *; [| exact Hm].
  rewrite Hk. exact Hm.
Qed.

Lemma preserves_df_subscript (A : Type) (d : gmap string A) (k : string) :
  preserves_df (subscript d k).
Proof. intros w. unfold subscript. destruct (d !! k); reflexivity. Qed.

Lemma preserves_df_as_number (A : Type) (j : Json) (k : Q -> M A) :
  (forall q, preserves_df (k q)) -> preserves_df (as_number j k).
Proof.
  intros Hk. unfold as_number. destruct (num_of j); auto using preserves_df_raise.
Qed.

Lemma preserves_df_fetch_data (env : FetchEnv) (source : string) :
  preserves_df (fetch_data env source).
Proof. intros w. apply (refresh_frame_fetch_data env source w). Qed.

Create HintDb preserves_df.

#[local] Hint Resolve preserves_df_ret preserves_df_raise preserves_df_get_world
  preserves_df_subscript preserves_df_fetch_data : preserves_df.

(** Walks through a computation written with [let*], one step at a time. *)
Ltac preserves_df_steps :=
  repeat first
    [ solve [auto with preserves_df]
    | apply preserves_df_bind
    | apply preserves_df_as_number
    | match goal with
      | |- forall _, _ => intro
      | |- preserves_df (if ?b then _ else _) => destruct b
      end ].

Lemma preserves_df_check_source (env : SourceEnv) (file_versions : gmap string Json)
    (source : string) (updated : list string) :
  preserves_df (check_source env file_versions source updated).
Proof. unfold check_source. preserves_df_steps. Qed.

#[local] Hint Resolve preserves_df_check_source : preserves_df.

Lemma preserves_df_check_version (env : string -> SourceEnv) :
  preserves_df (check_version env).
Proof. unfold check_version. preserves_df_steps. Qed.

Lemma df_update_status_by_ids (env : EditEnv) (ids : list PyVal)
    (status modifier : PyVal) (source : string) (w : World) :
  df (update_status_by_ids env ids status modifier source w) = df w.
Proof.
  unfold update_status_by_ids.
  destruct (dfs w !! source) as [[| rows] |]; try reflexivity.
  destruct (negb _); reflexivity.
Qed.

Lemma df_init (env : InitEnv) (w : World) : __init__ env = Some w -> df w = None.
Proof.
  unfold __init__. destruct (init_auth env) as [token |]; [| discriminate].
  intros H. inversion H. simpl.
  destruct (str_truthy token); [| reflexivity].
  rewrite df_get_list_ids, df_get_site_id. reflexivity.
Qed.

(** No world that the service can be in binds [self.df]. *)
Lemma reachable_df (w : World) : reachable w -> df w = None.
Proof.
  induction 1 as [env w H | a w _ IH | a w _ IH | a w _ IH | env s w _ IH
                 | env ids st md s w _ IH | env w _ IH | env ids st md s w _ IH
                 | f w _ IH].
  - exact (df_init env w H).
  - rewrite df_authenticate. exact IH.
  - rewrite df_get_site_id. exact IH.
  - rewrite df_get_list_ids. exact IH.
  - rewrite preserves_df_fetch_data. exact IH.
  - rewrite df_update_status_by_ids. exact IH.
  - rewrite preserves_df_check_version. exact IH.
  - unfold _patch_worker. destruct (negb _); simpl; rewrite df_authenticate; exact IH.
  - exact IH.
Qed.

(** The two read operations, on a world in which [self.df] is not bound. *)
Lemma read_without_df (source : string) (w : World) :
  df w = None ->
  let d := default NoColumns (dfs w !! source) in
  get_inconsistencies source w =
    (w, if df_empty d then Ok d else Raise AttributeError) /\
  get_verified source w =
    (w, if df_empty d then Ok d else Raise AttributeError).
Proof.
  intros Hdf d. split.
  - unfold get_inconsistencies. unfold bind at 1. unfold get_world. fold d.
    destruct (df_empty d); [reflexivity |].
    unfold bind, self_df. rewrite Hdf. reflexivity.
  - unfold get_verified. unfold bind at 1. unfold get_world. fold d.
    destruct (df_empty d); [reflexivity |].
    unfold bind, self_df. rewrite Hdf. reflexivity.
Qed.

(** C10. In every world the service can be in, [get_inconsistencies] and
    [get_verified] raise [AttributeError] for a dataset whose cached table is
    not empty, because [self.df] is not bound; they return without an error
    only when the cached table of the source is empty, and then they return
    that table. Neither changes the world. *)
Theorem read_operations_raise (w : World) (source : string) :
  reachable w ->
  df w = None /\
  (forall d, dfs w !! source = Some d -> df_empty d = false ->
             snd (get_inconsistencies source w) = Raise AttributeError /\
             snd (get_verified source w) = Raise AttributeError) /\
  (forall d, snd (get_inconsistencies source w) = Ok d \/
             snd (get_verified source w) = Ok d ->
             df_empty d = true /\ d = default NoColumns (dfs w !! source)) /\
  (df_empty (default NoColumns (dfs w !! source)) = true ->
   snd (get_inconsistencies source w) = Ok (default NoColumns (dfs w !! source)) /\
   snd (get_verified source w) = Ok (default NoColumns (dfs w !! source))) /\
  fst (get_inconsistencies source w) = w /\
  fst (get_verified source w) = w.
Proof.
  intros Hr. pose proof (reachable_df w Hr) as Hdf.
  destruct (read_without_df source w Hdf) as [E1 E2]. cbv zeta in E1, E2.
  rewrite E1, E2. simpl fst. simpl snd.
  split; [exact Hdf |]. split; [| split; [| split; [| split; reflexivity]]].
  - intros d Hd He. rewrite Hd. simpl. rewrite He. split; reflexivity.
  - intros d H.
    destruct (df_empty (default NoColumns (dfs w !! source))) eqn:He.
    + destruct H as [H | H]; inversion H; subst; (split; [exact He | reflexivity]).
    + destruct H as [H | H]; discriminate.
  - intros He. rewrite He. split; reflexivity.
Qed.

Lemma read_operations_raise_witness :
  let w := fst (fetch_data (Sample.fetch 100) "IPS" Sample.started) in
  snd (get_inconsistencies "IPS" w) = Raise AttributeError /\
  snd (get_verified "IPS" w) = Raise AttributeError.
Proof.
  intros w.
  assert (reachable w) as Hr.
  { apply reach_fetch_data. apply (reach_init Sample.init). vm_compute. reflexivity. }
  refine (proj1 (proj2 (read_operations_raise w "IPS" Hr))
            (Table [Sample.row "55" "PENDIENTE"]) _ _).
  - vm_compute. reflexivity.
  - reflexivity.
Defined.

(** * Further results *)

(** ** The keys of the state *)

Lemma keeps_ret (P : World -> Prop) (A : Type) (a : A) : keeps P (ret a).
Proof. intros w H. exact H. Qed.

Lemma keeps_raise (P : World -> Prop) (A : Type) (e : Exc) : keeps P (@raise A e).
Proof. intros w H. exact H. Qed.

Lemma keeps_get_world (P : World -> Prop) : keeps P get_world.
Proof. intros w H. exact H. Qed.

Lemma keeps_subscript (P : World -> Prop) (A : Type) (d : gmap string A) (k : string) :
  keeps P (subscript d k).
Proof. intros w H. unfold subscript. destruct (d !! k); exact H. Qed.

Lemma keeps_bind (P : World -> Prop) (A B : Type) (m : M A) (k : A -> M B) :
  keeps P m -> (forall a, keeps P (k a)) -> keeps P (bind m k).
Proof.
  intros Hm Hk w H. unfold bind. specialize (Hm w H).
  destruct (m w) as [w' [a | e]]; simpl in *; [| exact Hm].
  apply Hk. exact Hm.
Qed.

Lemma keeps_as_number (P : World -> Prop) (A : Type) (j : Json) (k : Q -> M A) :
  (forall q, keeps P (k q)) -> keeps P (as_number j k).
Proof.
  intros Hk. unfold as_number. destruct (num_of j); auto using keeps_raise.
Qed.

Lemma dataset_key_not_version (k : string) : dataset_key k -> k <> "version".
Proof. intros [-> | ->]; discriminate. Qed.

Lemma read_state_version (file : FileContent) : _read_state file !! "version" = None.
Proof.
  destruct file as [| text]; simpl; [reflexivity |].
  destruct (json_load text) as [j |]; [| reflexivity].
  destruct j; simpl; try reflexivity;
    try (destruct (existsb _ _); reflexivity);
    try (destruct (String.index 0 "version" s); reflexivity).
  destruct (bool_decide (is_Some (json_load_obj kv !! "version"))) eqn:E; [reflexivity |].
  apply bool_decide_eq_false in E.
  apply lookup_union_None. split; [| reflexivity].
  destruct (json_load_obj kv !! "version") eqn:E'; [| reflexivity].
  exfalso. apply E. eauto.
Qed.

Lemma read_state_dataset_key (file : FileContent) (k : string) :
  dataset_key k -> is_Some (_read_state file !! k).
Proof.
  intros Hk. destruct (read_state_lookup file k Hk) as [H | [H1 H2]].
  - rewrite H. eauto.
  - rewrite H1. exact H2.
Qed.

Lemma insert_dataset_keys (A : Type) (m : gmap string A) (source : string) (a : A) :
  (forall k, is_Some (m !! k) <-> dataset_key k) ->
  is_Some (m !! source) ->
  forall k, is_Some (<[source := a]> m !! k) <-> dataset_key k.
Proof.
  intros Hm Hs k. destruct (decide (source = k)) as [<- | Hne].
  - rewrite lookup_insert_eq. split; [intros _; apply Hm; exact Hs | eauto].
  - rewrite lookup_insert_ne by exact Hne. apply Hm.
Qed.

Lemma well_keyed_same_cache (w w' : World) :
  same_cache w w' -> well_keyed w -> well_keyed w'.
Proof.
  intros (H1 & H2 & H3 & _) (A & B & C & D). unfold well_keyed.
  rewrite H1, H2, H3. auto.
Qed.

Lemma dataset_keys_two (A : Type) (a b : A) (k : string) :
  is_Some ((<["IPS" := a]> (<["MTESS" := b]> (∅ : gmap string A))) !! k)
  <-> dataset_key k.
Proof.
  unfold dataset_key.
  destruct (decide (k = "IPS")) as [-> | H5]; [rewrite lookup_insert_eq; split; eauto |].
  destruct (decide (k = "MTESS")) as [-> | H6].
  - rewrite lookup_insert_ne by discriminate. rewrite lookup_insert_eq. split; eauto.
  - rewrite !lookup_insert_ne by congruence. rewrite lookup_empty.
    split; [intros [x Hx]; discriminate | intros [? | ?]; congruence].
Qed.

Lemma well_keyed_init (env : InitEnv) (w : World) :
  __init__ env = Some w -> well_keyed w.
Proof.
  unfold __init__. destruct (init_auth env) as [token |]; [| discriminate].
  set (w0 := mkWorld token None ∅
               (<["IPS" := NoColumns]> (<["MTESS" := NoColumns]> ∅)) ∅ ∅ None
               (init_file env)).
  set (w1 := if str_truthy (access_token w0)
             then _get_list_ids (init_lists env) (_get_site_id (init_site env) w0)
             else w0).
  assert (same_cache w0 w1) as Hs.
  { unfold w1. destruct (str_truthy (access_token w0)); [| apply same_cache_refl].
    eapply same_cache_trans; [apply same_cache_get_site_id | apply same_cache_get_list_ids]. }
  destruct Hs as (H1 & _ & _ & H4).
  intros H. injection H as <-.
  unfold well_keyed. cbn [dfs last_local_update_times last_change_times
                          set_last_local_update_times set_last_change_times].
  rewrite H1. unfold w0 at 1. cbn [dfs].
  split; [apply dataset_keys_two |]. split; [apply dataset_keys_two |].
  split; [intros k; apply read_state_dataset_key | apply read_state_version].
Qed.

Lemma well_keyed_update_status_by_ids (env : EditEnv) (ids : list PyVal)
    (status modifier : PyVal) (source : string) (w : World) :
  well_keyed w -> well_keyed (update_status_by_ids env ids status modifier source w).
Proof.
  intros Hw. destruct (dfs w !! source) as [[| rows] |] eqn:Hd;
    try (rewrite update_status_by_ids_no_match by (intros; congruence); exact Hw).
  destruct (existsb (isin (map py_str ids)) rows) eqn:Hm.
  2: { rewrite update_status_by_ids_no_match; [exact Hw |].
       intros rows' H. rewrite Hd in H. inversion H; subst. exact Hm. }
  destruct (update_status_by_ids_match env ids status modifier source w rows Hd Hm)
    as (E1 & E2 & E3 & _).
  destruct Hw as (A & B & C & D).
  assert (dataset_key source) as Hk by (apply A; rewrite Hd; eauto).
  unfold well_keyed. rewrite E1, E2, E3.
  split; [apply insert_dataset_keys; [exact A | rewrite Hd; eauto] |].
  split; [apply insert_dataset_keys; [exact B | apply B; exact Hk] |].
  split.
  - intros k Hk'. destruct (decide (source = k)) as [<- | Hne].
    + rewrite lookup_insert_eq. eauto.
    + rewrite lookup_insert_ne by exact Hne. apply C. exact Hk'.
  - rewrite lookup_insert_ne; [exact D | apply dataset_key_not_version; exact Hk].
Qed.

(** The [try] block replaces a table only for a source that has a time of
    local edits. *)
Lemma fetch_data_try_replaces (env : FetchEnv) (source : string) (w : World) :
  fst (fetch_data_try env source w) = w \/
  (is_Some (last_local_update_times w !! source) /\
   exists clean_data,
     dfs (fst (fetch_data_try env source w)) =
       <[source := Table (number_rows 1 clean_data)]> (dfs w) /\
     last_change_times (fst (fetch_data_try env source w)) =
       <[source := JNum (store_time env)]> (last_change_times w) /\
     last_local_update_times (fst (fetch_data_try env source w)) =
       last_local_update_times w).
Proof.
  unfold fetch_data_try. destruct (items_answer env) as [clean |]; [| left; reflexivity].
  unfold_monad.
  destruct (last_local_update_times w !! source) as [t |] eqn:Ht; [| left; reflexivity].
  cbn beta iota.
  destruct (Qlt_bool (guard_time env - t) 5).
  - left. destruct (dfs w !! source); reflexivity.
  - right. split; [eauto |]. exists clean. cbn beta iota zeta.
    match goal with |- context [match ?x with Some _ => _ | None => _ end] =>
      destruct x end; repeat split.
Qed.

Lemma well_keyed_fetch_data_try (env : FetchEnv) (source : string) (w : World) :
  well_keyed w ->
  well_keyed (fst (except_empty_frame (fetch_data_try env source) w)).
Proof.
  intros Hw.
  assert (fst (except_empty_frame (fetch_data_try env source) w)
          = fst (fetch_data_try env source w)) as ->.
  { unfold except_empty_frame. destruct (fetch_data_try env source w) as [w' [d | e]];
      reflexivity. }
  destruct (fetch_data_try_replaces env source w) as [-> | (Hl & clean & E1 & E2 & E3)];
    [exact Hw |].
  destruct Hw as (A & B & C & D).
  assert (dataset_key source) as Hk by (apply B; exact Hl).
  unfold well_keyed. rewrite E1, E2, E3.
  split; [apply insert_dataset_keys; [exact A | apply A; exact Hk] |].
  split; [exact B |]. split.
  - intros k Hk'. destruct (decide (source = k)) as [<- | Hne].
    + rewrite lookup_insert_eq. eauto.
    + rewrite lookup_insert_ne by exact Hne. apply C. exact Hk'.
  - rewrite lookup_insert_ne; [exact D | apply dataset_key_not_version; exact Hk].
Qed.

Lemma keeps_well_keyed_fetch_data (env : FetchEnv) (source : string) :
  keeps well_keyed (fetch_data env source).
Proof.
  intros w Hw. rewrite fetch_data_unfold.
  set (w1 := if negb (str_truthy (access_token w)) || negb (opt_truthy (site_id w))
             then _get_list_ids (lists_answer env)
                    (_get_site_id (site_answer env) (_authenticate (auth_answer env) w))
             else w).
  assert (well_keyed w1) as H1.
  { unfold w1. destruct (_ || _); [| exact Hw].
    eapply well_keyed_same_cache; [apply same_cache_connect | exact Hw]. }
  cbn zeta. destruct (opt_truthy (list_ids w1 !! source)).
  - apply well_keyed_fetch_data_try. exact H1.
  - assert (well_keyed (_get_list_ids (rescan_answer env) w1)) as H2
      by (eapply well_keyed_same_cache; [apply same_cache_get_list_ids | exact H1]).
    destruct (opt_truthy (list_ids (_get_list_ids (rescan_answer env) w1) !! source)).
    + apply well_keyed_fetch_data_try. exact H2.
    + exact H2.
Qed.

Create HintDb keeps.

#[local] Hint Resolve keeps_ret keeps_raise keeps_get_world keeps_subscript
  keeps_well_keyed_fetch_data : keeps.

Ltac keeps_steps :=
  repeat first
    [ solve [auto with keeps]
    | apply keeps_bind
    | apply keeps_as_number
    | match goal with
      | |- forall _, _ => intro
      | |- keeps _ (if ?b then _ else _) => destruct b
      end ].

Lemma keeps_well_keyed_check_source (env : SourceEnv) (file_versions : gmap string Json)
    (source : string) (updated : list string) :
  keeps well_keyed (check_source env file_versions source updated).
Proof. unfold check_source. keeps_steps. Qed.

#[local] Hint Resolve keeps_well_keyed_check_source : keeps.

Lemma keeps_well_keyed_check_version (env : string -> SourceEnv) :
  keeps well_keyed (check_version env).
Proof. unfold check_version. keeps_steps. Qed.

(** X1. In every world the service can be in, the tables and the times of
    the local edits are kept for IPS and MTESS and for no other key, whatever
    source names the requests carried; the last-change times are kept for
    both datasets and never under the key ["version"]. *)
Theorem reachable_well_keyed (w : World) : reachable w -> well_keyed w.
Proof.
  induction 1 as [env w H | a w _ IH | a w _ IH | a w _ IH | env s w _ IH
                 | env ids st md s w _ IH | env w _ IH | env ids st md s w _ IH
                 | f w _ IH].
  - exact (well_keyed_init env w H).
  - eapply well_keyed_same_cache; [apply same_cache_authenticate | exact IH].
  - eapply well_keyed_same_cache; [apply same_cache_get_site_id | exact IH].
  - eapply well_keyed_same_cache; [apply same_cache_get_list_ids | exact IH].
  - apply keeps_well_keyed_fetch_data. exact IH.
  - apply well_keyed_update_status_by_ids. exact IH.
  - apply keeps_well_keyed_check_version. exact IH.
  - unfold _patch_worker. destruct (negb _); simpl;
      (eapply well_keyed_same_cache; [apply same_cache_authenticate | exact IH]).
  - exact IH.
Qed.

Lemma reachable_well_keyed_witness :
  well_keyed (fst (fetch_data (Sample.fetch 100) "WHITELIST" Sample.started)).
Proof.
  apply reachable_well_keyed. apply reach_fetch_data.
  apply (reach_init Sample.init). vm_compute. reflexivity.
Defined.

(** ** The file and the memory *)

Lemma union_default_state (d : gmap string Json) :
  is_Some (d !! "IPS") -> is_Some (d !! "MTESS") -> d ∪ default_state = d.
Proof.
  intros [a Ha] [b Hb]. apply map_eq. intros k.
  destruct (d !! k) as [v |] eqn:E.
  - apply lookup_union_Some_l. exact E.
  - rewrite lookup_union_r by exact E. unfold default_state.
    rewrite !lookup_insert_ne by congruence. apply lookup_empty.
Qed.

(** Writing a dict that has both datasets and no ["version"] and reading the
    file gives the dict back. *)
Lemma read_state_save_state (d : gmap string Json) (file : FileContent) :
  is_Some (d !! "IPS") -> is_Some (d !! "MTESS") -> d !! "version" = None ->
  _read_state (_save_state WriteOk d file) = d.
Proof.
  intros HI HM Hv. rewrite read_state_after_save by exact Hv.
  apply union_default_state; assumption.
Qed.

(** X2. What [_read_state] returns, whatever the file, has both datasets and
    no key ["version"], and survives a write and a read: persisting the
    result of a read and reading again gives the same mapping, keys that are
    not datasets included. *)
Theorem read_save_read (file other : FileContent) :
  _read_state (_save_state WriteOk (_read_state file) other) = _read_state file /\
  is_Some (_read_state file !! "IPS") /\
  is_Some (_read_state file !! "MTESS") /\
  _read_state file !! "version" = None.
Proof.
  assert (is_Some (_read_state file !! "IPS")) as HI
    by (apply read_state_dataset_key; left; reflexivity).
  assert (is_Some (_read_state file !! "MTESS")) as HM
    by (apply read_state_dataset_key; right; reflexivity).
  pose proof (read_state_version file) as Hv.
  split; [| auto]. apply read_state_save_state; assumption.
Qed.

(** A key that is no dataset goes through a read, a write and a read. *)
Example read_save_read_other_key :
  let file := document [("IPS", JNum 7); ("RPA", JStr "running")] in
  _read_state (_save_state WriteOk (_read_state file) Absent) !! "RPA"
    = Some (JStr "running") /\
  _read_state (_save_state WriteOk (_read_state file) Absent) !! "MTESS"
    = Some (JNum 0).
Proof. vm_compute. split; reflexivity. Qed.

(** ** A refresh that goes through *)

(** [fetch_data] on a connected manager that knows the list of the source,
    gets its rows and passes the guard. *)
Lemma fetch_data_replaces (env : FetchEnv) (source : string) (w : World)
    (clean_data : list Row) (last_local : Q) :
  str_truthy (access_token w) = true ->
  opt_truthy (site_id w) = true ->
  opt_truthy (list_ids w !! source) = true ->
  items_answer env = Some clean_data ->
  last_local_update_times w !! source = Some last_local ->
  (5 <= guard_time env - last_local)%Q ->
  fetch_data env source w =
    (let w1 := set_dfs (<[source := Table (number_rows 1 clean_data)]> (dfs w)) w in
     let w2 := set_last_change_times
                 (<[source := JNum (store_time env)]> (last_change_times w1)) w1 in
     set_version_json
       (_save_state (fetch_io env) (last_change_times w2) (version_json w2)) w2,
     Ok (Table (number_rows 1 clean_data))).
Proof.
  intros Ht Hs Hl Hi Hll Hg. rewrite fetch_data_unfold. rewrite Ht, Hs. cbn zeta.
  simpl negb. simpl orb. cbv iota. rewrite Hl.
  unfold except_empty_frame, fetch_data_try. rewrite Hi.
  unfold_monad. rewrite Hll. cbn beta iota.
  apply Qlt_bool_false in Hg. rewrite Hg. cbn beta iota zeta.
  cbn [dfs set_dfs set_last_change_times set_version_json].
  rewrite lookup_insert_eq. reflexivity.
Qed.

Lemma number_rows_lookup (rows : list Row) (n i : nat) (r : Row) :
  rows !! i = Some r -> number_rows n rows !! i = Some (set_index_col (n + i) r).
Proof.
  revert n i. induction rows as [| x rows IH]; intros n i H; [discriminate |].
  destruct i as [| i]; simpl in *.
  - inversion H; subst. rewrite Nat.add_0_r. reflexivity.
  - rewrite (IH (S n) i H). f_equal. f_equal. lia.
Qed.

Lemma number_rows_length (rows : list Row) (n : nat) :
  length (number_rows n rows) = length rows.
Proof. revert n. induction rows as [| x rows IH]; intros n; simpl; [| rewrite IH]; reflexivity. Qed.

(** X3. A refresh that goes through (the manager is connected and knows the
    list, the rows arrive, the last local edit of the dataset is at least 5
    seconds old) returns the fetched rows as the new table, in their order
    and numbered from 1 in the column [#], every other column as fetched; it
    stamps the dataset with the clock reading taken after the replacement,
    and changes neither the times of the local edits nor the table or the
    stamp of the other dataset. *)
Theorem fetch_data_success (env : FetchEnv) (source : string) (w : World)
    (clean_data : list Row) (last_local : Q) :
  str_truthy (access_token w) = true ->
  opt_truthy (site_id w) = true ->
  opt_truthy (list_ids w !! source) = true ->
  items_answer env = Some clean_data ->
  last_local_update_times w !! source = Some last_local ->
  (5 <= guard_time env - last_local)%Q ->
  let w' := fst (fetch_data env source w) in
  let rows := number_rows 1 clean_data in
  snd (fetch_data env source w) = Ok (Table rows) /\
  dfs w' !! source = Some (Table rows) /\
  length rows = length clean_data /\
  (forall i r, clean_data !! i = Some r ->
               rows !! i = Some (set_index_col (S i) r)) /\
  last_change_times w' !! source = Some (JNum (store_time env)) /\
  last_local_update_times w' = last_local_update_times w /\
  (forall k, k <> source ->
             dfs w' !! k = dfs w !! k /\
             last_change_times w' !! k = last_change_times w !! k) /\
  version_json w' =
    _save_state (fetch_io env)
                (<[source := JNum (store_time env)]> (last_change_times w))
                (version_json w).
Proof.
  intros Ht Hs Hl Hi Hll Hg w' rows. unfold w'.
  rewrite (fetch_data_replaces env source w clean_data last_local Ht Hs Hl Hi Hll Hg).
  cbn zeta. simpl fst. simpl snd.
  split; [reflexivity |]. split; [apply lookup_insert_eq |].
  split; [apply number_rows_length |].
  split; [intros i r H; apply (number_rows_lookup clean_data 1 i r H) |].
  split; [apply lookup_insert_eq |]. split; [reflexivity |].
  split; [| reflexivity].
  intros k Hk. split; apply lookup_insert_ne; congruence.
Qed.

Lemma fetch_data_success_witness :
  snd (fetch_data (Sample.fetch 106) "IPS" Sample.world)
  = Ok (Table (number_rows 1 [Sample.row "55" "PENDIENTE"])).
Proof.
  refine (proj1 (fetch_data_success (Sample.fetch 106) "IPS" Sample.world
                   [Sample.row "55" "PENDIENTE"] 0 _ _ _ _ _ _));
    vm_compute; try reflexivity. discriminate.
Defined.

(** Writing the last-change times with one dataset set anew and reading the
    file gives them back. *)
Lemma save_state_synced (w : World) (source : string) (j : Json) :
  well_keyed w -> dataset_key source ->
  _read_state (_save_state WriteOk (<[source := j]> (last_change_times w))
                 (version_json w))
  = <[source := j]> (last_change_times w).
Proof.
  intros (A & B & C & D) Hk. apply read_state_save_state.
  - destruct (decide (source = "IPS")) as [-> | Hne];
      [rewrite lookup_insert_eq; eauto |].
    rewrite lookup_insert_ne by exact Hne. apply C. left. reflexivity.
  - destruct (decide (source = "MTESS")) as [-> | Hne];
      [rewrite lookup_insert_eq; eauto |].
    rewrite lookup_insert_ne by exact Hne. apply C. right. reflexivity.
  - rewrite lookup_insert_ne; [exact D | apply dataset_key_not_version; exact Hk].
Qed.

(** X4. After a write that succeeds, the file says what the manager has in
    memory: this holds after a local edit that matched a row and after a
    refresh that went through, in any world with the keys of the datasets. *)
Theorem successful_write_syncs (w : World) :
  well_keyed w ->
  (forall env ids status modifier source rows,
      dfs w !! source = Some (Table rows) ->
      existsb (isin (map py_str ids)) rows = true ->
      edit_io env = WriteOk ->
      synced (update_status_by_ids env ids status modifier source w)) /\
  (forall env source clean_data last_local,
      str_truthy (access_token w) = true ->
      opt_truthy (site_id w) = true ->
      opt_truthy (list_ids w !! source) = true ->
      items_answer env = Some clean_data ->
      last_local_update_times w !! source = Some last_local ->
      (5 <= guard_time env - last_local)%Q ->
      fetch_io env = WriteOk ->
      synced (fst (fetch_data env source w))).
Proof.
  intros Hw. pose proof Hw as (A & B & C & D).
  split.
  - intros env ids status modifier source rows Hd Hm Hio.
    destruct (update_status_by_ids_match env ids status modifier source w rows Hd Hm)
      as (_ & E2 & _ & E4).
    unfold synced. rewrite E4, E2, Hio. apply save_state_synced; [exact Hw |].
    apply A. rewrite Hd. eauto.
  - intros env source clean tl Ht Hs Hl Hi Hll Hg Hio.
    unfold synced.
    rewrite (fetch_data_replaces env source w clean tl Ht Hs Hl Hi Hll Hg).
    cbn zeta. simpl. rewrite Hio. apply save_state_synced; [exact Hw |].
    apply B. rewrite Hll. eauto.
Qed.

Lemma sample_world_well_keyed : well_keyed Sample.world.
Proof.
  unfold well_keyed, Sample.world. cbn [dfs last_local_update_times last_change_times].
  split; [apply dataset_keys_two |]. split; [apply dataset_keys_two |].
  split; [| reflexivity].
  intros k [-> | ->]; eexists; reflexivity.
Defined.

Lemma successful_write_syncs_witness :
  synced (update_status_by_ids Sample.edit [PStr "55"] (PStr "REVISADO") (PStr "Ana")
            "IPS" Sample.world).
Proof.
  refine (proj1 (successful_write_syncs Sample.world sample_world_well_keyed)
            Sample.edit [PStr "55"] (PStr "REVISADO") (PStr "Ana") "IPS"
            [Sample.row "55" "PENDIENTE"] _ _ _); reflexivity.
Defined.

(** One iteration of [check_version] that finds in the file what is in
    memory: it leaves the world alone, and either goes on or raises. *)
Lemma check_source_synced (env : SourceEnv) (source : string) (updated : list string)
    (w : World) :
  check_source env (last_change_times w) source updated w = (w, Ok updated) \/
  exists e, check_source env (last_change_times w) source updated w = (w, Raise e).
Proof.
  unfold check_source, as_number. unfold subscript, bind, get_world, ret, raise.
  destruct (last_local_update_times w !! source) as [tl |]; [| right; eexists; reflexivity].
  destruct (Qlt_bool (grace_time env - tl) 5); [left; reflexivity |].
  destruct (last_change_times w !! source) as [j |]; [| right; eexists; reflexivity].
  destruct (num_of j) as [m |]; [| right; eexists; reflexivity].
  assert (Qlt_bool (m + 0.1) m = false) as -> by (apply Qlt_bool_false; lra).
  left. reflexivity.
Qed.

(** X5. When the file says what the manager has in memory, [check_version]
    refreshes nothing: it leaves the world as it is and, if it returns,
    returns the last-change times with an empty list of updated sources.
    After a local edit or a refresh whose write succeeded, the next tick
    therefore triggers no refresh. *)
Theorem check_version_synced (env : string -> SourceEnv) (w : World) :
  synced w ->
  fst (check_version env w) = w /\
  (forall r, snd (check_version env w) = Ok r -> r = (last_change_times w, [])).
Proof.
  intros Hs. unfold check_version. unfold bind, get_world, ret.
  rewrite Hs.
  destruct (check_source_synced (env "IPS") "IPS" [] w) as [-> | [e ->]];
    [| split; [reflexivity | intros r H; discriminate]].
  destruct (check_source_synced (env "MTESS") "MTESS" [] w) as [-> | [e ->]];
    [| split; [reflexivity | intros r H; discriminate]].
  split; [reflexivity |]. intros r H. inversion H. reflexivity.
Qed.

Lemma check_version_synced_witness :
  let w := update_status_by_ids Sample.edit [PStr "55"] (PStr "REVISADO") (PStr "Ana")
             "IPS" Sample.world in
  fst (check_version (Sample.tick 1000) w) = w.
Proof.
  intros w.
  refine (proj1 (check_version_synced (Sample.tick 1000) w _)).
  vm_compute. reflexivity.
Defined.

(** ** What a local edit leaves alone *)



(** ** A refresh that does not go through *)

(** [fetch_data] ends in its [try] block, or gives up for want of a list id;
    up to there it has touched the connection details only. *)
Lemma fetch_data_ends (env : FetchEnv) (source : string) (w : World) :
  exists w0,
    same_cache w w0 /\
    (fetch_data env source w = except_empty_frame (fetch_data_try env source) w0 \/
     fetch_data env source w = (w0, match dfs w0 !! source with
                                    | Some d => Ok d
                                    | None => Raise KeyError
                                    end)).
Proof.
  rewrite fetch_data_unfold.
  set (w1 := if negb (str_truthy (access_token w)) || negb (opt_truthy (site_id w))
             then _get_list_ids (lists_answer env)
                    (_get_site_id (site_answer env) (_authenticate (auth_answer env) w))
             else w).
  assert (same_cache w w1) as H1.
  { unfold w1. destruct (_ || _); [apply same_cache_connect | apply same_cache_refl]. }
  cbn zeta. destruct (opt_truthy (list_ids w1 !! source)).
  - exists w1. auto.
  - assert (same_cache w (_get_list_ids (rescan_answer env) w1)) as H2
      by (eapply same_cache_trans; [exact H1 | apply same_cache_get_list_ids]).
    destruct (opt_truthy (list_ids (_get_list_ids (rescan_answer env) w1) !! source));
      eexists; eauto.
Qed.

Lemma fetch_data_try_no_key (env : FetchEnv) (source : string) (w : World) :
  last_local_update_times w !! source = None ->
  except_empty_frame (fetch_data_try env source) w = (w, Ok NoColumns).
Proof.
  intros H. unfold except_empty_frame, fetch_data_try.
  destruct (items_answer env); [| reflexivity].
  unfold_monad. rewrite H. reflexivity.
Qed.

(** X7. Three ways in which [fetch_data] ends without replacing the table.
    On a connected manager that knows the list, when a request for the
    items, or the decoding of an answer, raises an exception, the world is
    left as it is and the result is the empty frame without columns, not the
    cached table. When the list id is unknown, also after the lists are
    scanned again, the tables, the timestamps and the file are left as they
    are and the result is the cached table. For a source that is no dataset
    the cache is never changed and no rows are returned: the result is the
    empty frame, or [KeyError] when the method gives up for want of a list
    id. A request that is answered with another status than 200 is none of
    these: it raises nothing, the loop over the pages ends, and the rows
    read so far, none if it was the first request, replace the cached table
    once the guard is passed. *)
Theorem fetch_data_failure (env : FetchEnv) (source : string) (w : World) :
  (str_truthy (access_token w) = true ->
   opt_truthy (site_id w) = true ->
   opt_truthy (list_ids w !! source) = true ->
   items_answer env = None ->
   fetch_data env source w = (w, Ok NoColumns)) /\
  (str_truthy (access_token w) = true ->
   opt_truthy (site_id w) = true ->
   opt_truthy (list_ids w !! source) = false ->
   opt_truthy (list_ids (_get_list_ids (rescan_answer env) w) !! source) = false ->
   same_cache w (fst (fetch_data env source w)) /\
   snd (fetch_data env source w) = match dfs w !! source with
                                   | Some d => Ok d
                                   | None => Raise KeyError
                                   end) /\
  (well_keyed w -> ~ dataset_key source ->
   same_cache w (fst (fetch_data env source w)) /\
   (snd (fetch_data env source w) = Ok NoColumns \/
    snd (fetch_data env source w) = Raise KeyError)) /\
  (str_truthy (access_token w) = true ->
   opt_truthy (site_id w) = true ->
   opt_truthy (list_ids w !! source) = true ->
   forall clean_data last_local,
     items_answer env = Some clean_data ->
     last_local_update_times w !! source = Some last_local ->
     (5 <= guard_time env - last_local)%Q ->
     snd (fetch_data env source w) = Ok (Table (number_rows 1 clean_data)) /\
     dfs (fst (fetch_data env source w)) !! source
     = Some (Table (number_rows 1 clean_data))).
Proof.
  split; [| split; [| split]].
  4:{ intros Ht Hs Hl clean_data last_local Hi Hll Hg.
      rewrite (fetch_data_replaces env source w clean_data last_local Ht Hs Hl Hi Hll Hg).
      cbn zeta. cbn [fst snd dfs set_dfs set_last_change_times set_version_json].
      split; [reflexivity | apply lookup_insert_eq]. }
  - intros Ht Hs Hl Hi. rewrite fetch_data_unfold, Ht, Hs. cbn. rewrite Hl.
    unfold except_empty_frame, fetch_data_try. rewrite Hi. reflexivity.
  - intros Ht Hs Hl Hr. rewrite fetch_data_unfold, Ht, Hs. cbn -[_get_list_ids].
    rewrite Hl, Hr. cbn -[_get_list_ids].
    pose proof (same_cache_get_list_ids (rescan_answer env) w) as Hsame.
    split; [exact Hsame |]. destruct Hsame as (-> & _). reflexivity.
  - intros Hw Hk.
    destruct (fetch_data_ends env source w) as (w0 & Hsame & [-> | ->]).
    + assert (last_local_update_times w0 !! source = None) as Hnone.
      { destruct Hsame as (_ & _ & -> & _). destruct Hw as (_ & B & _).
        destruct (last_local_update_times w !! source) eqn:E; [| reflexivity].
        exfalso. apply Hk, B. rewrite E. eauto. }
      rewrite (fetch_data_try_no_key env source w0 Hnone). simpl. auto.
    + simpl. split; [exact Hsame |]. right.
      destruct Hsame as (-> & _). destruct Hw as (A & _).
      destruct (dfs w !! source) eqn:E; [| reflexivity].
      exfalso. apply Hk, A. rewrite E. eauto.
Qed.

Lemma fetch_data_failure_witness :
  fetch_data (mkFetchEnv None None None None None 106 106 WriteOk) "IPS" Sample.world
  = (Sample.world, Ok NoColumns).
Proof.
  refine (proj1 (fetch_data_failure (mkFetchEnv None None None None None 106 106 WriteOk)
                   "IPS" Sample.world) _ _ _ _); reflexivity.
Defined.

(** ** The ids of the lists *)

Lemma scan_lists_other (lists : list (string * string)) (acc : gmap string string)
    (k : string) :
  k <> "IPS" -> k <> "MTESS" -> k <> "WHITELIST" ->
  scan_lists lists acc !! k = acc !! k.
Proof.
  intros H1 H2 H3. revert acc.
  induction lists as [| [n i] rest IH]; intros acc; [reflexivity |].
  cbn [scan_lists]. rewrite IH.
  destruct (String.eqb n list_name_ips); [apply lookup_insert_ne; congruence |].
  destruct (String.eqb n list_name_mtess); [apply lookup_insert_ne; congruence |].
  destruct (String.eqb n list_name_whitelist); [apply lookup_insert_ne; congruence |].
  reflexivity.
Qed.

Lemma scan_lists_key (lists : list (string * string)) (acc : gmap string string)
    (k name : string) :
  (k = "IPS" /\ name = list_name_ips) \/
  (k = "MTESS" /\ name = list_name_mtess) \/
  (k = "WHITELIST" /\ name = list_name_whitelist) ->
  scan_lists lists acc !! k =
    match last_id name lists with
    | Some j => Some j
    | None => acc !! k
    end.
Proof.
  intros Hk. revert acc.
  induction lists as [| [n i] rest IH]; intros acc; [reflexivity |].
  cbn [scan_lists last_id]. rewrite IH.
  destruct (last_id name rest) as [j |]; [reflexivity |].
  destruct Hk as [[-> ->] | [[-> ->] | [-> ->]]].
  - destruct (String.eqb_spec n list_name_ips) as [-> | Hn];
      [apply lookup_insert_eq |].
    destruct (String.eqb n list_name_mtess); [apply lookup_insert_ne; discriminate |].
    destruct (String.eqb n list_name_whitelist); [apply lookup_insert_ne; discriminate |].
    reflexivity.
  - destruct (String.eqb_spec n list_name_mtess) as [-> | Hn].
    + cbn. apply lookup_insert_eq.
    + destruct (String.eqb n list_name_ips); [apply lookup_insert_ne; discriminate |].
      destruct (String.eqb n list_name_whitelist); [apply lookup_insert_ne; discriminate |].
      reflexivity.
  - destruct (String.eqb_spec n list_name_whitelist) as [-> | Hn].
    + cbn. apply lookup_insert_eq.
    + destruct (String.eqb n list_name_ips); [apply lookup_insert_ne; discriminate |].
      destruct (String.eqb n list_name_mtess); [apply lookup_insert_ne; discriminate |].
      reflexivity.
Qed.

(** X8. On a connected manager, a scan of the lists that is answered forgets
    every id known before and keeps, for each of the three lists, the id of
    the last list of the answer that has its display name: a list that is no
    longer in the answer loses its id. A scan that is not answered, or that
    is made without a token or a site id, leaves the ids as they are. *)
Theorem get_list_ids_result (answer : option (list (string * string))) (w : World) :
  (str_truthy (access_token w) = true -> opt_truthy (site_id w) = true ->
   forall lists, answer = Some lists ->
     let ids := list_ids (_get_list_ids answer w) in
     ids !! "IPS" = last_id list_name_ips lists /\
     ids !! "MTESS" = last_id list_name_mtess lists /\
     ids !! "WHITELIST" = last_id list_name_whitelist lists /\
     (forall k, k <> "IPS" -> k <> "MTESS" -> k <> "WHITELIST" -> ids !! k = None)) /\
  (answer = None -> _get_list_ids answer w = w) /\
  (str_truthy (access_token w) = false \/ opt_truthy (site_id w) = false ->
   _get_list_ids answer w = w).
Proof.
  split; [| split].
  - intros Ht Hs lists -> ids. unfold ids, _get_list_ids. rewrite Ht, Hs. cbn.
    rewrite !(scan_lists_key lists ∅ _ _) by tauto.
    rewrite !lookup_empty.
    repeat split;
      try (match goal with |- context [last_id ?n lists] =>
             destruct (last_id n lists); reflexivity end).
    intros k H1 H2 H3. rewrite scan_lists_other by assumption. apply lookup_empty.
  - intros ->. unfold _get_list_ids. destruct (_ || _); reflexivity.
  - intros [H | H]; unfold _get_list_ids; rewrite H; cbn;
      [reflexivity | rewrite orb_true_r; reflexivity].
Qed.

Lemma get_list_ids_result_witness :
  let w := _get_list_ids (Some [("Auditoria_General", "a1"); ("Otra", "x");
                                ("Auditoria_General", "a2")]) Sample.world in
  list_ids w !! "IPS" = Some "a2" /\ list_ids w !! "MTESS" = None.
Proof.
  intros w.
  destruct (proj1 (get_list_ids_result
                     (Some [("Auditoria_General", "a1"); ("Otra", "x");
                            ("Auditoria_General", "a2")]) Sample.world)
              eq_refl eq_refl _ eq_refl) as (H1 & H2 & _).
  split; [exact H1 | exact H2].
Defined.

(** ** The table of the participants *)

Lemma dict_get_None (k : string) (d : Connected) :
  dict_get k d = None <-> k ∉ dict_keys d.
Proof.
  induction d as [| [k' v'] d IH]; simpl.
  - split; [intros _ H; inversion H | reflexivity].
  - destruct (String.eqb_spec k k') as [-> | Hne].
    + split; [discriminate | intros H; exfalso; apply H; left].
    + rewrite IH. rewrite not_elem_of_cons. tauto.
Qed.

Lemma dict_keys_set (k : string) (v : UserInfo) (d : Connected) :
  dict_keys (dict_set k v d) =
  if bool_decide (k ∈ dict_keys d) then dict_keys d else (dict_keys d ++ [k])%list.
Proof.
  induction d as [| [k' v'] d IH]; simpl; [reflexivity |].
  destruct (String.eqb_spec k k') as [-> | Hne]; simpl.
  - rewrite bool_decide_eq_true_2 by left. reflexivity.
  - rewrite IH. destruct (bool_decide (k ∈ dict_keys d)) eqn:E.
    + apply bool_decide_eq_true in E.
      rewrite bool_decide_eq_true_2 by (right; exact E). reflexivity.
    + apply bool_decide_eq_false in E.
      rewrite bool_decide_eq_false_2; [reflexivity |].
      rewrite not_elem_of_cons. auto.
Qed.

Lemma filter_absent (k : string) (l : list string) :
  k ∉ l -> List.filter (fun x => negb (String.eqb k x)) l = l.
Proof.
  induction l as [| x l IH]; intros H; [reflexivity |].
  apply not_elem_of_cons in H as [H1 H2]. cbn [List.filter].
  destruct (String.eqb_spec k x) as [-> | _]; [congruence |].
  cbn [negb]. rewrite IH by exact H2. reflexivity.
Qed.

Lemma dict_keys_del (k : string) (d : Connected) :
  NoDup (dict_keys d) ->
  dict_keys (dict_del k d) = List.filter (fun x => negb (String.eqb k x)) (dict_keys d).
Proof.
  induction d as [| [k' v'] d IH]; [reflexivity |].
  change (dict_keys ((k', v') :: d)) with (k' :: dict_keys d).
  intros Hnd. apply NoDup_cons in Hnd as [Hnotin Hnd].
  cbn [dict_del List.filter].
  destruct (String.eqb_spec k k') as [-> | Hne]; cbn [negb].
  - symmetry. apply filter_absent. exact Hnotin.
  - change (dict_keys ((k', v') :: dict_del k d)) with (k' :: dict_keys (dict_del k d)).
    rewrite IH by exact Hnd. reflexivity.
Qed.

Lemma NoDup_dict_set (k : string) (v : UserInfo) (d : Connected) :
  NoDup (dict_keys d) -> NoDup (dict_keys (dict_set k v d)).
Proof.
  intros Hnd. rewrite dict_keys_set.
  destruct (bool_decide (k ∈ dict_keys d)) eqn:E; [exact Hnd |].
  apply bool_decide_eq_false in E.
  apply NoDup_app. split; [exact Hnd |]. split.
  - intros x Hx Hk. apply list_elem_of_singleton in Hk as ->. exact (E Hx).
  - apply NoDup_singleton.
Qed.

Lemma NoDup_dict_del (k : string) (d : Connected) :
  NoDup (dict_keys d) -> NoDup (dict_keys (dict_del k d)).
Proof.
  intros Hnd. rewrite dict_keys_del by exact Hnd.
  apply NoDup_ListNoDup, List.NoDup_filter, NoDup_ListNoDup. exact Hnd.
Qed.

Lemma NoDup_presence_step (e : PresenceEvent) (d : Connected) :
  NoDup (dict_keys d) -> NoDup (dict_keys (presence_step e d)).
Proof.
  intros Hnd. destruct e as [session sid | sid]; simpl.
  - unfold handle_connect. destruct (session_user session); simpl; [| exact Hnd].
    apply NoDup_dict_set. exact Hnd.
  - unfold handle_disconnect. destruct (dict_get sid d); simpl; [| exact Hnd].
    apply NoDup_dict_del. exact Hnd.
Qed.

Lemma presence_step_keys (e : PresenceEvent) (d : Connected) (k : string) :
  NoDup (dict_keys d) ->
  (k ∈ dict_keys (presence_step e d) <->
   match e with
   | Connects session sid =>
       k ∈ dict_keys d \/ (k = sid /\ is_Some (session_user session))
   | Disconnects sid => k ∈ dict_keys d /\ k <> sid
   end).
Proof.
  intros Hnd. destruct e as [session sid | sid]; simpl.
  - unfold handle_connect. destruct (session_user session) as [claims |]; simpl.
    + rewrite dict_keys_set. destruct (bool_decide (sid ∈ dict_keys d)) eqn:E.
      * apply bool_decide_eq_true in E. split; [auto |].
        intros [H | [-> _]]; assumption.
      * rewrite elem_of_app, list_elem_of_singleton. split.
        -- intros [H | ->]; eauto.
        -- intros [H | [-> _]]; auto.
    + split; [auto |]. intros [H | [_ [x Hx]]]; [exact H | discriminate].
  - unfold handle_disconnect. destruct (dict_get sid d) as [u |] eqn:Hg; simpl.
    + rewrite dict_keys_del by exact Hnd.
      rewrite list_elem_of_In, List.filter_In, <- list_elem_of_In.
      rewrite negb_true_iff. destruct (String.eqb_spec sid k) as [-> | Hne].
      * split; [intros [_ H]; discriminate | intros [_ H]; congruence].
      * split; [intros [H _]; split; [exact H | congruence] | intros [H _]; auto].
    + apply dict_get_None in Hg. split; [| tauto].
      intros H. split; [exact H |]. intros ->. exact (Hg H).
Qed.

(** X9. Whatever clients connect and disconnect, in whatever order and with
    whatever connection ids, the table of the participants never holds two
    entries for one connection id, so the presence list has as many entries as
    there are open connections; a connection id is in the table after an
    event exactly when it was there and is not the one that closed, or is
    the one that an accepted connection brought. *)
Theorem presence_table_invariant (events : list PresenceEvent) :
  let d := presence_run events [] in
  NoDup (dict_keys d) /\
  length (dict_values d) = length (dict_keys d) /\
  (forall e k,
      k ∈ dict_keys (presence_step e d) <->
      match e with
      | Connects session sid =>
          k ∈ dict_keys d \/ (k = sid /\ is_Some (session_user session))
      | Disconnects sid => k ∈ dict_keys d /\ k <> sid
      end).
Proof.
  intros d.
  assert (NoDup (dict_keys d)) as Hnd.
  { unfold d, presence_run.
    assert (forall d0, NoDup (dict_keys d0) ->
                       NoDup (dict_keys (fold_left (fun d e => presence_step e d)
                                                   events d0))) as H.
    { induction events as [| e events IH]; intros d0 H0; simpl; [exact H0 |].
      apply IH, NoDup_presence_step, H0. }
    apply H. apply NoDup_nil. exact I. }
  split; [exact Hnd |]. split.
  - unfold dict_values, dict_keys. rewrite !length_map. reflexivity.
  - intros e k. apply presence_step_keys. exact Hnd.
Qed.

Lemma presence_table_invariant_witness :
  let d := presence_run [Connects Sample.session "a"; Connects Sample.session_2 "b";
                         Connects Sample.session "a"; Disconnects "b"] [] in
  "a" ∈ dict_keys (presence_step (Disconnects "b") d) <->
  "a" ∈ dict_keys d /\ "a" <> "b".
Proof.
  intros d.
  exact (proj2 (proj2 (presence_table_invariant
                         [Connects Sample.session "a"; Connects Sample.session_2 "b";
                          Connects Sample.session "a"; Disconnects "b"]))
           (Disconnects "b") "a").
Defined.

Lemma dict_get_app_fresh (k : string) (v : UserInfo) (d : Connected) :
  dict_get k d = None -> dict_get k (d ++ [(k, v)])%list = Some v.
Proof.
  induction d as [| [k' v'] d IH]; simpl.
  - intros _. rewrite String.eqb_refl. reflexivity.
  - destruct (String.eqb k k'); [discriminate | exact IH].
Qed.

Lemma dict_del_app_fresh (k : string) (v : UserInfo) (d : Connected) :
  dict_get k d = None -> dict_del k (d ++ [(k, v)])%list = d.
Proof.
  induction d as [| [k' v'] d IH]; simpl.
  - intros _. rewrite String.eqb_refl. reflexivity.
  - destruct (String.eqb k k'); [discriminate |]. intros H. rewrite IH by exact H.
    reflexivity.
Qed.

(** X10. A client that connects under a connection id that is not in the
    table and then disconnects leaves the table exactly as it was, and the
    others hear [user_left] for it exactly when they heard [user_joined]: the
    two events pair up, both being emitted when nobody else has the email and
    neither otherwise. *)
Theorem connect_disconnect_round_trip (session : Session) (claims : Claims)
    (sid : string) (connected_users : Connected) :
  session_user session = Some claims ->
  dict_get sid connected_users = None ->
  let r1 := handle_connect session sid connected_users in
  let r2 := handle_disconnect sid (snd (fst r1)) in
  fst r2 = connected_users /\
  count_events "user_joined" (snd r1) = count_events "user_left" (snd r2) /\
  (count_events "user_left" (snd r2) =
   if email_connected (user_of session claims) connected_users then O else 1%nat) /\
  (forall e, e ∈ snd r2 -> event e = "user_left" ->
             payload e = OneUser (user_of session claims)).
Proof.
  intros Hu Hfresh r1 r2.
  pose proof (handle_connect_accepted session claims sid connected_users Hu) as E1.
  cbv zeta in E1. fold r1 in E1.
  rewrite (dict_set_fresh sid _ connected_users Hfresh) in E1.
  assert (snd (fst r1) = (connected_users ++ [(sid, user_of session claims)])%list) as Hc
    by (rewrite E1; reflexivity).
  pose proof (handle_disconnect_participant sid (user_of session claims) (snd (fst r1))) as E2.
  rewrite Hc in E2 at 1.
  specialize (E2 (dict_get_app_fresh sid _ connected_users Hfresh)).
  cbv zeta in E2. fold r2 in E2. rewrite Hc in E2.
  rewrite (dict_del_app_fresh sid _ connected_users Hfresh) in E2.
  rewrite E1, E2. cbn [fst snd].
  destruct (email_connected (user_of session claims) connected_users).
  - repeat split. intros e He Hev.
    apply list_elem_of_singleton in He. subst e. discriminate.
  - repeat split. intros e He Hev.
    apply elem_of_cons in He as [-> | He]; [reflexivity |].
    apply list_elem_of_singleton in He. subst e. discriminate.
Qed.

Lemma connect_disconnect_round_trip_witness :
  let d := snd (fst (handle_connect Sample.session_2 "sid-0" [])) in
  fst (handle_disconnect "sid-1" (snd (fst (handle_connect Sample.session "sid-1" d)))) = d.
Proof.
  intros d.
  refine (proj1 (connect_disconnect_round_trip Sample.session
                   (mkClaims (Some "Ana") (Some "ana@prodato.com.py")) "sid-1" d
                   eq_refl _)).
  reflexivity.
Defined.

(** ** The requests of the worker *)

Lemma count_status_ok_le (env : PatchEnv) (i n : nat) :
  (count_status_ok env i n <= n)%nat.
Proof.
  revert i. induction n as [| n IH]; intros i; cbn [count_status_ok]; [lia |].
  specialize (IH (S i)).
  destruct (status_answer env i) as [code |]; [destruct (code =? 200)%Z |]; lia.
Qed.

Lemma patch_worker_steps (env : PatchEnv) (item_ids : list PyVal)
    (status modifier_name : PyVal) (source : string) (w : World) :
  snd (_patch_worker env item_ids status modifier_name source w) =
    if connection_details source (_authenticate (patch_auth env) w)
    then (Printed (StartingPatch (length item_ids)) ::
          patch_items env status modifier_name 0 item_ids ++ [Printed PatchFinished])%list
    else [Printed CannotPatch].
Proof.
  unfold _patch_worker.
  destruct (connection_details source (_authenticate (patch_auth env) w)); reflexivity.
Qed.

Lemma count_patches_worker (field : string) (n : nat) (steps : list WorkerStep) :
  count_patches field
    (Printed (StartingPatch n) :: steps ++ [Printed PatchFinished])%list
  = count_patches field steps.
Proof.
  change (Printed (StartingPatch n) :: steps ++ [Printed PatchFinished])%list
    with ([Printed (StartingPatch n)] ++ steps ++ [Printed PatchFinished])%list.
  rewrite !count_patches_app. cbn. lia.
Qed.

(** X11. The worker changes nothing of the cache: neither a table, nor a
    timestamp, nor the file. Without a token, a site id or the id of the
    list it makes no request at all. In every case it sends at most one
    status patch per item of the batch and never more attribution patches
    than status patches; without a modifier name it sends no attribution
    patch. *)
Theorem patch_worker_requests (env : PatchEnv) (item_ids : list PyVal)
    (status modifier_name : PyVal) (source : string) (w : World) :
  let r := _patch_worker env item_ids status modifier_name source w in
  same_cache w (fst r) /\
  (connection_details source (_authenticate (patch_auth env) w) = false ->
   snd r = [Printed CannotPatch] /\
   forall field, count_patches field (snd r) = O) /\
  (count_patches "ModificadoPor" (snd r) <= count_patches "REVISADO" (snd r)
   <= length item_ids)%nat /\
  (py_truthy modifier_name = false -> count_patches "ModificadoPor" (snd r) = O).
Proof.
  intros r.
  assert (same_cache w (fst r)) as Hsame.
  { unfold r, _patch_worker. destruct (negb _); simpl; apply same_cache_authenticate. }
  split; [exact Hsame |].
  unfold r. rewrite patch_worker_steps.
  destruct (connection_details source (_authenticate (patch_auth env) w)).
  - split; [discriminate |].
    rewrite !count_patches_worker, count_status_patches, count_attribution_patches.
    pose proof (count_status_ok_le env 0 (length item_ids)) as Hle.
    split.
    + destruct (py_truthy modifier_name); lia.
    + intros ->. reflexivity.
  - split; [intros _; split; [reflexivity | intros field; reflexivity] |].
    split; [cbn; lia | reflexivity].
Qed.

Lemma patch_worker_requests_witness :
  snd (_patch_worker (mkPatchEnv None (fun _ => Throws) (fun _ => Throws))
         [PStr "1"; PStr "2"] (PStr "REVISADO") (PStr "Ana") "OTRA" Sample.world)
  = [Printed CannotPatch].
Proof.
  refine (proj1 (proj1 (proj2
            (patch_worker_requests (mkPatchEnv None (fun _ => Throws) (fun _ => Throws))
               [PStr "1"; PStr "2"] (PStr "REVISADO") (PStr "Ana") "OTRA"
               Sample.world)) _)).
  reflexivity.
Defined.

Lemma patch_items_status (env : PatchEnv) (status modifier_name : PyVal)
    (item_ids : list PyVal) (i : nat) (item_id : PyVal) :
  item_id ∈ item_ids ->
  PatchField (py_str item_id) "REVISADO" status
    ∈ patch_items env status modifier_name i item_ids.
Proof.
  revert i. induction item_ids as [| x ids IH]; intros i H; [inversion H |].
  cbn [patch_items]. apply elem_of_app.
  apply elem_of_cons in H as [-> | H].
  - left. unfold patch_item. apply elem_of_cons. left. reflexivity.
  - right. apply IH. exact H.
Qed.

(** X12. A request to [POST /api/update] from a signed-in user with at least
    one id starts a worker for exactly the ids, the status and the dataset of
    the request, attributed to the name of the user, whether or not any
    cached row matched and whether or not the dataset exists; a connected
    worker run on that job sends, for every id of the request, a patch that
    sets [REVISADO] of that item to the status that was written locally. The
    monitor is woken exactly when the answer is a success. *)
Theorem update_status_dispatch (get_formatted_date : DataFrame -> string)
    (session : Session) (claims : Claims) (data : UpdateBody) (env : EditEnv)
    (w : World) (ids : list PyVal) :
  session_user session = Some claims ->
  body_ids data = Some ids ->
  ids <> [] ->
  let h := snd (update_status get_formatted_date session data env w) in
  let status := default (PStr "REVISADO") (body_status data) in
  let source := default "IPS" (body_source data) in
  let modifier_name := PStr (default "Usuario" (claim_name claims)) in
  spawned h = Some (mkPatchJob ids status modifier_name source) /\
  fst (update_status get_formatted_date session data env w)
    = update_status_by_ids env ids status modifier_name source w /\
  (forall penv w' item_id,
      connection_details source (_authenticate (patch_auth penv) w') = true ->
      item_id ∈ ids ->
      PatchField (py_str item_id) "REVISADO" status
        ∈ snd (_patch_worker penv ids status modifier_name source w')) /\
  (monitor_event_set h = true <-> exists n s, response h = Success200 n s) /\
  (forall n s, response h = Success200 n s -> is_Some (dfs w !! source)).
Proof.
  intros Hu Hi Hne h status source modifier_name.
  assert (update_status get_formatted_date session data env w =
          (update_status_by_ids env ids status modifier_name source w,
           match dfs (update_status_by_ids env ids status modifier_name source w)
                 !! source with
           | None => mkHandled ServerError500
                       (Some (mkPatchJob ids status modifier_name source)) false
           | Some d => mkHandled (Success200 (length ids) (get_formatted_date d))
                         (Some (mkPatchJob ids status modifier_name source)) true
           end)) as E.
  { unfold update_status. rewrite Hu, Hi. cbn [default from_option].
    destruct ids as [| x ids']; [congruence |].
    fold status. fold source. fold modifier_name.
    destruct (dfs _ !! source); reflexivity. }
  unfold h. rewrite E. cbn [fst snd].
  split; [destruct (dfs _ !! source); reflexivity |]. split; [reflexivity |]. split.
  { intros penv w' item_id Hc Hin. rewrite patch_worker_steps, Hc.
    apply elem_of_cons. right. apply elem_of_app. left.
    apply patch_items_status. exact Hin. }
  destruct (dfs (update_status_by_ids env ids status modifier_name source w) !! source)
    as [d |] eqn:Hd; cbn.
  - split; [split; eauto |]. intros n s _.
    destruct (dfs w !! source) as [d0 |] eqn:Hd0; [eauto |].
    rewrite update_status_by_ids_no_match in Hd by (intros; congruence). congruence.
  - split; [split; [discriminate | intros (n & s & H); discriminate] |].
    intros n s H. discriminate.
Qed.

Lemma update_status_dispatch_witness :
  spawned (snd (update_status Sample.date Sample.session
                  (mkUpdateBody (Some [PInt 7%Z]) None None) Sample.edit Sample.world))
  = Some (mkPatchJob [PInt 7%Z] (PStr "REVISADO") (PStr "Ana") "IPS").
Proof.
  refine (proj1 (update_status_dispatch Sample.date Sample.session
            (mkClaims (Some "Ana") (Some "ana@prodato.com.py"))
            (mkUpdateBody (Some [PInt 7%Z]) None None) Sample.edit Sample.world
            [PInt 7%Z] _ _ _)).
  - reflexivity.
  - reflexivity.
  - discriminate.
Defined.

(** ** The date shown with the data *)

Lemma series_max_spec (x : Q) (col : list Q) :
  series_max x col ∈ x :: col /\
  forall y, y ∈ x :: col -> (y <= series_max x col)%Q.
Proof.
  unfold series_max. revert x. induction col as [| z col IH]; intros x; cbn [fold_left].
  - split; [apply elem_of_cons; left; reflexivity |].
    intros y Hy. apply list_elem_of_singleton in Hy as ->. lra.
  - destruct (IH (if Qlt_bool x z then z else x)) as [Hin Hmax].
    split.
    + apply elem_of_cons in Hin as [-> | Hin].
      * destruct (Qlt_bool x z); [right; left | left]; reflexivity.
      * right. right. exact Hin.
    + intros y Hy.
      assert (x <= fold_left (fun m y => if Qlt_bool m y then y else m) col
                     (if Qlt_bool x z then z else x) /\
              z <= fold_left (fun m y => if Qlt_bool m y then y else m) col
                     (if Qlt_bool x z then z else x))%Q as [Hx Hz].
      { pose proof (Hmax _ ltac:(left; reflexivity)) as H0.
        destruct (Qlt_bool x z) eqn:E.
        - apply Qlt_bool_true in E. split; lra.
        - apply Qlt_bool_false in E. split; lra. }
      apply elem_of_cons in Hy as [-> | Hy]; [exact Hx |].
      apply elem_of_cons in Hy as [-> | Hy]; [exact Hz |].
      apply Hmax. right. exact Hy.
Qed.

Lemma elem_of_dropna (m : Q) (rows : list Row) :
  m ∈ dropna (map Modified rows) <-> exists r, r ∈ rows /\ Modified r = Some m.
Proof.
  unfold dropna. rewrite list_elem_of_omap. split.
  - intros (o & Ho & E). apply list_elem_of_fmap in Ho as (r & -> & Hr).
    exists r. split; [exact Hr | exact E].
  - intros (r & Hr & E). exists (Modified r). split; [| exact E].
    apply list_elem_of_fmap. exists r. split; [reflexivity | exact Hr].
Qed.

(** X13. The date shown with a table is [Desconocido] exactly when no row of
    it has a valid time of modification (in particular for a table without
    rows or without columns); otherwise it is the rendering of the time of
    one of its rows, and no row has a later one. *)
Theorem get_formatted_date_latest (render : Q -> string) (df : DataFrame) :
  (get_formatted_date render df = "Desconocido" /\
   forall r, r ∈ df_rows df -> Modified r = None) \/
  (exists r m, r ∈ df_rows df /\ Modified r = Some m /\
               get_formatted_date render df = render m /\
               forall r' m', r' ∈ df_rows df -> Modified r' = Some m' -> (m' <= m)%Q).
Proof.
  unfold get_formatted_date.
  destruct df as [| rows]; [left; split; [reflexivity | intros r H; inversion H] |].
  destruct rows as [| r0 rows]; [left; split; [reflexivity | intros r H; inversion H] |].
  cbn [df_empty negb df_rows].
  destruct (dropna (map Modified (r0 :: rows))) as [| x valid] eqn:E.
  - left. split; [reflexivity |]. intros r Hr.
    destruct (Modified r) as [m |] eqn:Em; [| reflexivity].
    assert (m ∈ dropna (map Modified (r0 :: rows))) as H
      by (apply elem_of_dropna; eauto).
    rewrite E in H. inversion H.
  - right. destruct (series_max_spec x valid) as [Hin Hmax].
    rewrite <- E in Hin. apply elem_of_dropna in Hin as (r & Hr & Em).
    exists r, (series_max x valid). repeat split; [exact Hr | exact Em |].
    intros r' m' Hr' Em'. apply Hmax. rewrite <- E. apply elem_of_dropna. eauto.
Qed.

Lemma series_max_eq (s x : Q) (col : list Q) :
  (forall y, y ∈ x :: col -> y = s \/ (y < s)%Q) ->
  s ∈ x :: col ->
  series_max x col = s.
Proof.
  unfold series_max. revert x. induction col as [| z col IH]; intros x Hall Hin.
  - apply list_elem_of_singleton in Hin. symmetry. exact Hin.
  - cbn [fold_left].
    pose proof (Hall x ltac:(left; reflexivity)) as Hx.
    pose proof (Hall z ltac:(right; left; reflexivity)) as Hz.
    apply IH.
    + intros y Hy. apply elem_of_cons in Hy as [-> | Hy].
      * destruct (Qlt_bool x z); assumption.
      * apply Hall. right. right. exact Hy.
    + apply elem_of_cons in Hin as [-> | Hin].
      * destruct (Qlt_bool x z) eqn:E; [| left; reflexivity].
        apply Qlt_bool_true in E. destruct Hz as [-> | Hz]; [left; reflexivity |].
        exfalso. lra.
      * apply elem_of_cons in Hin as [-> | Hin]; [| right; exact Hin].
        destruct (Qlt_bool x z) eqn:E; [left; reflexivity |].
        apply Qlt_bool_false in E. destruct Hx as [-> | Hx]; [left; reflexivity |].
        exfalso. lra.
Qed.

Lemma Modified_edit_row (env : EditEnv) (status modifier : PyVal) (r : Row) :
  Modified (edit_row env status modifier r) = Some (edit_stamp env).
Proof. unfold edit_row. destruct (py_truthy modifier); reflexivity. Qed.

(** X14. When a signed-in user marks rows of a cached table and at least one
    row matches, and every row that is not marked has no time of modification
    or one before the stamp of the edit, then the answer of
    [POST /api/update] is a success that counts the submitted ids and shows
    the stamp of the edit as the date of the last update. *)
Theorem update_status_reports_edit (render : Q -> string) (session : Session)
    (claims : Claims) (data : UpdateBody) (env : EditEnv) (w : World)
    (ids : list PyVal) (rows : list Row) :
  session_user session = Some claims ->
  body_ids data = Some ids ->
  dfs w !! default "IPS" (body_source data) = Some (Table rows) ->
  existsb (isin (map py_str ids)) rows = true ->
  (forall r m, r ∈ rows -> isin (map py_str ids) r = false ->
               Modified r = Some m -> (m < edit_stamp env)%Q) ->
  response (snd (update_status (get_formatted_date render) session data env w))
  = Success200 (length ids) (render (edit_stamp env)).
Proof.
  intros Hu Hi Hd Hm Hold.
  set (status := default (PStr "REVISADO") (body_status data)).
  set (modifier_name := PStr (default "Usuario" (claim_name claims))).
  set (source := default "IPS" (body_source data)) in *.
  set (new_rows := map (fun r => if isin (map py_str ids) r
                                 then edit_row env status modifier_name r else r) rows).
  destruct (update_status_by_ids_match env ids status modifier_name source w rows Hd Hm)
    as (Hdfs & _).
  assert (ids <> []) as Hne.
  { intros ->. apply existsb_exists in Hm as (r & _ & Hr).
    unfold isin in Hr. apply bool_decide_eq_true in Hr. inversion Hr. }
  assert (update_status (get_formatted_date render) session data env w =
          (update_status_by_ids env ids status modifier_name source w,
           mkHandled (Success200 (length ids)
                        (get_formatted_date render (Table new_rows)))
                     (Some (mkPatchJob ids status modifier_name source)) true)) as ->.
  { unfold update_status. rewrite Hu, Hi.
    destruct ids as [| i0 ids']; [congruence |].
    change (default [] (Some (i0 :: ids'))) with (i0 :: ids').
    cbv zeta. fold status. fold modifier_name. fold source.
    rewrite Hdfs, lookup_insert_eq. reflexivity. }
  cbn [snd response]. f_equal.
  assert (forall m, m ∈ dropna (map Modified new_rows) ->
                    m = edit_stamp env \/ (m < edit_stamp env)%Q) as Hall.
  { intros m Hin. apply elem_of_dropna in Hin as (r' & Hr' & Em).
    unfold new_rows in Hr'. apply list_elem_of_fmap in Hr' as (r & -> & Hr).
    destruct (isin (map py_str ids) r) eqn:E.
    - rewrite Modified_edit_row in Em. left. congruence.
    - right. eapply Hold; eassumption. }
  assert (edit_stamp env ∈ dropna (map Modified new_rows)) as Hin.
  { apply existsb_exists in Hm as (r & Hr & E). apply elem_of_dropna.
    exists (edit_row env status modifier_name r). split.
    - unfold new_rows. apply list_elem_of_fmap. exists r.
      rewrite E. split; [reflexivity | apply list_elem_of_In; exact Hr].
    - apply Modified_edit_row. }
  unfold get_formatted_date.
  assert (df_empty (Table new_rows) = false) as ->.
  { destruct new_rows; [inversion Hin | reflexivity]. }
  cbn [negb df_rows].
  destruct (dropna (map Modified new_rows)) as [| x valid]; [inversion Hin |].
  f_equal. apply series_max_eq; assumption.
Qed.

Lemma update_status_reports_edit_witness :
  response (snd (update_status (get_formatted_date (fun _ => "hoy")) Sample.session
                   (mkUpdateBody (Some [PInt 55%Z]) None None) Sample.edit
                   Sample.world))
  = Success200 1 "hoy".
Proof.
  refine (update_status_reports_edit (fun _ => "hoy") Sample.session
            (mkClaims (Some "Ana") (Some "ana@prodato.com.py"))
            (mkUpdateBody (Some [PInt 55%Z]) None None) Sample.edit Sample.world
            [PInt 55%Z] [Sample.row "55" "PENDIENTE"] _ _ _ _ _).
  - reflexivity.
  - reflexivity.
  - vm_compute. reflexivity.
  - vm_compute. reflexivity.
  - intros r m Hr. apply list_elem_of_singleton in Hr as ->. vm_compute. discriminate.
Defined.

(** ** The badges of the report *)

Lemma bad_state_badge (v : PyVal) :
  in_bad_states v = true -> snd (format_badge_text v) = Some badge_danger.
Proof.
  destruct v as [s | z | b |]; cbn [in_bad_states]; try discriminate.
  intros H. apply bool_decide_eq_true in H. unfold bad_states in H.
  repeat (apply elem_of_cons in H as [-> | H]; [vm_compute; reflexivity |]).
  inversion H.
Qed.

(** X15. Every row that [export_pdf] puts in the section of inconsistencies
    of a report is drawn with at least one red badge: a value of an audit
    column that is one of the bad states never gets a green or blue badge
    or a plain cell. *)
Theorem inconsistent_rows_show_danger (row : Row) :
  is_inconsistent row = true ->
  exists b, b ∈ audit_badges row /\ snd b = Some badge_danger.
Proof.
  unfold is_inconsistent, audit_badges. intros H.
  apply orb_true_iff in H as [H | H]; [apply orb_true_iff in H as [H | H] |].
  - exists (format_badge_text (AUD_ENTRADA row)).
    split; [right; left | apply bad_state_badge; exact H].
  - exists (format_badge_text (AUD_ESTADO row)).
    split; [left | apply bad_state_badge; exact H].
  - exists (format_badge_text (AUD_SALIDA row)).
    split; [right; right; left | apply bad_state_badge; exact H].
Qed.

Lemma inconsistent_rows_show_danger_witness :
  exists b, b ∈ audit_badges (Sample.row "55" "PENDIENTE") /\
            snd b = Some badge_danger.
Proof.
  apply (inconsistent_rows_show_danger (Sample.row "55" "PENDIENTE")).
  vm_compute. reflexivity.
Defined.

(** The converse does not hold: a value in lower case gets a red badge
    although the row is not counted as an inconsistency. *)
Example red_badge_not_counted :
  let row := mkRow 1 (PStr "1") None (PStr "") (PStr "")
               (PStr "COINCIDE") (PStr "no_coincide") (PStr "COINCIDE") [] in
  is_inconsistent row = false /\
  format_badge_text (AUD_ESTADO row) = ("No Coincide", Some badge_danger).
Proof. vm_compute. split; reflexivity. Qed.

(** ** The access list *)

Section AccessListFacts.

Variable lower : string -> string.
Variable strip : string -> string.

(** What is used of [str.lower]: lower-casing gives the empty string from the
    empty string only. *)
Hypothesis lower_empty : forall s, lower s = "" <-> s = "".

Lemma str_truthy_true (s : string) : str_truthy s = true <-> s <> "".
Proof.
  unfold str_truthy. rewrite negb_true_iff.
  destruct (String.eqb_spec s ""); split; congruence.
Qed.

Lemma listed_cons_skip (item : WhitelistItem) (items : list WhitelistItem)
    (e : WhitelistEntry) :
  py_truthy (default (PStr "") (wl_correo item)) = false ->
  listed lower (item :: items) e <-> listed lower items e.
Proof.
  intros Hf. split.
  - intros (item' & s & Hin & Hid & Hc & Hs & He).
    apply elem_of_cons in Hin as [-> | Hin].
    + rewrite Hc in Hf. cbn in Hf. apply negb_false_iff in Hf.
      apply String.eqb_eq in Hf. contradiction.
    + exists item', s. auto.
  - intros (item' & s & Hin & H). exists item', s. split; [right; exact Hin | exact H].
Qed.

Lemma whitelist_emails_ok (items : list WhitelistItem) (acc : list WhitelistEntry) :
  forallb well_formed_item items = true ->
  exists res, whitelist_emails lower items acc = Ok (acc ++ res)%list /\
              forall e, e ∈ res <-> listed lower items e.
Proof.
  revert acc. induction items as [| item items IH]; intros acc Hwf.
  - exists []. rewrite app_nil_r. split; [reflexivity |].
    intros e. split; [intros H; inversion H |].
    intros (item & s & Hin & _). inversion Hin.
  - cbn [forallb] in Hwf. apply andb_true_iff in Hwf as [Hitem Hwf].
    cbn [whitelist_emails]. unfold well_formed_item in Hitem.
    destruct (py_truthy (default (PStr "") (wl_correo item))) eqn:Ht.
    + destruct (wl_id item) as [i |] eqn:Hid; [| discriminate].
      destruct (wl_correo item) as [[s | | |] |] eqn:Hc; try discriminate.
      cbn [default from_option id].
      destruct (IH (acc ++ [mkWhitelistEntry i (lower s)])%list Hwf) as (res & E & Hres).
      exists (mkWhitelistEntry i (lower s) :: res). split.
      * rewrite E, <- app_assoc. reflexivity.
      * intros e. rewrite elem_of_cons, Hres. split.
        -- intros [-> | (item' & s' & Hin & H)].
           ++ exists item, s. cbn in Ht. apply negb_true_iff in Ht.
              apply String.eqb_neq in Ht.
              repeat split; [left | exact Hid | exact Hc | exact Ht].
           ++ exists item', s'. split; [right; exact Hin | exact H].
        -- intros (item' & s' & Hin & Hid' & Hc' & Hs & He).
           apply elem_of_cons in Hin as [-> | Hin].
           ++ left. destruct e as [i' m']. cbn in *. congruence.
           ++ right. exists item', s'. auto.
    + destruct (IH acc Hwf) as (res & E & Hres). exists res. split; [exact E |].
      intros e. rewrite Hres. symmetry. apply listed_cons_skip. exact Ht.
Qed.

Lemma whitelist_emails_raise (items : list WhitelistItem) (acc : list WhitelistEntry) :
  forallb well_formed_item items = false ->
  exists x, whitelist_emails lower items acc = Raise x.
Proof.
  revert acc. induction items as [| item items IH]; intros acc Hwf; [discriminate |].
  cbn [forallb] in Hwf. cbn [whitelist_emails]. unfold well_formed_item in Hwf.
  destruct (py_truthy (default (PStr "") (wl_correo item))) eqn:Ht.
  - destruct (wl_id item) as [i |]; [| eauto].
    destruct (wl_correo item) as [[s | | |] |]; cbn [default from_option id]; eauto.
    discriminate.
  - apply IH. exact Hwf.
Qed.

Lemma listed_email (items : list WhitelistItem) (e : WhitelistEntry) :
  listed lower items e -> entry_email e <> "".
Proof.
  intros (item & s & _ & _ & _ & Hs & ->). rewrite lower_empty. exact Hs.
Qed.

Lemma same_cache_get_whitelist (env : WhitelistEnv) (w : World) :
  same_cache w (fst (get_whitelist lower env w)).
Proof.
  unfold get_whitelist.
  set (w1 := if negb (str_truthy (access_token w)) || negb (opt_truthy (site_id w))
             then _ else w).
  assert (same_cache w w1) as H1.
  { unfold w1. destruct (negb (str_truthy (access_token w)) || negb (opt_truthy (site_id w))).
    - eapply same_cache_trans; [apply same_cache_authenticate |].
      eapply same_cache_trans; [apply same_cache_get_site_id |].
      apply same_cache_get_list_ids.
    - apply same_cache_refl. }
  set (w2 := if opt_truthy (list_ids w1 !! "WHITELIST") then w1 else _).
  assert (same_cache w w2) as H2.
  { unfold w2. destruct (opt_truthy (list_ids w1 !! "WHITELIST")); [exact H1 |].
    eapply same_cache_trans; [exact H1 | apply same_cache_get_list_ids]. }
  destruct (opt_truthy (list_ids w2 !! "WHITELIST")); [| exact H2].
  destruct (wl_items env) as [items |]; [| exact H2].
  destruct (whitelist_emails lower items []); exact H2.
Qed.

(** What [get_whitelist] returns, by the answer of the service. *)
Lemma get_whitelist_cases (env : WhitelistEnv) (w : World) :
  let r := get_whitelist lower env w in
  (snd r = [] /\
   (opt_truthy (list_ids (fst r) !! "WHITELIST") = false \/
    wl_items env = None \/
    exists items, wl_items env = Some items /\
                  forallb well_formed_item items = false)) \/
  (exists items, wl_items env = Some items /\
                 forallb well_formed_item items = true /\
                 opt_truthy (list_ids (fst r) !! "WHITELIST") = true /\
                 forall e, e ∈ snd r <-> listed lower items e).
Proof.
  unfold get_whitelist.
  set (w1 := if negb (str_truthy (access_token w)) || negb (opt_truthy (site_id w))
             then _ else w).
  set (w2 := if opt_truthy (list_ids w1 !! "WHITELIST") then w1 else _).
  cbv zeta.
  destruct (opt_truthy (list_ids w2 !! "WHITELIST")) eqn:Hl;
    [| left; split; [reflexivity | left; exact Hl]].
  destruct (wl_items env) as [items |];
    [| left; split; [reflexivity | right; left; reflexivity]].
  destruct (forallb well_formed_item items) eqn:Hwf.
  - right. destruct (whitelist_emails_ok items [] Hwf) as (res & E & Hres).
    rewrite E. exists items. repeat split; try assumption; apply Hres.
  - left. destruct (whitelist_emails_raise items [] Hwf) as (x & E).
    rewrite E. split; [reflexivity |]. right. right. exists items. split; [reflexivity | exact Hwf].
Qed.

(** X16. [get_whitelist] changes nothing of the cache of the datasets.
    Every entry it returns stands for an item of the answer of the service
    that has an id and a non-empty address, and carries the [lower()] of
    that address, which is not empty. It returns all of them when the list
    is known and every item of the answer can be read; it returns the empty
    list when the service does not answer with 200, and also when a single
    item with an address lacks its id or has an address that is no
    string. *)
Theorem get_whitelist_entries (env : WhitelistEnv) (w : World) :
  let r := get_whitelist lower env w in
  same_cache w (fst r) /\
  (forall e, e ∈ snd r ->
     (exists items, wl_items env = Some items /\ listed lower items e) /\
     entry_email e <> "") /\
  (wl_items env = None -> snd r = []) /\
  (forall items, wl_items env = Some items ->
     forallb well_formed_item items = false -> snd r = []) /\
  (forall items, wl_items env = Some items ->
     forallb well_formed_item items = true ->
     opt_truthy (list_ids (fst r) !! "WHITELIST") = true ->
     forall e, listed lower items e -> e ∈ snd r).
Proof.
  intros r. split; [apply same_cache_get_whitelist |].
  destruct (get_whitelist_cases env w) as [(He & Hc) | (items & Hi & Hwf & Hl & Hres)];
    fold r in He || fold r in Hres, Hl.
  - rewrite He. split; [intros e H; inversion H |].
    split; [reflexivity |]. split; [reflexivity |].
    intros items Hi Hwf Hl e _.
    exfalso. unfold r in Hl.
    destruct Hc as [Hc | [Hc | (items' & Hc & Hwf')]]; congruence.
  - split.
    { intros e He. apply Hres in He. split; [eauto |]. eapply listed_email; eassumption. }
    split; [congruence |]. split; [intros items' Hi'; congruence |].
    intros items' Hi' _ _ e He. apply Hres. congruence.
Qed.

Lemma authorized_with_token (claims : Claims) (env : WhitelistEnv) (w : World) :
  authorized lower (with_token claims) env w =
    (fst (get_whitelist lower env w),
     if negb (bool_decide (login_email lower claims ∈ ADMIN_EMAILS)) &&
        negb (bool_decide (login_email lower claims
                             ∈ map entry_email (snd (get_whitelist lower env w))))
     then AccessDenied
     else RedirectIndex (Some (claims, bool_decide (login_email lower claims ∈ ADMIN_EMAILS)))).
Proof.
  unfold authorized, with_token, login_email. cbn [state_matches has_error has_code
    token_claims negb].
  destruct (get_whitelist lower env w) as [w' items]. cbn [fst snd].
  destruct (negb _ && negb _); reflexivity.
Qed.

Lemma allowed_grants (env : WhitelistEnv) (w : World) (email : string) :
  email ∈ map entry_email (snd (get_whitelist lower env w)) ->
  email <> "" /\ exists items, wl_items env = Some items /\ grants lower items email.
Proof.
  intros Hin. apply list_elem_of_fmap in Hin as (e & -> & He).
  destruct (get_whitelist_cases env w) as [(Hnil & _) | (items & Hi & _ & _ & Hres)].
  - rewrite Hnil in He. inversion He.
  - apply Hres in He. split; [eapply listed_email; eassumption |].
    exists items. split; [exact Hi |].
    destruct He as (item & s & Hitem & _ & Hc & Hs & E).
    exists item, s. auto.
Qed.

Lemma grants_allowed (env : WhitelistEnv) (w : World) (email : string)
    (items : list WhitelistItem) :
  wl_items env = Some items ->
  forallb well_formed_item items = true ->
  opt_truthy (list_ids (fst (get_whitelist lower env w)) !! "WHITELIST") = true ->
  grants lower items email ->
  email ∈ map entry_email (snd (get_whitelist lower env w)).
Proof.
  intros Hi Hwf Hl (item & s & Hitem & Hc & Hs & E).
  destruct (get_whitelist_cases env w)
    as [(_ & [Hc' | [Hc' | (items' & Hc' & Hwf')]]) | (items' & Hi' & _ & _ & Hres)];
    try congruence.
  assert (items' = items) as -> by congruence.
  pose proof (proj1 (forallb_forall _ _) Hwf item
                (proj1 (list_elem_of_In _ _) Hitem)) as Hitem_wf.
  unfold well_formed_item in Hitem_wf. rewrite Hc in Hitem_wf.
  cbn [default from_option id py_truthy] in Hitem_wf.
  assert (negb (String.eqb s "") = true) as Ht
    by (apply negb_true_iff, String.eqb_neq; exact Hs).
  rewrite Ht in Hitem_wf.
  destruct (wl_id item) as [i |] eqn:Hid; [| discriminate].
  apply list_elem_of_fmap. exists (mkWhitelistEntry i (lower s)).
  split; [symmetry; exact E |].
  apply Hres. exists item, s. auto.
Qed.

(** X17. The access check of [authorized], for a request that brings the
    claims of a token. It changes nothing of the cache. An administrator is
    let in whatever the service of the access list answers. Anyone else is
    either let in without the admin flag or refused with the session
    cleared; they are let in only if the answer of the service has an item
    whose address has the same [lower()] as theirs, and they are let in
    whenever it has one, the list is known and every item can be read. A
    token without user name is refused, and two tokens whose addresses have
    the same [lower()] get the same decision. *)
Theorem authorized_access (claims : Claims) (env : WhitelistEnv) (w : World) :
  let r := authorized lower (with_token claims) env w in
  let denied := AccessDenied in
  let admitted := RedirectIndex (Some (claims, false)) in
  same_cache w (fst r) /\
  (login_email lower claims ∈ ADMIN_EMAILS -> snd r = RedirectIndex (Some (claims, true))) /\
  (login_email lower claims ∉ ADMIN_EMAILS -> snd r = denied \/ snd r = admitted) /\
  (login_email lower claims ∉ ADMIN_EMAILS -> snd r = admitted ->
     exists items, wl_items env = Some items /\ grants lower items (login_email lower claims)) /\
  (forall items,
     wl_items env = Some items -> forallb well_formed_item items = true ->
     opt_truthy (list_ids (fst r) !! "WHITELIST") = true ->
     grants lower items (login_email lower claims) ->
     snd r <> denied) /\
  (preferred_username claims = None -> snd r = denied) /\
  (forall claims', login_email lower claims' = login_email lower claims ->
     (snd (authorized lower (with_token claims') env w) = denied <-> snd r = denied)).
Proof.
  intros r denied admitted. unfold r, denied, admitted.
  rewrite authorized_with_token. cbn [fst snd].
  split; [apply same_cache_get_whitelist |].
  split.
  { intros Ha. rewrite (bool_decide_eq_true_2 _ Ha). reflexivity. }
  split.
  { intros Ha. rewrite (bool_decide_eq_false_2 _ Ha). cbn [negb andb].
    destruct (bool_decide _); cbn [negb]; auto. }
  split.
  { intros Ha. rewrite (bool_decide_eq_false_2 _ Ha). cbn [negb andb].
    destruct (bool_decide (login_email lower claims
                ∈ map entry_email (snd (get_whitelist lower env w)))) eqn:E;
      cbn [negb]; [intros _ | discriminate].
    apply bool_decide_eq_true in E. apply allowed_grants in E as [_ E]. exact E. }
  split.
  { intros items Hi Hwf Hl Hg.
    pose proof (grants_allowed env w _ items Hi Hwf Hl Hg) as Hin.
    rewrite (bool_decide_eq_true_2 _ Hin). cbn [negb]. rewrite andb_false_r.
    discriminate. }
  split.
  { intros Hn. unfold login_email. rewrite Hn. cbn [default from_option id].
    rewrite (proj2 (lower_empty "") eq_refl).
    assert (bool_decide ("" ∈ ADMIN_EMAILS) = false) as -> by (vm_compute; reflexivity).
    destruct (bool_decide ("" ∈ map entry_email (snd (get_whitelist lower env w)))) eqn:E;
      [| reflexivity].
    apply bool_decide_eq_true in E. apply allowed_grants in E as [E _]. congruence. }
  intros claims' E. rewrite authorized_with_token. cbn [snd]. rewrite E.
  destruct (negb _ && negb _); split; congruence.
Qed.

(** ** Managing the users *)

Lemma existsb_entry_email (email : string) (current : list WhitelistEntry) :
  existsb (fun u => String.eqb (entry_email u) email) current = true <->
  email ∈ map entry_email current.
Proof.
  rewrite existsb_exists, list_elem_of_fmap. split.
  - intros (u & Hu & E). apply String.eqb_eq in E. exists u.
    split; [symmetry; exact E | apply list_elem_of_In; exact Hu].
  - intros (u & -> & Hu). exists u.
    split; [apply list_elem_of_In; exact Hu | apply String.eqb_refl].
Qed.

Lemma add_to_whitelist_result (env : ListWriteEnv) (email : string) (w : World) :
  let r := add_to_whitelist env email w in
  same_cache w (fst r) /\
  list_ids (fst r) = list_ids w /\
  (forall req, lw_request (snd r) = Some req ->
     exists lid, list_ids w !! "WHITELIST" = Some lid /\ lid <> "" /\
                 req = PostItem lid email email) /\
  (lw_success (snd r) = true ->
     lw_answer env = Responds 201 /\ is_Some (lw_request (snd r))).
Proof.
  unfold add_to_whitelist.
  set (w1 := if negb (str_truthy (access_token w)) || negb (opt_truthy (site_id w))
             then _ else w).
  assert (same_cache w w1 /\ list_ids w1 = list_ids w) as [Hs Hl].
  { unfold w1. destruct (negb (str_truthy (access_token w)) || negb (opt_truthy (site_id w))).
    - split; [apply same_cache_authenticate |]. destruct (lw_auth env); reflexivity.
    - split; [apply same_cache_refl | reflexivity]. }
  cbv zeta. rewrite Hl.
  destruct (list_ids w !! "WHITELIST") as [lid |] eqn:E.
  2:{ cbn [fst snd lw_request lw_success].
      split; [exact Hs |]. split; [exact Hl |]. split; intros; discriminate. }
  destruct (str_truthy lid) eqn:Et.
  2:{ cbn [fst snd lw_request lw_success].
      split; [exact Hs |]. split; [exact Hl |]. split; intros; discriminate. }
  apply str_truthy_true in Et.
  assert (forall req, Some (PostItem lid email email) = Some req ->
            exists lid0, Some lid = Some lid0 /\ lid0 <> "" /\
                         req = PostItem lid0 email email) as Hreq.
  { intros req [= <-]. exists lid. auto. }
  destruct (lw_answer env) as [code |].
  - destruct (code =? 201)%Z eqn:Ec; cbn [fst snd lw_request lw_success].
    + apply Z.eqb_eq in Ec as ->.
      split; [exact Hs |]. split; [exact Hl |]. split; [exact Hreq |].
      intros _. split; [reflexivity | eauto].
    + split; [exact Hs |]. split; [exact Hl |]. split; [exact Hreq |]. discriminate.
  - cbn [fst snd lw_request lw_success].
    split; [exact Hs |]. split; [exact Hl |]. split; [exact Hreq |]. discriminate.
Qed.

Lemma add_user_admin (session : Session) (claims : Claims) (body_email : option PyVal)
    (raw : string) (wenv : WhitelistEnv) (lenv : ListWriteEnv) (w : World) :
  session_user session = Some claims ->
  default (PStr "") body_email = PStr raw ->
  add_user lower strip session true body_email wenv lenv w =
    let email := lower (strip raw) in
    if negb (str_truthy email)
    then (w, (AdminError 400 "Email requerido", None))
    else if negb (endswith email "@prodato.com.py")
    then (w, (AdminError 400 "Solo se permiten correos @prodato.com.py", None))
    else if existsb (fun u => String.eqb (entry_email u) email)
              (snd (get_whitelist lower wenv w))
    then (fst (get_whitelist lower wenv w),
          (AdminError 400 "El usuario ya existe", None))
    else
      let r := add_to_whitelist lenv email (fst (get_whitelist lower wenv w)) in
      (fst r,
       (if lw_success (snd r) then AdminSuccess (lw_msg (snd r))
        else AdminError 500 (lw_msg (snd r)),
        lw_request (snd r))).
Proof.
  intros Hu Hb. unfold add_user. rewrite Hu, Hb. cbn [negb]. cbv zeta.
  destruct (negb (str_truthy (lower (strip raw)))); [reflexivity |].
  destruct (negb (endswith (lower (strip raw)) "@prodato.com.py")); [reflexivity |].
  destruct (get_whitelist lower wenv w) as [w1 current]. cbn [fst snd].
  destruct (existsb _ current); [reflexivity |].
  destruct (add_to_whitelist lenv (lower (strip raw)) w1) as [w2 r]. cbn [fst snd].
  destruct (lw_success r); reflexivity.
Qed.

(** X18. [add_user] never touches the cache of the datasets, and it sends a
    request to the list of users only for an administrator and only with
    the address [email.strip().lower()] made of the address of the body
    (the empty string when the body has none), which is then not empty, ends
    with [@prodato.com.py] and is not among the addresses that
    [get_whitelist] has just returned; the address is both the [correo] and
    the [Title] of the new item. An address whose [strip().lower()] is the
    [lower()] of an address that the list has is refused as a duplicate,
    without any request, when the list can be read. A success means the
    service answered the request with 201. *)
Theorem add_user_guards (session : Session) (is_admin : bool)
    (body_email : option PyVal) (wenv : WhitelistEnv) (lenv : ListWriteEnv)
    (w : World) :
  let r := add_user lower strip session is_admin body_email wenv lenv w in
  same_cache w (fst r) /\
  (forall req, snd (snd r) = Some req ->
     is_admin = true /\ is_Some (session_user session) /\
     exists raw lid,
       default (PStr "") body_email = PStr raw /\
       req = PostItem lid (lower (strip raw)) (lower (strip raw)) /\
       lower (strip raw) <> "" /\
       endswith (lower (strip raw)) "@prodato.com.py" = true /\
       (lower (strip raw) ∉ map entry_email (snd (get_whitelist lower wenv w))) /\
       list_ids (fst r) !! "WHITELIST" = Some lid) /\
  (forall raw items,
     is_Some (session_user session) -> is_admin = true ->
     body_email = Some (PStr raw) ->
     endswith (lower (strip raw)) "@prodato.com.py" = true ->
     wl_items wenv = Some items -> forallb well_formed_item items = true ->
     opt_truthy (list_ids (fst (get_whitelist lower wenv w)) !! "WHITELIST") = true ->
     grants lower items (lower (strip raw)) ->
     snd r = (AdminError 400 "El usuario ya existe", None)) /\
  (forall message, fst (snd r) = AdminSuccess message ->
     lw_answer lenv = Responds 201 /\ is_Some (snd (snd r))).
Proof.
  intros r. unfold r.
  destruct (session_user session) as [claims |] eqn:Hu.
  2:{ unfold add_user. rewrite Hu. cbn [fst snd].
      split; [apply same_cache_refl |]. split; [intros req H; discriminate |].
      split; [intros raw items [? ?]; discriminate | intros m H; discriminate]. }
  destruct is_admin.
  2:{ unfold add_user. rewrite Hu. cbn [fst snd negb].
      split; [apply same_cache_refl |]. split; [intros req H; discriminate |].
      split; [intros raw items _ H; discriminate | intros m H; discriminate]. }
  destruct (default (PStr "") body_email) as [raw | z | b |] eqn:Eb.
  2-4: unfold add_user; rewrite Hu, Eb; cbn [fst snd negb];
       (split; [apply same_cache_refl |]); (split; [intros req H; discriminate |]);
       (split; [intros raw items _ _ Hb; rewrite Hb in Eb; discriminate
               | intros m H; discriminate]).
  rewrite (add_user_admin session claims body_email raw wenv lenv w Hu Eb). cbv zeta.
  assert (forall raw', body_email = Some (PStr raw') -> raw' = raw) as Hraw.
  { intros raw' Hb. rewrite Hb in Eb. cbn in Eb. congruence. }
  destruct (str_truthy (lower (strip raw))) eqn:Et; cbn [negb].
  2:{ cbn [fst snd].
      split; [apply same_cache_refl |]. split; [intros req H; discriminate |].
      split; [| intros m H; discriminate].
      intros raw' items _ _ Hb He. apply Hraw in Hb. subst raw'. exfalso.
      assert (lower (strip raw) = "") as E0.
      { destruct (String.eqb_spec (lower (strip raw)) "") as [E0 | N]; [exact E0 |].
        apply str_truthy_true in N. congruence. }
      rewrite E0 in He. vm_compute in He. discriminate. }
  apply str_truthy_true in Et.
  destruct (endswith (lower (strip raw)) "@prodato.com.py") eqn:Ee; cbn [negb].
  2:{ cbn [fst snd].
      split; [apply same_cache_refl |]. split; [intros req H; discriminate |].
      split; [| intros m H; discriminate].
      intros raw' items _ _ Hb He. apply Hraw in Hb. subst raw'. congruence. }
  destruct (existsb _ (snd (get_whitelist lower wenv w))) eqn:Ex.
  { cbn [fst snd].
    split; [apply same_cache_get_whitelist |]. split; [intros req H; discriminate |].
    split; [reflexivity | intros m H; discriminate]. }
  assert (lower (strip raw) ∉ map entry_email (snd (get_whitelist lower wenv w)))
    as Hnew.
  { intros Hin. apply existsb_entry_email in Hin. congruence. }
  destruct (add_to_whitelist_result lenv (lower (strip raw))
              (fst (get_whitelist lower wenv w)))
    as (Hs & Hl & Hreq & Hok).
  cbn [fst snd]. split.
  { eapply same_cache_trans; [apply same_cache_get_whitelist | exact Hs]. }
  split.
  { intros req Hr. destruct (Hreq req Hr) as (lid & Hlid & _ & ->).
    split; [reflexivity |]. split; [eauto |].
    exists raw, lid. repeat split; try assumption.
    rewrite Hl. exact Hlid. }
  split.
  { intros raw' items _ _ Hb _ Hi Hwf Hk Hg. apply Hraw in Hb. subst raw'.
    exfalso. apply Hnew. eapply grants_allowed; eassumption. }
  intros message Hm.
  destruct (lw_success (snd (add_to_whitelist lenv (lower (strip raw))
                               (fst (get_whitelist lower wenv w))))) eqn:Es;
    [| discriminate].
  apply Hok. reflexivity.
Qed.

End AccessListFacts.

(** On text in ASCII, lower-casing keeps the length. *)
Lemma ascii_lower_empty (s : string) : AsciiText.lower s = "" <-> s = "".
Proof. destruct s; cbn [AsciiText.lower]; split; intros H; congruence. Defined.

Lemma get_whitelist_entries_witness :
  let env := mkWhitelistEnv None None None None
               (Some [mkWhitelistItem (Some "7") (Some (PStr "Ana@Prodato.com.py"));
                      mkWhitelistItem None None]) in
  let world := set_list_ids (<["WHITELIST" := "list-white"]> (list_ids Sample.world))
                 Sample.world in
  mkWhitelistEntry "7" "ana@prodato.com.py"
    ∈ snd (get_whitelist AsciiText.lower env world).
Proof.
  intros env world.
  refine (proj2 (proj2 (proj2 (proj2
            (get_whitelist_entries AsciiText.lower ascii_lower_empty env world))))
            _ eq_refl _ _ _ _).
  - reflexivity.
  - vm_compute. reflexivity.
  - exists (mkWhitelistItem (Some "7") (Some (PStr "Ana@Prodato.com.py"))),
           "Ana@Prodato.com.py".
    split; [left |]. split; [reflexivity |]. split; [reflexivity |].
    split; [discriminate | reflexivity].
Defined.

Lemma authorized_access_witness :
  let env := mkWhitelistEnv None None None None
               (Some [mkWhitelistItem (Some "7") (Some (PStr "Ana@Prodato.com.py"))]) in
  let world := set_list_ids (<["WHITELIST" := "list-white"]> (list_ids Sample.world))
                 Sample.world in
  snd (authorized AsciiText.lower
         (with_token (mkClaims (Some "Ana") (Some "ANA@prodato.com.py"))) env world)
  <> AccessDenied.
Proof.
  intros env world.
  refine (proj1 (proj2 (proj2 (proj2 (proj2
            (authorized_access AsciiText.lower ascii_lower_empty
               (mkClaims (Some "Ana") (Some "ANA@prodato.com.py")) env world)))))
            _ eq_refl _ _ _).
  - reflexivity.
  - vm_compute. reflexivity.
  - exists (mkWhitelistItem (Some "7") (Some (PStr "Ana@Prodato.com.py"))),
           "Ana@Prodato.com.py".
    split; [left |]. split; [reflexivity |].
    split; [discriminate | reflexivity].
Defined.

(** Runs on addresses in ASCII. An address of the list in another case lets
    its owner in. *)
Example mixed_case_address_admitted :
  let env := mkWhitelistEnv None None None None
               (Some [mkWhitelistItem (Some "7") (Some (PStr "Ana@Prodato.com.py"));
                      mkWhitelistItem None None]) in
  let world := set_list_ids (<["WHITELIST" := "list-white"]> (list_ids Sample.world))
                 Sample.world in
  snd (get_whitelist AsciiText.lower env world)
    = [mkWhitelistEntry "7" "ana@prodato.com.py"] /\
  snd (authorized AsciiText.lower
         (with_token (mkClaims (Some "Ana") (Some "ANA@prodato.com.py"))) env world)
  = RedirectIndex (Some (mkClaims (Some "Ana") (Some "ANA@prodato.com.py"), false)).
Proof. vm_compute. split; reflexivity. Qed.

(** An address that the list has in another case, sent with blanks around
    it, is refused; a new one is posted in lower case. *)
Example add_user_runs :
  let wenv := mkWhitelistEnv None None None None
                (Some [mkWhitelistItem (Some "7") (Some (PStr "Ana@Prodato.com.py"))]) in
  let lenv := mkListWriteEnv None (Responds 201) "" in
  let world := set_list_ids (<["WHITELIST" := "list-white"]> (list_ids Sample.world))
                 Sample.world in
  let add_user := add_user AsciiText.lower AsciiText.strip in
  snd (add_user Sample.session true (Some (PStr "  ANA@prodato.com.py ")) wenv lenv world)
    = (AdminError 400 "El usuario ya existe", None) /\
  snd (add_user Sample.session true (Some (PStr " Luz@PRODATO.com.py")) wenv lenv world)
    = (AdminSuccess "Agregado correctamente",
       Some (PostItem "list-white" "luz@prodato.com.py" "luz@prodato.com.py")) /\
  snd (add_user Sample.session true (Some (PStr "luz@example.com")) wenv lenv world)
    = (AdminError 400 "Solo se permiten correos @prodato.com.py", None).
Proof. vm_compute. repeat split. Qed.

(** ** Serving the data *)

Lemma check_source_synced_numeric (env : SourceEnv) (source : string)
    (updated : list string) (w : World) :
  is_Some (last_local_update_times w !! source) ->
  (exists c, (last_change_times w !! source) ≫= num_of = Some c) ->
  check_source env (last_change_times w) source updated w = (w, Ok updated).
Proof.
  intros [tl Hl] [c Hc].
  unfold check_source, as_number. unfold subscript, bind, get_world, ret, raise.
  rewrite Hl. destruct (Qlt_bool (grace_time env - tl) 5); [reflexivity |].
  destruct (last_change_times w !! source) as [j |]; [| discriminate].
  cbn in Hc. rewrite Hc.
  assert (Qlt_bool (c + 0.1) c = false) as -> by (apply Qlt_bool_false; lra).
  reflexivity.
Qed.

Lemma check_version_synced_numeric (env : string -> SourceEnv) (w : World) :
  synced w -> well_keyed w -> numeric_times w ->
  check_version env w = (w, Ok (last_change_times w, [])).
Proof.
  intros Hs (_ & B & _) Hn. unfold check_version. unfold bind at 1 2, get_world at 1.
  rewrite Hs.
  rewrite check_source_synced_numeric;
    [| apply B; left; reflexivity | apply Hn; left; reflexivity].
  unfold bind at 1.
  rewrite check_source_synced_numeric;
    [| apply B; right; reflexivity | apply Hn; right; reflexivity].
  reflexivity.
Qed.

Lemma numeric_times_edit (env : EditEnv) (ids : list PyVal) (status modifier : PyVal)
    (source : string) (w : World) :
  numeric_times w ->
  numeric_times (update_status_by_ids env ids status modifier source w).
Proof.
  intros Hn. destruct (dfs w !! source) as [[| rows] |] eqn:Hd;
    try (rewrite update_status_by_ids_no_match by (intros; congruence); exact Hn).
  destruct (existsb (isin (map py_str ids)) rows) eqn:Hm.
  - destruct (update_status_by_ids_match env ids status modifier source w rows Hd Hm)
      as (_ & E & _).
    intros k Hk. rewrite E.
    destruct (decide (source = k)) as [-> | Hne].
    + rewrite lookup_insert_eq. cbn. eauto.
    + rewrite lookup_insert_ne by exact Hne. apply Hn. exact Hk.
  - rewrite update_status_by_ids_no_match; [exact Hn |].
    intros rows' Hd'. assert (rows' = rows) as -> by congruence. exact Hm.
Qed.

(** X19. Reading one's own write through [GET /api/data]: after a local edit
    that matched a row and whose write succeeded, in a manager with the keys
    of the datasets and numeric last-change times, a signed-in request for
    that dataset is answered with the edited table and its date, and changes
    nothing of the cache. This holds without a refresh, and with
    [refresh=true] as long as the guard of the refresh reads a time less than
    five seconds after the edit and the items can be read. *)
Theorem get_data_reads_edit (render : Q -> string) (session : Session)
    (claims : Claims) (env : EditEnv) (denv : DataEnv) (w : World)
    (ids : list PyVal) (status modifier : PyVal) (source : string)
    (rows : list Row) (refresh_arg : option string) :
  session_user session = Some claims ->
  well_keyed w -> numeric_times w ->
  dfs w !! source = Some (Table rows) ->
  existsb (isin (map py_str ids)) rows = true ->
  edit_io env = WriteOk ->
  (refresh_arg = Some "true" ->
     (guard_time (refresh_env denv) - edit_time env < 5)%Q /\
     is_Some (items_answer (refresh_env denv))) ->
  let w1 := update_status_by_ids env ids status modifier source w in
  let edited :=
    Table (map (fun r => if isin (map py_str ids) r
                         then edit_row env status modifier r else r) rows) in
  let r := get_data render session (Some source) refresh_arg denv w1 in
  snd r = Ok (DataOk edited (get_formatted_date render edited)) /\
  same_cache w1 (fst r).
Proof.
  intros Hu Hw Hn Hd Hm Hio Hrefresh w1 edited r.
  destruct (update_status_by_ids_match env ids status modifier source w rows Hd Hm)
    as (E1 & E2 & E3 & E4).
  fold w1 in E1, E2, E3, E4.
  assert (dataset_key source) as Hk.
  { destruct Hw as (A & _). apply A. rewrite Hd. eauto. }
  assert (synced w1) as Hs.
  { unfold synced. rewrite E4, E2, Hio. apply save_state_synced; assumption. }
  assert (well_keyed w1) as Hw1 by (apply well_keyed_update_status_by_ids; exact Hw).
  assert (numeric_times w1) as Hn1 by (apply numeric_times_edit; exact Hn).
  assert (dfs w1 !! source = Some edited) as Hd1.
  { rewrite E1. apply lookup_insert_eq. }
  assert (last_local_update_times w1 !! source = Some (edit_time env)) as Hl1.
  { rewrite E3. apply lookup_insert_eq. }
  assert (df_empty edited = false) as He.
  { unfold edited. destruct rows; [discriminate | reflexivity]. }
  assert (exists w2, r = (w2, Ok (DataOk edited (get_formatted_date render edited))) /\
                     same_cache w1 w2) as (w2 & -> & Hsame);
    [| split; [reflexivity | exact Hsame]].
  unfold r, get_data. rewrite Hu. cbn [default from_option id].
  unfold bind at 1. rewrite (check_version_synced_numeric _ w1 Hs Hw1 Hn1).
  unfold bind at 1, get_world at 1. rewrite Hd1. cbn [default from_option id].
  rewrite He, orb_false_r.
  destruct (String.eqb_spec (from_option id "false" refresh_arg) "true") as [Er | Er].
  - assert (refresh_arg = Some "true") as Hr.
    { destruct refresh_arg as [s |]; cbn in Er; [congruence | discriminate]. }
    destruct (Hrefresh Hr) as [Hg Hi].
    destruct (fetch_data_guarded (refresh_env denv) source w1 (edit_time env) Hl1 Hg)
      as [Hsame Hret].
    specialize (Hret edited Hd1 Hi).
    unfold bind, ret.
    destruct (fetch_data (refresh_env denv) source w1) as [w2 res].
    cbn [fst snd] in *. subst res. exists w2. split; [reflexivity | exact Hsame].
  - unfold bind, ret. exists w1. split; [reflexivity | apply same_cache_refl].
Qed.

Lemma sample_world_numeric_times : numeric_times Sample.world.
Proof. intros k [-> | ->]; eexists; reflexivity. Defined.

Lemma get_data_reads_edit_witness :
  snd (get_data (fun _ => "hoy") Sample.session (Some "IPS") (Some "true")
         (mkDataEnv (Sample.tick 103) (Sample.fetch 104))
         (update_status_by_ids Sample.edit [PStr "55"] (PStr "REVISADO") (PStr "Ana")
            "IPS" Sample.world))
  = Ok (DataOk (Table [edit_row Sample.edit (PStr "REVISADO") (PStr "Ana")
                         (Sample.row "55" "PENDIENTE")]) "hoy").
Proof.
  refine (proj1 (get_data_reads_edit (fun _ => "hoy") Sample.session
            (mkClaims (Some "Ana") (Some "ana@prodato.com.py")) Sample.edit
            (mkDataEnv (Sample.tick 103) (Sample.fetch 104)) Sample.world
            [PStr "55"] (PStr "REVISADO") (PStr "Ana") "IPS"
            [Sample.row "55" "PENDIENTE"] (Some "true")
            _ sample_world_well_keyed sample_world_numeric_times _ _ _ _)).
  - reflexivity.
  - reflexivity.
  - vm_compute. reflexivity.
  - reflexivity.
  - intros _. split; [vm_compute; reflexivity | eexists; reflexivity].
Defined.


(** ** The monitor after a change *)

Lemma emit_source_numeric (date_of : DataFrame -> string) (w : World)
    (current_times : gmap string Json) (k : string) (mon : Monitor)
    (current : Json) (l c : Q) (d : DataFrame) :
  current_times !! k = Some current ->
  (last_emitted_versions mon !! k) ≫= num_of = Some l ->
  num_of current = Some c ->
  dfs w !! k = Some d ->
  emit_source date_of w current_times k mon =
    (if Qlt_bool (l + 0.001) c
     then mkMonitor (<[k := current]> (last_emitted_versions mon))
                    (emitted mon ++ [mkServerUpdate k current (date_of d)])%list
     else mon, None).
Proof.
  intros Hc Hl Hn Hd. unfold emit_source. rewrite Hc.
  destruct (last_emitted_versions mon !! k) as [last |]; [| discriminate].
  cbn in Hl. rewrite Hl, Hn, Hd.
  destruct (Qlt_bool (l + 0.001) c); reflexivity.
Qed.

(** X20. A change reaches the clients on the next iteration of the monitor:
    when the file says what the manager has in memory (as after a local edit
    or a refresh whose write succeeded), the times are numbers, and the
    last-change time of a dataset exceeds the version last emitted for it by
    more than 0.001, the iteration leaves the manager as it is, ends without
    exception, emits exactly one [server_update] for that dataset, carrying
    its last-change time and the date of its cached table, and records that
    version as emitted. *)
Theorem monitor_tick_broadcasts (render : Q -> string) (env : string -> SourceEnv)
    (w : World) (mon : Monitor) (source : string) (current : Json) (l c : Q)
    (d : DataFrame) :
  synced w -> well_keyed w -> numeric_times w -> numeric_emitted mon ->
  dataset_key source ->
  last_change_times w !! source = Some current ->
  num_of current = Some c ->
  (last_emitted_versions mon !! source) ≫= num_of = Some l ->
  (l + 0.001 < c)%Q ->
  dfs w !! source = Some d ->
  let r := monitor_tick (get_formatted_date render) env w mon in
  fst (fst r) = w /\ snd r = false /\
  last_emitted_versions (snd (fst r)) !! source = Some current /\
  exists ev,
    emitted (snd (fst r)) = (emitted mon ++ ev)%list /\
    count_updates source ev = 1%nat /\
    mkServerUpdate source current (get_formatted_date render d) ∈ ev.
Proof.
  intros Hs Hw Hn Hm Hk Hc Hnc Hl Hlt Hd r.
  pose proof Hw as (A & _ & _).
  destruct (proj2 (A "IPS") ltac:(left; reflexivity)) as [dI HdI].
  destruct (proj2 (A "MTESS") ltac:(right; reflexivity)) as [dM HdM].
  destruct (Hn "IPS" ltac:(left; reflexivity)) as [cI HcI].
  destruct (Hn "MTESS" ltac:(right; reflexivity)) as [cM HcM].
  destruct (last_change_times w !! "IPS") as [jI |] eqn:EI; [| discriminate].
  destruct (last_change_times w !! "MTESS") as [jM |] eqn:EM; [| discriminate].
  cbn in HcI, HcM.
  destruct (Hm "IPS" ltac:(left; reflexivity)) as [lI HlI].
  destruct (Hm "MTESS" ltac:(right; reflexivity)) as [lM HlM].
  set (F := get_formatted_date render) in *.
  set (monI := if Qlt_bool (lI + 0.001) cI
               then mkMonitor (<["IPS" := jI]> (last_emitted_versions mon))
                      (emitted mon ++ [mkServerUpdate "IPS" jI (F dI)])%list
               else mon).
  assert ((last_emitted_versions monI !! "MTESS") ≫= num_of = Some lM) as HlM'.
  { unfold monI. destruct (Qlt_bool (lI + 0.001) cI); [| exact HlM].
    cbn [last_emitted_versions]. rewrite lookup_insert_ne by discriminate. exact HlM. }
  assert (r = (w,
               (if Qlt_bool (lM + 0.001) cM
                then mkMonitor (<["MTESS" := jM]> (last_emitted_versions monI))
                       (emitted monI ++ [mkServerUpdate "MTESS" jM (F dM)])%list
                else monI), false)) as ->.
  { unfold r, monitor_tick.
    rewrite (check_version_synced_numeric env w Hs Hw Hn).
    rewrite (emit_source_numeric F w _ "IPS" mon jI lI cI dI EI HlI HcI HdI).
    fold monI.
    rewrite (emit_source_numeric F w _ "MTESS" monI jM lM cM dM EM HlM' HcM HdM).
    reflexivity. }
  cbn [fst snd]. split; [reflexivity |]. split; [reflexivity |].
  apply Qlt_bool_true in Hlt.
  destruct Hk as [-> | ->].
  - assert (jI = current) as -> by congruence.
    assert (dI = d) as -> by congruence.
    assert (lI = l) as -> by congruence.
    assert (cI = c) as -> by congruence.
    unfold monI. rewrite Hlt.
    destruct (Qlt_bool (lM + 0.001) cM); cbn [last_emitted_versions emitted].
    + split; [rewrite lookup_insert_ne by discriminate; apply lookup_insert_eq |].
      exists [mkServerUpdate "IPS" current (F d); mkServerUpdate "MTESS" jM (F dM)].
      split; [rewrite <- app_assoc; reflexivity |].
      split; [reflexivity | left].
    + split; [apply lookup_insert_eq |].
      exists [mkServerUpdate "IPS" current (F d)].
      split; [reflexivity |]. split; [reflexivity | left].
  - assert (jM = current) as -> by congruence.
    assert (dM = d) as -> by congruence.
    assert (cM = c) as -> by congruence.
    assert (lM = l) as ->.
    { unfold monI in HlM'. congruence. }
    rewrite Hlt. cbn [last_emitted_versions emitted].
    split; [apply lookup_insert_eq |].
    unfold monI. destruct (Qlt_bool (lI + 0.001) cI); cbn [emitted].
    + exists [mkServerUpdate "IPS" jI (F dI); mkServerUpdate "MTESS" current (F d)].
      split; [rewrite <- app_assoc; reflexivity |].
      split; [reflexivity | right; left].
    + exists [mkServerUpdate "MTESS" current (F d)].
      split; [reflexivity |]. split; [reflexivity | left].
Qed.

Lemma monitor_start_numeric : numeric_emitted monitor_start.
Proof. intros k [-> | ->]; eexists; reflexivity. Defined.

Lemma monitor_tick_broadcasts_witness :
  let w := update_status_by_ids Sample.edit [PStr "55"] (PStr "REVISADO") (PStr "Ana")
             "IPS" Sample.world in
  let r := monitor_tick (get_formatted_date (fun _ => "hoy")) (Sample.tick 103) w
             monitor_start in
  fst (fst r) = w /\ snd r = false /\
  last_emitted_versions (snd (fst r)) !! "IPS" = Some (JNum 100) /\
  exists ev,
    emitted (snd (fst r)) = (emitted monitor_start ++ ev)%list /\
    count_updates "IPS" ev = 1%nat /\
    mkServerUpdate "IPS" (JNum 100)
      (get_formatted_date (fun _ => "hoy")
         (Table [edit_row Sample.edit (PStr "REVISADO") (PStr "Ana")
                   (Sample.row "55" "PENDIENTE")])) ∈ ev.
Proof.
  refine (monitor_tick_broadcasts (fun _ => "hoy") (Sample.tick 103)
            (update_status_by_ids Sample.edit [PStr "55"] (PStr "REVISADO") (PStr "Ana")
               "IPS" Sample.world)
            monitor_start "IPS" (JNum 100) 0 100
            (Table [edit_row Sample.edit (PStr "REVISADO") (PStr "Ana")
                      (Sample.row "55" "PENDIENTE")])
            _ _ _ monitor_start_numeric _ _ _ _ _ _).
  - vm_compute. reflexivity.
  - apply well_keyed_update_status_by_ids. exact sample_world_well_keyed.
  - apply numeric_times_edit. exact sample_world_numeric_times.
  - left. reflexivity.
  - vm_compute. reflexivity.
  - reflexivity.
  - reflexivity.
  - vm_compute. reflexivity.
  - vm_compute. reflexivity.
Defined.
